(** * The admin router of communitiesx, embedded and verified

    This development embeds [src/server/trpc/routers/admin.ts] — the seven
    procedures of [adminRouter] — as functions of a small exception-and-state
    monad, and proves the properties its specification states about them.

    Layout:
    - strings, JavaScript values and the identity-store schema;
    - the monad [M]: a world (database, trace of statements and
      dispatches, outbox, console) threaded through computations that
      either return or throw;
    - the collaborators (drizzle queries, nanoid, Date, hashPassword,
      sendEmail) as operations of [M] driven by an environment [Env];
    - the input schemas and the seven procedures, written statement by
      statement after the source;
    - the logic of the dashboard page [src/app/admin/page.tsx];
    - the theorems. *)

From Stdlib Require Import String Ascii List ZArith Lia Bool Arith.
From Stdlib Require Import Sorting.Sorted Sorting.Permutation Sorting.Mergesort.
From Stdlib Require Import Orders.
Import ListNotations.

Local Open Scope list_scope.
Local Open Scope string_scope.

(** ** Strings *)

(** Characters that cannot be written inside a literal. *)
Definition dquote : string := String "034"%char EmptyString.
Definition newline : string := String "010"%char EmptyString.

(** [spaces n] is a run of [n] blanks (the indentation inside the source's
    template literal). *)
Fixpoint spaces (n : nat) : string :=
  match n with
  | O => EmptyString
  | S k => String " "%char (spaces k)
  end.

(** JavaScript's [===] on two strings. *)
Definition str_eq (a b : string) : bool := String.eqb a b.

(** [`${v}`] for a value that may be [undefined]. *)
Definition template_of_optional (v : option string) : string :=
  match v with
  | Some s => s
  | None => "undefined"
  end.

(** [substring_of needle hay]: [needle] occurs in [hay]. *)
Definition substring_of (needle hay : string) : Prop :=
  exists before after, hay = before ++ needle ++ after.

(** ** JSON.stringify on objects whose fields are strings *)

Definition hex_digit (n : nat) : ascii :=
  match n with
  | 0 => "0" | 1 => "1" | 2 => "2" | 3 => "3" | 4 => "4" | 5 => "5"
  | 6 => "6" | 7 => "7" | 8 => "8" | 9 => "9" | 10 => "a" | 11 => "b"
  | 12 => "c" | 13 => "d" | 14 => "e" | _ => "f"
  end%char.

(** The escape of one character inside a JSON string (ECMAScript
    QuoteJSONString): the quote and the backslash are escaped, control
    characters below U+0020 get a short escape or [\u00XX], anything else is
    copied. *)
Definition json_escape_char (c : ascii) : string :=
  let n := nat_of_ascii c in
  let bs := String "092"%char EmptyString in
  if Nat.eqb n 34 then bs ++ dquote
  else if Nat.eqb n 92 then bs ++ bs
  else if Nat.eqb n 8 then bs ++ "b"
  else if Nat.eqb n 12 then bs ++ "f"
  else if Nat.eqb n 10 then bs ++ "n"
  else if Nat.eqb n 13 then bs ++ "r"
  else if Nat.eqb n 9 then bs ++ "t"
  else if Nat.ltb n 32 then
    bs ++ "u00" ++ String (hex_digit (n / 16)) (String (hex_digit (n mod 16)) EmptyString)
  else String c EmptyString.

Fixpoint json_escape (s : string) : string :=
  match s with
  | EmptyString => EmptyString
  | String c rest => json_escape_char c ++ json_escape rest
  end.

Definition json_quote (s : string) : string := dquote ++ json_escape s ++ dquote.

Fixpoint json_members (fields : list (string * string)) : string :=
  match fields with
  | [] => EmptyString
  | [(k, v)] => json_quote k ++ ":" ++ json_quote v
  | (k, v) :: rest => json_quote k ++ ":" ++ json_quote v ++ "," ++ json_members rest
  end.

(** [JSON.stringify({k1: v1, ...})] for string values, keys in insertion
    order. *)
Definition JSON_stringify (fields : list (string * string)) : string :=
  "{" ++ json_members fields ++ "}".

(** The value of a hexadecimal digit (lower case). *)
Definition unhex (c : ascii) : option nat :=
  let n := nat_of_ascii c in
  if Nat.leb 48 n && Nat.leb n 57 then Some (n - 48)
  else if Nat.leb 97 n && Nat.leb n 102 then Some (n - 87)
  else None.

(** Reads back the first character of escaped text, with what follows it:
    [None] at a closing quote and on text [json_escape] never produces.
    It is the inverse of [json_escape_char], used to show that a payload
    determines its fields. *)
Definition json_unescape_head (s : string) : option (ascii * string) :=
  match s with
  | EmptyString => None
  | String c rest =>
      if Nat.eqb (nat_of_ascii c) 34 then None
      else if Nat.eqb (nat_of_ascii c) 92 then
        match rest with
        | EmptyString => None
        | String e rest' =>
            match nat_of_ascii e with
            | 34 => Some ("034"%char, rest')
            | 92 => Some ("092"%char, rest')
            | 98 => Some ("008"%char, rest')
            | 102 => Some ("012"%char, rest')
            | 110 => Some ("010"%char, rest')
            | 114 => Some ("013"%char, rest')
            | 116 => Some ("009"%char, rest')
            | 117 =>
                match rest' with
                | String _ (String _ (String h (String l rest''))) =>
                    match unhex h, unhex l with
                    | Some a, Some b => Some (ascii_of_nat (16 * a + b), rest'')
                    | _, _ => None
                    end
                | _ => None
                end
            | _ => None
            end
        end
      else Some (c, rest)
  end.

(** ** Dates

    A [Date] is its time value: milliseconds since the epoch, UTC.  The
    calendar functions below are those of ECMAScript, on time values within
    the range of [Date] (where [TimeClip] changes nothing).  The server's
    zone is a function [tza], ECMAScript's [LocalTZA(t, isUTC)]: the offset
    from UTC, in milliseconds, in force at the UTC time [t]
    ([isUTC = true]) or at the local time [t] ([isUTC = false]); it is not
    the same all year where clocks change with the season. *)

Definition Date := Z.

Definition msPerDay : Z := 86400000.

Definition Day (t : Z) : Z := (t / msPerDay)%Z.

Definition TimeWithinDay (t : Z) : Z := (t mod msPerDay)%Z.

Definition MakeDate (day time : Z) : Z := (day * msPerDay + time)%Z.

Definition LocalTime (tza : Z -> bool -> Z) (t : Date) : Z := (t + tza t true)%Z.

Definition UTC (tza : Z -> bool -> Z) (t : Z) : Date := (t - tza t false)%Z.

(** The day of the month (1 to 31) of a day number, by the proleptic
    Gregorian calendar; day 0 is 1 January 1970. *)
Definition day_of_month (day : Z) : Z :=
  (let z := day + 719468 in
   let era := z / 146097 in
   let doe := z - era * 146097 in
   let yoe := (doe - doe / 1460 + doe / 36524 - doe / 146096) / 365 in
   let doy := doe - (365 * yoe + yoe / 4 - yoe / 100) in
   let mp := (5 * doy + 2) / 153 in
   doy - (153 * mp + 2) / 5 + 1)%Z.

Definition DateFromTime (t : Z) : Z := day_of_month (Day t).

(** [MakeDay(YearFromTime(t), MonthFromTime(t), date)]: the day number of
    the first day of [t]'s month, plus [date - 1]. *)
Definition MakeDay_in_month_of (t : Z) (date : Z) : Z :=
  (Day t - DateFromTime t + 1 + date - 1)%Z.

(** [d.getDate()] *)
Definition Date_getDate (tza : Z -> bool -> Z) (d : Date) : Z :=
  DateFromTime (LocalTime tza d).

(** [d.setDate(date)]: the new time value of [d].  The date is replaced in
    local time and the result converted back with the offset in force at
    that new local time. *)
Definition Date_setDate (tza : Z -> bool -> Z) (d : Date) (date : Z) : Date :=
  let t := LocalTime tza d in
  UTC tza (MakeDate (MakeDay_in_month_of t date) (TimeWithinDay t)).

(** ** The identity store: one module per table of the schema

    The table declarations ([@/server/db/auth-schema], [@/server/db/schema])
    are outside the router; each row type has the columns the router reads
    or writes. *)

Module orgs.
Record row := { id : string; name : string }.
End orgs.

Module users.
Record row := {
  id : string;
  name : string;
  email : string;
  emailVerified : bool;
  orgId : string;
  role : string;
  createdAt : Date;
  updatedAt : Date
}.
End users.

Module accounts.
Record row := {
  id : string;
  userId : string;
  providerId : string;
  accountId : string;
  password : string;
  createdAt : Date;
  updatedAt : Date
}.
End accounts.

Module verifications.
Record row := {
  id : string;
  identifier : string;
  value : string;
  expiresAt : Date;
  createdAt : Date;
  updatedAt : Date
}.
End verifications.

(** Modelled from the spec: the declaration of the community-membership
    table is missing; a membership has an owning user reference, and the
    community it belongs to stands for its remaining columns. *)
Module communityMembers.
Record row := { userId : string; communityId : string }.
End communityMembers.

(** Modelled from the spec: the declaration of [login_events] is missing; a
    login event has a user identifier and a timestamp. *)
Module login_events.
Record row := { user_id : string; created_at : Date }.
End login_events.

Inductive Table :=
  | Users | Orgs | Accounts | Verifications | CommunityMembers.

Definition row (t : Table) : Type :=
  match t with
  | Users => users.row
  | Orgs => orgs.row
  | Accounts => accounts.row
  | Verifications => verifications.row
  | CommunityMembers => communityMembers.row
  end.

Record Db := {
  db_users : list users.row;
  db_orgs : list orgs.row;
  db_accounts : list accounts.row;
  db_verifications : list verifications.row;
  db_communityMembers : list communityMembers.row;
  db_login_events : list login_events.row
}.

Definition rows (t : Table) (db : Db) : list (row t) :=
  match t return list (row t) with
  | Users => db_users db
  | Orgs => db_orgs db
  | Accounts => db_accounts db
  | Verifications => db_verifications db
  | CommunityMembers => db_communityMembers db
  end.

Definition set_rows (t : Table) (rs : list (row t)) (db : Db) : Db :=
  match t return list (row t) -> Db with
  | Users => fun rs =>
      {| db_users := rs; db_orgs := db_orgs db; db_accounts := db_accounts db;
         db_verifications := db_verifications db;
         db_communityMembers := db_communityMembers db;
         db_login_events := db_login_events db |}
  | Orgs => fun rs =>
      {| db_users := db_users db; db_orgs := rs; db_accounts := db_accounts db;
         db_verifications := db_verifications db;
         db_communityMembers := db_communityMembers db;
         db_login_events := db_login_events db |}
  | Accounts => fun rs =>
      {| db_users := db_users db; db_orgs := db_orgs db; db_accounts := rs;
         db_verifications := db_verifications db;
         db_communityMembers := db_communityMembers db;
         db_login_events := db_login_events db |}
  | Verifications => fun rs =>
      {| db_users := db_users db; db_orgs := db_orgs db; db_accounts := db_accounts db;
         db_verifications := rs;
         db_communityMembers := db_communityMembers db;
         db_login_events := db_login_events db |}
  | CommunityMembers => fun rs =>
      {| db_users := db_users db; db_orgs := db_orgs db; db_accounts := db_accounts db;
         db_verifications := db_verifications db;
         db_communityMembers := rs;
         db_login_events := db_login_events db |}
  end rs.

(** drizzle's [eq(column, value)] on a text column. *)
Module drizzle.
Definition eq {R : Type} (column : R -> string) (v : string) : R -> bool :=
  fun r => str_eq (column r) v.
End drizzle.

(** ** Errors, outcomes and the world *)

Inductive Code :=
  | BAD_REQUEST | UNAUTHORIZED | NOT_FOUND | CONFLICT | FORBIDDEN | INTERNAL_SERVER_ERROR.

(** What a [throw] carries: a [TRPCError], or any other error object (the
    ones collaborators raise); [error instanceof TRPCError] tells them
    apart. *)
Inductive Exn :=
  | TRPCError (code : Code) (message : string)
  | OtherError (message : string).

Definition instanceof_TRPCError (e : Exn) : bool :=
  match e with
  | TRPCError _ _ => true
  | OtherError _ => false
  end.

Inductive Outcome (A : Type) :=
  | Return (a : A)
  | Throw (e : Exn).
Arguments Return {A} a.
Arguments Throw {A} e.

Record Email := { to : string; subject : string; html : string }.

(** One action on a collaborator that leaves a mark: a statement sent to
    the store, or an email handed to the dispatcher. *)
Inductive Event :=
  | SELECT (t : Table)
  | INSERT (t : Table) (r : row t)
  | DELETE (t : Table)
  | EXECUTE (sql : string)
  | SEND (m : Email).

(** The world a request runs in: the store, the trace of the statements
    and dispatches so far (oldest first), the emails handed to the
    dispatcher, the console, and the number of collaborator calls made so
    far. *)
Record World := {
  w_db : Db;
  w_trace : list Event;
  w_outbox : list Email;
  w_console : list string;
  w_tick : nat
}.

(** What a failed check of an input schema reports: the field and the
    kind of failure. *)
Inductive ZodIssue :=
  | too_small (path : string) (minimum : nat)
  | invalid_email (path : string).

(** The collaborators' behaviour, indexed by the call count at which they
    are asked: the identifiers [nanoid] draws, the clock, the password
    hash, whether a store, hashing or dispatch call fails; the server's
    zone and configured base URL; and the two parts of zod that are not in
    the router: the pattern [z.string().email()] tests a text against, and
    the message of the error built from a list of issues. *)
Record Env := {
  env_nanoid : nat -> nat -> string;
  env_clock : nat -> Date;
  env_hashPassword : nat -> string -> string;
  env_fails : nat -> bool;
  LocalTZA : Z -> bool -> Z;
  NEXT_PUBLIC_APP_URL : option string;
  zod_email : string -> bool;
  zod_message : list ZodIssue -> string
}.

(** ** The monad *)

Definition M (A : Type) : Type := Env -> World -> Outcome A * World.

Definition ret {A} (a : A) : M A := fun _ w => (Return a, w).

Definition bind {A B} (m : M A) (k : A -> M B) : M B :=
  fun env w =>
    match m env w with
    | (Return a, w') => k a env w'
    | (Throw e, w') => (Throw e, w')
    end.

Definition throw {A} (e : Exn) : M A := fun _ w => (Throw e, w).

(** [try { body } catch (error) { handler }] *)
Definition try_catch {A} (body : M A) (handler : Exn -> M A) : M A :=
  fun env w =>
    match body env w with
    | (Return a, w') => (Return a, w')
    | (Throw e, w') => handler e env w'
    end.

Declare Scope m_scope.
Delimit Scope m_scope with m.
Notation "x <- m ;; k" := (bind m (fun x => k))
  (at level 100, m at next level, right associativity) : m_scope.
Notation "m ;; k" := (bind m (fun _ => k))
  (at level 100, right associativity) : m_scope.
Local Open Scope m_scope.

(** ** World updates *)

Definition tick (w : World) : World :=
  {| w_db := w_db w; w_trace := w_trace w; w_outbox := w_outbox w;
     w_console := w_console w; w_tick := S (w_tick w) |}.

Definition with_db (db : Db) (w : World) : World :=
  {| w_db := db; w_trace := w_trace w; w_outbox := w_outbox w;
     w_console := w_console w; w_tick := w_tick w |}.

Definition log_event (s : Event) (w : World) : World :=
  {| w_db := w_db w; w_trace := (w_trace w ++ [s])%list; w_outbox := w_outbox w;
     w_console := w_console w; w_tick := w_tick w |}.

Definition post (m : Email) (w : World) : World :=
  {| w_db := w_db w; w_trace := w_trace w; w_outbox := (w_outbox w ++ [m])%list;
     w_console := w_console w; w_tick := w_tick w |}.

Definition print (line : string) (w : World) : World :=
  {| w_db := w_db w; w_trace := w_trace w; w_outbox := w_outbox w;
     w_console := (w_console w ++ [line])%list; w_tick := w_tick w |}.

(** ** Collaborators *)

(** A call that cannot fail: it consumes one tick and reads the
    environment at that tick. *)
Definition pure_call {A} (f : Env -> nat -> A) : M A :=
  fun env w => (Return (f env (w_tick w)), tick w).

(** A call to the store, the hasher or the dispatcher: it consumes one
    tick; if the environment makes this call fail it throws an ordinary
    error and has no other effect, otherwise [act] runs. *)
Definition fallible_call {A} (what : string) (act : Env -> nat -> World -> A * World) : M A :=
  fun env w =>
    if env_fails env (w_tick w) then (Throw (OtherError what), tick w)
    else let (a, w') := act env (w_tick w) (tick w) in (Return a, w').

(** [nanoid(size)], 21 characters when no size is given. *)
Definition nanoid (size : option nat) : M string :=
  pure_call (fun env t => env_nanoid env t (match size with Some n => n | None => 21 end)).

(** [new Date()] *)
Definition new_Date : M Date := pure_call (fun env t => env_clock env t).

(** [d.getDate()] and [d.setDate(date)] in the server's zone; [setDate]
    yields the updated [Date]. *)
Definition getDate (d : Date) : M Z :=
  fun env w => (Return (Date_getDate (LocalTZA env) d), w).

Definition setDate (d : Date) (date : Z) : M Date :=
  fun env w => (Return (Date_setDate (LocalTZA env) d date), w).

(** [hashPassword(password)] *)
Definition hashPassword (password : string) : M string :=
  fallible_call "hashPassword" (fun env t w => (env_hashPassword env t password, w)).

(** [sendEmail({to, subject, html})] *)
Definition sendEmail (m : Email) : M unit :=
  fallible_call "sendEmail" (fun _ _ w => (tt, log_event (SEND m) (post m w))).

(** [console.error(label, error)] *)
Definition console_error (label : string) : M unit :=
  fun _ w => (Return tt, print label w).

(** [db.query.<t>.findFirst({ where })] *)
Definition findFirst (t : Table) (where_ : row t -> bool) : M (option (row t)) :=
  fallible_call "db" (fun _ _ w =>
    (find where_ (rows t (w_db w)), log_event (SELECT t) w)).

(** [db.query.<t>.findMany()] *)
Definition findMany (t : Table) : M (list (row t)) :=
  fallible_call "db" (fun _ _ w => (rows t (w_db w), log_event (SELECT t) w)).

(** [db.query.users.findMany({ with: { organization: true } })]: every user
    with the organization its [orgId] refers to ([null] when there is
    none). *)
Definition findMany_users_with_organization : M (list (users.row * option orgs.row)) :=
  fallible_call "db" (fun _ _ w =>
    (map (fun u => (u, find (drizzle.eq orgs.id (users.orgId u)) (db_orgs (w_db w))))
         (db_users (w_db w)),
     log_event (SELECT Users) w)).

(** [db.insert(t).values(r)], with or without [.returning()]: the inserted
    rows are its result. *)
Definition insert_values (t : Table) (r : row t) : M (list (row t)) :=
  fallible_call "db" (fun _ _ w =>
    ([r], log_event (INSERT t r) (with_db (set_rows t (rows t (w_db w) ++ [r])%list (w_db w)) w))).

(** [db.delete(t).where(cond)] *)
Definition delete_where (t : Table) (cond : row t -> bool) : M unit :=
  fallible_call "db" (fun _ _ w =>
    (tt, log_event (DELETE t)
           (with_db (set_rows t (filter (fun r => negb (cond r)) (rows t (w_db w))) (w_db w)) w))).

(** [const [x] = rows]: the first element, [undefined] when there is
    none. *)
Definition first_of {A} (l : list A) : option A := hd_error l.

(** ** The request context *)

(** [ctx.session.user]: the caller's identity; [role] may be unset. *)
Record SessionUser := { su_id : string; su_role : option string }.

(** [ctx.session]: a session may lack its user. *)
Record Session := { session_user : option SessionUser }.

(** [ctx]: the session is absent for an anonymous caller. *)
Record Context := { ctx_session : option Session }.

(** [ctx.session?.user] *)
Definition ctx_session_user (ctx : Context) : option SessionUser :=
  match ctx_session ctx with
  | Some s => session_user s
  | None => None
  end.

(** [role !== 'admin'] *)
Definition role_is_not_admin (r : option string) : bool :=
  match r with
  | Some s => negb (str_eq s "admin")
  | None => true
  end.

(** The guard every resolver opens with:
    [!ctx.session?.user || ctx.session.user.role !== 'admin']. *)
Definition not_admin (ctx : Context) : bool :=
  match ctx_session_user ctx with
  | None => true
  | Some u => role_is_not_admin (su_role u)
  end.

(** [ctx.session.user.id]; reading it off an absent session is a
    TypeError. *)
Definition ctx_session_user_id (ctx : Context) : M string :=
  match ctx_session_user ctx with
  | Some u => ret (su_id u)
  | None => throw (OtherError "TypeError")
  end.

(** ** Inputs and outputs of the procedures *)

(** [z.enum(['admin', 'user'])] *)
Inductive RoleEnum := role_admin | role_user.

Definition role_string (r : RoleEnum) : string :=
  match r with
  | role_admin => "admin"
  | role_user => "user"
  end.

Module createOrgInput.
Record t := { name : string }.
End createOrgInput.

Module createUserInput.
Record t := {
  name : string;
  email : string;
  password : string;
  role : RoleEnum;
  orgId : string
}.
End createUserInput.

Module inviteUserInput.
Record t := { email : string; orgId : string; role : RoleEnum }.
End inviteUserInput.

Module removeUserInput.
Record t := { userId : string }.
End removeUserInput.

(** ** Input schemas

    [.input(z.object({ ... }))]: the framework parses the request against
    the schema before the resolver runs.  The shape of the object, the
    fields being texts and [z.enum] are the record types above; what is
    left to check is the refinements on text fields.  A check yields the
    issues it finds; an object yields those of its fields, in the order of
    the schema.  (A text is taken as its sequence of characters, one per
    UTF-16 code unit.) *)

Module zod.

(** [z.string().min(n)] on the field [path]. *)
Definition string_min (n : nat) (path s : string) : Env -> list ZodIssue :=
  fun _ => if Nat.leb n (String.length s) then [] else [too_small path n].

(** [z.string().email()] on the field [path]. *)
Definition string_email (path s : string) : Env -> list ZodIssue :=
  fun env => if zod_email env s then [] else [invalid_email path].

(** An object of several checked fields. *)
Definition object (fields : list (Env -> list ZodIssue)) : Env -> list ZodIssue :=
  fun env => flat_map (fun check => check env) fields.

End zod.

(** [z.object({ name: z.string().min(1) })] *)
Definition createOrg_schema (input : createOrgInput.t) : Env -> list ZodIssue :=
  zod.object [ zod.string_min 1 "name" (createOrgInput.name input) ].

(** [z.object({ name: z.string().min(1), email: z.string().email(),
    password: z.string().min(8), role: z.enum(['admin', 'user']),
    orgId: z.string() })] *)
Definition createUser_schema (input : createUserInput.t) : Env -> list ZodIssue :=
  zod.object [ zod.string_min 1 "name" (createUserInput.name input);
               zod.string_email "email" (createUserInput.email input);
               zod.string_min 8 "password" (createUserInput.password input) ].

(** [z.object({ email: z.string().email(), orgId: z.string(),
    role: z.enum(['admin', 'user']) })] *)
Definition inviteUser_schema (input : inviteUserInput.t) : Env -> list ZodIssue :=
  zod.object [ zod.string_email "email" (inviteUserInput.email input) ].

(** [{ success: true, email: input.email }] *)
Record InviteUserOutput := { invite_success : bool; invite_email : string }.

(** [{ success: true }] *)
Record RemoveUserOutput := { remove_success : bool }.

(** ** The login report query *)

(** One row of the report: a calendar date (as a day number) and the count
    of distinct users. *)
Record LoginsRow := { date : Z; unique_logins : nat }.

(** SQL [DATE(ts)]: the calendar day a timestamp falls on. *)
Definition DATE (ts : Date) : Z := (ts / msPerDay)%Z.

(** [GROUP BY DATE("created_at")]: one group per distinct date, and the
    events of a group. *)
Definition group_keys (events : list login_events.row) : list Z :=
  nodup Z.eq_dec (map (fun e => DATE (login_events.created_at e)) events).

Definition group_of (d : Z) (events : list login_events.row) : list login_events.row :=
  filter (fun e => Z.eqb (DATE (login_events.created_at e)) d) events.

(** [COUNT(DISTINCT col)] over the values of a group. *)
Definition COUNT_DISTINCT (values : list string) : nat :=
  length (nodup string_dec values).

(** The [SELECT] list evaluated on every group. *)
Definition select_per_group (events : list login_events.row) : list LoginsRow :=
  map (fun d =>
         {| date := d;
            unique_logins := COUNT_DISTINCT (map login_events.user_id (group_of d events)) |})
      (group_keys events).

(** [ORDER BY date DESC]: a row comes no later than any row of an earlier
    or equal date. *)
Module DateDesc <: TotalLeBool.
Definition t := LoginsRow.
Definition leb (a b : t) : bool := Z.leb (date b) (date a).
Lemma leb_total : forall a b, leb a b = true \/ leb b a = true.
Proof.
  intros a b. unfold leb.
  destruct (Z.leb_spec (date b) (date a)); [now left | right].
  apply Z.leb_le. lia.
Qed.
End DateDesc.

Module DateDescSort := Sort DateDesc.

Definition ORDER_BY_date_DESC (rs : list LoginsRow) : list LoginsRow :=
  DateDescSort.sort rs.

(** [LIMIT n] *)
Definition LIMIT (n : nat) (rs : list LoginsRow) : list LoginsRow := firstn n rs.

(** The text of the statement. *)
Definition unique_logins_sql : string :=
  "SELECT DATE(" ++ dquote ++ "created_at" ++ dquote ++ ") as date, COUNT(DISTINCT "
  ++ dquote ++ "user_id" ++ dquote ++ ") as unique_logins" ++ newline
  ++ spaces 17 ++ "FROM login_events" ++ newline
  ++ spaces 17 ++ "GROUP BY DATE(" ++ dquote ++ "created_at" ++ dquote ++ ")" ++ newline
  ++ spaces 17 ++ "ORDER BY date DESC" ++ newline
  ++ spaces 17 ++ "LIMIT 30;".

(** What the store answers to that statement. *)
Definition unique_logins_rows (events : list login_events.row) : list LoginsRow :=
  LIMIT 30 (ORDER_BY_date_DESC (select_per_group events)).

(** [(await db.execute(unique_logins_sql)).rows] *)
Definition execute_unique_logins : M (list LoginsRow) :=
  fallible_call "db" (fun _ _ w =>
    (unique_logins_rows (db_login_events (w_db w)), log_event (EXECUTE unique_logins_sql) w)).

(** ** The procedures of [adminRouter]

    Each procedure is [publicProcedure], an optional [.input(schema)] and a
    resolver ([.query(...)] or [.mutation(...)]). *)

(** [publicProcedure.input(schema).mutation(resolver)]: the input is parsed
    first; when the schema finds issues the call is answered [BAD_REQUEST]
    with zod's message and the resolver does not run, otherwise the
    resolver runs on the input. *)
Definition with_input {I A : Type} (schema : I -> Env -> list ZodIssue)
    (resolver : I -> Context -> M A) (input : I) (ctx : Context) : M A :=
  fun env w =>
    match schema input env with
    | [] => resolver input ctx env w
    | issues => (Throw (TRPCError BAD_REQUEST (zod_message env issues)), w)
    end.

(** [getUsers] *)
Definition getUsers (ctx : Context) : M (list (users.row * option orgs.row)) :=
  if not_admin ctx then
    throw (TRPCError UNAUTHORIZED "Only admins can access user management")
  else
    try_catch
      (allUsers <- findMany_users_with_organization ;;
       ret allUsers)
      (fun error =>
         console_error "Error fetching users:" ;;
         throw (TRPCError INTERNAL_SERVER_ERROR "Failed to fetch users")).

(** [getOrgs] *)
Definition getOrgs (ctx : Context) : M (list orgs.row) :=
  if not_admin ctx then
    throw (TRPCError UNAUTHORIZED "Only admins can access organization management")
  else
    try_catch
      (allOrgs <- findMany Orgs ;;
       ret allOrgs)
      (fun error =>
         console_error "Error fetching organizations:" ;;
         throw (TRPCError INTERNAL_SERVER_ERROR "Failed to fetch organizations")).

(** The resolver of [createOrg]. *)
Definition createOrg_mutation (input : createOrgInput.t) (ctx : Context)
  : M (option orgs.row) :=
  if not_admin ctx then
    throw (TRPCError UNAUTHORIZED "Only admins can create organizations")
  else
    try_catch
      (existingOrg <- findFirst Orgs (drizzle.eq orgs.name (createOrgInput.name input)) ;;
       match existingOrg with
       | Some _ =>
           throw (TRPCError CONFLICT "An organization with this name already exists")
       | None =>
           orgId <- nanoid None ;;
           inserted <- insert_values Orgs
                         {| orgs.id := orgId; orgs.name := createOrgInput.name input |} ;;
           ret (first_of inserted)
       end)
      (fun error =>
         if instanceof_TRPCError error then throw error
         else
           console_error "Error creating organization:" ;;
           throw (TRPCError INTERNAL_SERVER_ERROR "Failed to create organization")).

(** [createOrg] *)
Definition createOrg : createOrgInput.t -> Context -> M (option orgs.row) :=
  with_input createOrg_schema createOrg_mutation.

(** The resolver of [createUser]. *)
Definition createUser_mutation (input : createUserInput.t) (ctx : Context)
  : M (option users.row) :=
  if not_admin ctx then
    throw (TRPCError UNAUTHORIZED "Only admins can create users")
  else
    try_catch
      (org <- findFirst Orgs (drizzle.eq orgs.id (createUserInput.orgId input)) ;;
       match org with
       | None => throw (TRPCError NOT_FOUND "Organization not found")
       | Some _ =>
           existingUser <- findFirst Users (drizzle.eq users.email (createUserInput.email input)) ;;
           match existingUser with
           | Some _ => throw (TRPCError CONFLICT "A user with this email already exists")
           | None =>
               userId <- nanoid None ;;
               now <- new_Date ;;
               hashedPassword <- hashPassword (createUserInput.password input) ;;
               inserted <- insert_values Users
                             {| users.id := userId;
                                users.name := createUserInput.name input;
                                users.email := createUserInput.email input;
                                users.emailVerified := true;
                                users.orgId := createUserInput.orgId input;
                                users.role := role_string (createUserInput.role input);
                                users.createdAt := now;
                                users.updatedAt := now |} ;;
               accountRowId <- nanoid None ;;
               insert_values Accounts
                 {| accounts.id := accountRowId;
                    accounts.userId := userId;
                    accounts.providerId := "credential";
                    accounts.accountId := userId;
                    accounts.password := hashedPassword;
                    accounts.createdAt := now;
                    accounts.updatedAt := now |} ;;
               ret (first_of inserted)
           end
       end)
      (fun error =>
         if instanceof_TRPCError error then throw error
         else
           console_error "Error creating user:" ;;
           throw (TRPCError INTERNAL_SERVER_ERROR "Failed to create user")).

(** [createUser] *)
Definition createUser : createUserInput.t -> Context -> M (option users.row) :=
  with_input createUser_schema createUser_mutation.

(** The acceptance link and the body of the invitation email. *)
Definition inviteUrl_of (base : option string) (inviteToken email : string) : string :=
  template_of_optional base ++ "/auth/register?token=" ++ inviteToken ++ "&email=" ++ email.

Definition invite_subject (orgName : string) : string :=
  "Invitation to join " ++ orgName.

Definition invite_html (orgName inviteUrl : string) : string :=
  newline
  ++ spaces 24 ++ "<h1>You've been invited to join " ++ orgName ++ "</h1>" ++ newline
  ++ spaces 24 ++ "<p>Click the link below to create your account:</p>" ++ newline
  ++ spaces 24 ++ "<a href=" ++ dquote ++ inviteUrl ++ dquote ++ ">Accept Invitation</a>" ++ newline
  ++ spaces 24 ++ "<p>This link will expire in 7 days.</p>" ++ newline
  ++ spaces 20.

(** [process.env.NEXT_PUBLIC_APP_URL] *)
Definition process_env_NEXT_PUBLIC_APP_URL : M (option string) :=
  fun env w => (Return (NEXT_PUBLIC_APP_URL env), w).

(** The resolver of [inviteUser]. *)
Definition inviteUser_mutation (input : inviteUserInput.t) (ctx : Context)
  : M InviteUserOutput :=
  if not_admin ctx then
    throw (TRPCError UNAUTHORIZED "Only admins can invite users")
  else
    try_catch
      (org <- findFirst Orgs (drizzle.eq orgs.id (inviteUserInput.orgId input)) ;;
       match org with
       | None => throw (TRPCError NOT_FOUND "Organization not found")
       | Some org =>
           existingUser <- findFirst Users (drizzle.eq users.email (inviteUserInput.email input)) ;;
           match existingUser with
           | Some _ => throw (TRPCError CONFLICT "A user with this email already exists")
           | None =>
               inviteToken <- nanoid (Some 32) ;;
               now <- new_Date ;;
               expiresAt <- new_Date ;;
               dayOfMonth <- getDate expiresAt ;;
               expiresAt <- setDate expiresAt (dayOfMonth + 7) ;;
               rowId <- nanoid None ;;
               insert_values Verifications
                 {| verifications.id := rowId;
                    verifications.identifier := inviteUserInput.email input;
                    verifications.value :=
                      JSON_stringify
                        [("token", inviteToken);
                         ("orgId", inviteUserInput.orgId input);
                         ("role", role_string (inviteUserInput.role input))];
                    verifications.expiresAt := expiresAt;
                    verifications.createdAt := now;
                    verifications.updatedAt := now |} ;;
               base <- process_env_NEXT_PUBLIC_APP_URL ;;
               let inviteUrl := inviteUrl_of base inviteToken (inviteUserInput.email input) in
               sendEmail
                 {| to := inviteUserInput.email input;
                    subject := invite_subject (orgs.name org);
                    html := invite_html (orgs.name org) inviteUrl |} ;;
               ret {| invite_success := true; invite_email := inviteUserInput.email input |}
           end
       end)
      (fun error =>
         console_error "Error inviting user:" ;;
         throw (TRPCError INTERNAL_SERVER_ERROR "Failed to send invitation")).

(** [inviteUser] *)
Definition inviteUser : inviteUserInput.t -> Context -> M InviteUserOutput :=
  with_input inviteUser_schema inviteUser_mutation.

(** [removeUser].  Its schema, [z.object({ userId: z.string() })], puts no
    condition on the text, so every input of the record type passes and
    the procedure is its resolver. *)
Definition removeUser (input : removeUserInput.t) (ctx : Context) : M RemoveUserOutput :=
  if not_admin ctx then
    throw (TRPCError UNAUTHORIZED "Only admins can remove users")
  else
    try_catch
      (user <- findFirst Users (drizzle.eq users.id (removeUserInput.userId input)) ;;
       match user with
       | None => throw (TRPCError NOT_FOUND "User not found")
       | Some user =>
           callerId <- ctx_session_user_id ctx ;;
           if str_eq (users.id user) callerId then
             throw (TRPCError FORBIDDEN "You cannot remove yourself")
           else
             delete_where CommunityMembers
               (drizzle.eq communityMembers.userId (removeUserInput.userId input)) ;;
             delete_where Accounts (drizzle.eq accounts.userId (removeUserInput.userId input)) ;;
             delete_where Users (drizzle.eq users.id (removeUserInput.userId input)) ;;
             ret {| remove_success := true |}
       end)
      (fun error =>
         if instanceof_TRPCError error then throw error
         else
           console_error "Error removing user:" ;;
           throw (TRPCError INTERNAL_SERVER_ERROR "Failed to remove user")).

(** [getUniqueLoginsPerDay] *)
Definition getUniqueLoginsPerDay (ctx : Context) : M (list LoginsRow) :=
  if not_admin ctx then
    throw (TRPCError UNAUTHORIZED "Only admins can access login stats")
  else
    try_catch
      (result_rows <- execute_unique_logins ;;
       ret result_rows)
      (fun error =>
         console_error "Error fetching unique logins per day:" ;;
         throw (TRPCError INTERNAL_SERVER_ERROR "Failed to fetch unique logins per day")).

(** ** The router *)

(** A call to [adminRouter]: the procedure's name with its input. *)
Inductive Procedure :=
  | call_getUsers
  | call_getOrgs
  | call_createOrg (input : createOrgInput.t)
  | call_createUser (input : createUserInput.t)
  | call_inviteUser (input : inviteUserInput.t)
  | call_removeUser (input : removeUserInput.t)
  | call_getUniqueLoginsPerDay.

Inductive Response :=
  | users_response (r : list (users.row * option orgs.row))
  | orgs_response (r : list orgs.row)
  | org_response (r : option orgs.row)
  | user_response (r : option users.row)
  | invite_response (r : InviteUserOutput)
  | remove_response (r : RemoveUserOutput)
  | logins_response (r : list LoginsRow).

Definition fmap {A B} (f : A -> B) (m : M A) : M B := x <- m ;; ret (f x).

(** [adminRouter = router({ getUsers, getOrgs, createOrg, createUser,
    inviteUser, removeUser, getUniqueLoginsPerDay })] *)
Definition adminRouter (p : Procedure) (ctx : Context) : M Response :=
  match p with
  | call_getUsers => fmap users_response (getUsers ctx)
  | call_getOrgs => fmap orgs_response (getOrgs ctx)
  | call_createOrg input => fmap org_response (createOrg input ctx)
  | call_createUser input => fmap user_response (createUser input ctx)
  | call_inviteUser input => fmap invite_response (inviteUser input ctx)
  | call_removeUser input => fmap remove_response (removeUser input ctx)
  | call_getUniqueLoginsPerDay => fmap logins_response (getUniqueLoginsPerDay ctx)
  end.

(** ** Vocabulary of the specification *)

(** The role the caller's session carries, if any. *)
Definition session_role (ctx : Context) : option string :=
  match ctx_session_user ctx with
  | Some u => su_role u
  | None => None
  end.

(** A caller without a session, or whose role is not [admin]. *)
Definition non_admin_session (ctx : Context) : Prop :=
  ctx_session_user ctx = None \/ session_role ctx <> Some "admin".

(** A caller whose session names [caller], an admin. *)
Definition admin_session (ctx : Context) (caller : SessionUser) : Prop :=
  ctx_session_user ctx = Some caller /\ su_role caller = Some "admin".

(** The inputs the specification's signatures admit:
    [CreateOrganization(name: non-empty string)],
    [CreateUser(name: non-empty string, email: valid email,
    password: >= 8 characters, ...)], [InviteUser(email: valid email, ...)];
    a valid email is a text zod's pattern accepts. *)
Definition valid_createOrg_input (input : createOrgInput.t) : Prop :=
  1 <= String.length (createOrgInput.name input).

Definition valid_createUser_input (env : Env) (input : createUserInput.t) : Prop :=
  1 <= String.length (createUserInput.name input)
  /\ zod_email env (createUserInput.email input) = true
  /\ 8 <= String.length (createUserInput.password input).

Definition valid_inviteUser_input (env : Env) (input : inviteUserInput.t) : Prop :=
  zod_email env (inviteUserInput.email input) = true.

(** The input of a call is one its procedure's schema accepts. *)
Definition valid_input (env : Env) (p : Procedure) : Prop :=
  match p with
  | call_createOrg input => valid_createOrg_input input
  | call_createUser input => valid_createUser_input env input
  | call_inviteUser input => valid_inviteUser_input env input
  | call_getUsers | call_getOrgs | call_removeUser _ | call_getUniqueLoginsPerDay => True
  end.

(** No store, hashing or dispatch call fails. *)
Definition healthy (env : Env) : Prop := forall n, env_fails env n = false.

(** [nanoid(n)] has [n] characters. *)
Definition nanoid_sized (env : Env) : Prop :=
  forall t n, String.length (env_nanoid env t n) = n.

Definition org_exists (orgId : string) (db : Db) : Prop :=
  exists o, In o (db_orgs db) /\ orgs.id o = orgId.

Definition org_named (n : string) (db : Db) : Prop :=
  exists o, In o (db_orgs db) /\ orgs.name o = n.

Definition email_taken (e : string) (db : Db) : Prop :=
  exists u, In u (db_users db) /\ users.email u = e.

Definition user_exists (userId : string) (db : Db) : Prop :=
  exists u, In u (db_users db) /\ users.id u = userId.

(** The organizations whose stored name is exactly [n]. *)
Definition orgs_named (n : string) (db : Db) : list orgs.row :=
  filter (fun o => String.eqb (orgs.name o) n) (db_orgs db).

(** The rows of [l] whose [column] is not [v]. *)
Definition without {R : Type} (column : R -> string) (v : string) (l : list R) : list R :=
  filter (fun r => negb (String.eqb (column r) v)) l.

(** The identifiers of the users a [getUsers] answer lists. *)
Definition listed_ids (answer : list (users.row * option orgs.row)) : list string :=
  map (fun p => users.id (fst p)) answer.

(** The pending invitations addressed to [e]. *)
Definition invitations_for (e : string) (db : Db) : list verifications.row :=
  filter (fun v => String.eqb (verifications.identifier v) e) (db_verifications db).

(** The emails dispatched to [e]. *)
Definition emails_to (e : string) (w : World) : list Email :=
  filter (fun m => String.eqb (to m) e) (w_outbox w).

(** The instant [n] calendar days after [d] at the same local time of day,
    in the zone [tza]. *)
Definition days_later_local (tza : Z -> bool -> Z) (n : Z) (d : Date) : Date :=
  UTC tza (LocalTime tza d + n * msPerDay)%Z.

(** The verification row and the email an [inviteUser] call started in
    world [w] is expected to produce: the token is drawn at the third
    collaborator call, the two clock readings follow, then the row's id. *)
Definition invitation_row (env : Env) (w : World) (input : inviteUserInput.t)
  : verifications.row :=
  {| verifications.id := env_nanoid env (5 + w_tick w) 21;
     verifications.identifier := inviteUserInput.email input;
     verifications.value :=
       JSON_stringify
         [("token", env_nanoid env (2 + w_tick w) 32);
          ("orgId", inviteUserInput.orgId input);
          ("role", role_string (inviteUserInput.role input))];
     verifications.expiresAt :=
       days_later_local (LocalTZA env) 7 (env_clock env (4 + w_tick w));
     verifications.createdAt := env_clock env (3 + w_tick w);
     verifications.updatedAt := env_clock env (3 + w_tick w) |}.

Definition invitation_email (env : Env) (w : World) (input : inviteUserInput.t)
    (orgName : string) : Email :=
  {| to := inviteUserInput.email input;
     subject := invite_subject orgName;
     html :=
       invite_html orgName
         (inviteUrl_of (NEXT_PUBLIC_APP_URL env) (env_nanoid env (2 + w_tick w) 32)
            (inviteUserInput.email input)) |}.

(** [n] is the number of distinct user identifiers that have at least one
    login event on day [d]. *)
Definition distinct_users_on (d : Z) (events : list login_events.row) (n : nat) : Prop :=
  exists ids : list string,
    NoDup ids
    /\ (forall u, In u ids <->
                  exists e, In e events
                            /\ login_events.user_id e = u
                            /\ DATE (login_events.created_at e) = d)
    /\ n = List.length ids.

(** Every element is strictly greater than all the elements after it. *)
Definition strictly_descending (l : list Z) : Prop := StronglySorted Z.gt l.

(** ** Fixtures used by the closed examples *)

Module Sample.

(** A pattern for email addresses, after the one zod tests with: a local
    part of letters, digits and [_'+-.] that ends in none of ['.], an [@],
    then labels of letters, digits and hyphens, each starting with a letter
    or a digit and followed by a dot, then two letters or more; the text
    does not start with a dot and has no two dots in a row. *)
Definition is_letter (c : ascii) : bool :=
  let n := nat_of_ascii c in
  (Nat.leb 65 n && Nat.leb n 90) || (Nat.leb 97 n && Nat.leb n 122).

Definition is_digit (c : ascii) : bool :=
  let n := nat_of_ascii c in Nat.leb 48 n && Nat.leb n 57.

Definition is_one_of (chars : string) (c : ascii) : bool :=
  existsb (Ascii.eqb c) (list_ascii_of_string chars).

Definition all_chars (p : ascii -> bool) (s : string) : bool :=
  forallb p (list_ascii_of_string s).

(** The text before and the text after the first [sep]. *)
Fixpoint split_at (sep : ascii) (s : string) : option (string * string) :=
  match s with
  | EmptyString => None
  | String c rest =>
      if Ascii.eqb c sep then Some (EmptyString, rest)
      else match split_at sep rest with
           | Some (before, after) => Some (String c before, after)
           | None => None
           end
  end.

(** The pieces of a text between the occurrences of [sep]. *)
Fixpoint split_all (sep : ascii) (s : string) : list string :=
  match s with
  | EmptyString => [EmptyString]
  | String c rest =>
      if Ascii.eqb c sep then EmptyString :: split_all sep rest
      else match split_all sep rest with
           | piece :: pieces => String c piece :: pieces
           | [] => [String c EmptyString]
           end
  end.

Fixpoint has_two_dots (s : string) : bool :=
  match s with
  | EmptyString => false
  | String a rest =>
      match rest with
      | EmptyString => false
      | String b _ => (Ascii.eqb a "." && Ascii.eqb b ".") || has_two_dots rest
      end
  end.

Definition local_part_ok (l : string) : bool :=
  all_chars (fun c => is_letter c || is_digit c || is_one_of "_'+-." c) l
  && match rev (list_ascii_of_string l) with
     | c :: _ => is_letter c || is_digit c || is_one_of "_+-" c
     | [] => false
     end.

Definition label_ok (l : string) : bool :=
  match l with
  | EmptyString => false
  | String c rest =>
      (is_letter c || is_digit c)
      && all_chars (fun x => is_letter x || is_digit x || Ascii.eqb x "-") rest
  end.

Definition domain_ok (d : string) : bool :=
  match rev (split_all "." d) with
  | last :: label :: labels =>
      Nat.leb 2 (String.length last) && all_chars is_letter last
      && forallb label_ok (label :: labels)
  | _ => false
  end.

Definition email_pattern (s : string) : bool :=
  match split_at "@" s with
  | Some (local, domain) =>
      match s with
      | String c _ => negb (Ascii.eqb c ".")
      | EmptyString => false
      end
      && negb (has_two_dots s) && local_part_ok local && domain_ok domain
  | None => false
  end.

(** The message of a zod error, abridged: the fields at fault. *)
Definition issue_path (i : ZodIssue) : string :=
  match i with
  | too_small path _ => path
  | invalid_email path => path
  end.

Definition message_of (issues : list ZodIssue) : string :=
  "Invalid input: " ++ String.concat ", " (map issue_path issues).

Definition env : Env :=
  {| env_nanoid := fun t n => string_of_list_ascii (repeat "x"%char n);
     env_clock := fun t => (1700000000000 + Z.of_nat t)%Z;
     env_hashPassword := fun _ p => "hash:" ++ p;
     env_fails := fun _ => false;
     LocalTZA := fun _ _ => 3600000%Z;
     NEXT_PUBLIC_APP_URL := Some "https://app.example";
     zod_email := email_pattern;
     zod_message := message_of |}.

Definition root : users.row :=
  {| users.id := "u1"; users.name := "Root"; users.email := "root@x.com";
     users.emailVerified := true; users.orgId := "o1"; users.role := "admin";
     users.createdAt := 0%Z; users.updatedAt := 0%Z |}.

Definition bob : users.row :=
  {| users.id := "u2"; users.name := "Bob"; users.email := "bob@x.com";
     users.emailVerified := true; users.orgId := "o1"; users.role := "user";
     users.createdAt := 0%Z; users.updatedAt := 0%Z |}.

Definition bob_account : accounts.row :=
  {| accounts.id := "a2"; accounts.userId := "u2"; accounts.providerId := "credential";
     accounts.accountId := "u2"; accounts.password := "hash:secret";
     accounts.createdAt := 0%Z; accounts.updatedAt := 0%Z |}.

Definition bob_invitation : verifications.row :=
  {| verifications.id := "v1"; verifications.identifier := "bob@x.com";
     verifications.value := "{}"; verifications.expiresAt := 1%Z;
     verifications.createdAt := 0%Z; verifications.updatedAt := 0%Z |}.

Definition login (user : string) (at_ : Z) : login_events.row :=
  {| login_events.user_id := user; login_events.created_at := at_ |}.

Definition db : Db :=
  {| db_users := [root; bob];
     db_orgs := [ {| orgs.id := "o1"; orgs.name := "Acme" |} ];
     db_accounts := [bob_account];
     db_verifications := [bob_invitation];
     db_communityMembers :=
       [ {| communityMembers.userId := "u2"; communityMembers.communityId := "c1" |};
         {| communityMembers.userId := "u1"; communityMembers.communityId := "c1" |} ];
     db_login_events :=
       [ login "u1" 86400000; login "u2" 86400001; login "u1" 86400002;
         login "u1" 5; login "u2" 864000020 ] |}.

Definition world : World :=
  {| w_db := db; w_trace := []; w_outbox := []; w_console := []; w_tick := 0 |}.

(** The same world, with an invitation to [new@x.com] already pending. *)
Definition pending_invitation : verifications.row :=
  {| verifications.id := "v0"; verifications.identifier := "new@x.com";
     verifications.value := "{}"; verifications.expiresAt := 1%Z;
     verifications.createdAt := 0%Z; verifications.updatedAt := 0%Z |}.

Definition world_with_pending : World :=
  {| w_db := set_rows Verifications [bob_invitation; pending_invitation] db;
     w_trace := []; w_outbox := []; w_console := []; w_tick := 0 |}.

(** An environment whose collaborator call number [n] fails. *)
Definition env_failing_at (n : nat) : Env :=
  {| env_nanoid := env_nanoid env;
     env_clock := env_clock env;
     env_hashPassword := env_hashPassword env;
     env_fails := fun t => Nat.eqb t n;
     LocalTZA := LocalTZA env;
     NEXT_PUBLIC_APP_URL := NEXT_PUBLIC_APP_URL env;
     zod_email := zod_email env;
     zod_message := zod_message env |}.

(** New York around the change to daylight saving time of 10 March 2024:
    five hours behind UTC until 07:00 UTC of that day (02:00 local), four
    hours behind from then on (03:00 local); a local time in the hour that
    is skipped is read with the earlier offset. *)
Definition new_york_march_2024 (t : Z) (isUTC : bool) : Z :=
  (if isUTC
   then if t <? 1710054000000 then -18000000 else -14400000
   else if t <? 1710039600000 then -18000000 else -14400000)%Z.

(** A server in New York whose clock reads 8 March 2024, 12:00:01 UTC,
    during the whole call. *)
Definition env_new_york : Env :=
  {| env_nanoid := env_nanoid env;
     env_clock := fun _ => 1709899201000%Z;
     env_hashPassword := env_hashPassword env;
     env_fails := env_fails env;
     LocalTZA := new_york_march_2024;
     NEXT_PUBLIC_APP_URL := NEXT_PUBLIC_APP_URL env;
     zod_email := zod_email env;
     zod_message := zod_message env |}.

Definition admin : SessionUser := {| su_id := "u1"; su_role := Some "admin" |}.

Definition admin_ctx : Context :=
  {| ctx_session := Some {| session_user := Some admin |} |}.

Definition member_ctx : Context :=
  {| ctx_session := Some {| session_user := Some {| su_id := "u2"; su_role := Some "user" |} |} |}.

Definition anonymous_ctx : Context := {| ctx_session := None |}.

Definition new_user (email orgId : string) : createUserInput.t :=
  {| createUserInput.name := "A"; createUserInput.email := email;
     createUserInput.password := "password123";
     createUserInput.role := role_user; createUserInput.orgId := orgId |}.

Definition invitation (email orgId : string) : inviteUserInput.t :=
  {| inviteUserInput.email := email; inviteUserInput.orgId := orgId;
     inviteUserInput.role := role_user |}.

Definition new_org (name : string) : createOrgInput.t :=
  {| createOrgInput.name := name |}.

Definition removal (userId : string) : removeUserInput.t :=
  {| removeUserInput.userId := userId |}.

End Sample.

(** ** Further vocabulary: what a call may do to the store *)

(** The store with one row appended to a table, or with the rows of one
    user taken out of a table. *)
Definition add_org (o : orgs.row) (db : Db) : Db :=
  set_rows Orgs (db_orgs db ++ [o])%list db.

Definition add_user (u : users.row) (db : Db) : Db :=
  set_rows Users (db_users db ++ [u])%list db.

Definition add_account (a : accounts.row) (db : Db) : Db :=
  set_rows Accounts (db_accounts db ++ [a])%list db.

Definition add_verification (v : verifications.row) (db : Db) : Db :=
  set_rows Verifications (db_verifications db ++ [v])%list db.

Definition drop_members (uid : string) (db : Db) : Db :=
  set_rows CommunityMembers
    (without communityMembers.userId uid (db_communityMembers db)) db.

Definition drop_accounts (uid : string) (db : Db) : Db :=
  set_rows Accounts (without accounts.userId uid (db_accounts db)) db.

Definition drop_user (uid : string) (db : Db) : Db :=
  set_rows Users (without users.id uid (db_users db)) db.

(** Every way one call to the router can leave the store, whatever the
    caller and whatever the collaborators do: untouched; one organization
    of a new name added; one user added for an existing organization and a
    free email, with or without its account; one verification added; the
    memberships of a user dropped, then also the accounts, then also the
    user. *)
Inductive DbEffect (db : Db) : Db -> Prop :=
  | effect_none : DbEffect db db
  | effect_add_org o :
      ~ org_named (orgs.name o) db -> DbEffect db (add_org o db)
  | effect_add_user u :
      org_exists (users.orgId u) db -> ~ email_taken (users.email u) db ->
      DbEffect db (add_user u db)
  | effect_add_user_account u a :
      org_exists (users.orgId u) db -> ~ email_taken (users.email u) db ->
      accounts.userId a = users.id u ->
      DbEffect db (add_account a (add_user u db))
  | effect_add_verification v : DbEffect db (add_verification v db)
  | effect_drop_members uid : DbEffect db (drop_members uid db)
  | effect_drop_members_accounts uid :
      DbEffect db (drop_accounts uid (drop_members uid db))
  | effect_drop_user uid :
      DbEffect db (drop_user uid (drop_accounts uid (drop_members uid db))).

(** Consistency conditions on the store. *)
Definition users_have_orgs (db : Db) : Prop :=
  forall u, In u (db_users db) -> org_exists (users.orgId u) db.

Definition no_orphans (db : Db) : Prop :=
  (forall a, In a (db_accounts db) -> user_exists (accounts.userId a) db)
  /\ (forall m, In m (db_communityMembers db) ->
                user_exists (communityMembers.userId m) db).

(** The error codes a call to a procedure can fail with: those its
    resolver throws and, where its schema refines a field, the framework's
    [BAD_REQUEST]. *)
Definition failure_codes (p : Procedure) : list Code :=
  match p with
  | call_getUsers | call_getOrgs | call_getUniqueLoginsPerDay =>
      [UNAUTHORIZED; INTERNAL_SERVER_ERROR]
  | call_createOrg _ => [BAD_REQUEST; UNAUTHORIZED; CONFLICT; INTERNAL_SERVER_ERROR]
  | call_createUser _ =>
      [BAD_REQUEST; UNAUTHORIZED; NOT_FOUND; CONFLICT; INTERNAL_SERVER_ERROR]
  | call_inviteUser _ => [BAD_REQUEST; UNAUTHORIZED; INTERNAL_SERVER_ERROR]
  | call_removeUser _ => [UNAUTHORIZED; NOT_FOUND; FORBIDDEN; INTERNAL_SERVER_ERROR]
  end.

(** The message of a procedure's [INTERNAL_SERVER_ERROR]. *)
Definition internal_message (p : Procedure) : string :=
  match p with
  | call_getUsers => "Failed to fetch users"
  | call_getOrgs => "Failed to fetch organizations"
  | call_createOrg _ => "Failed to create organization"
  | call_createUser _ => "Failed to create user"
  | call_inviteUser _ => "Failed to send invitation"
  | call_removeUser _ => "Failed to remove user"
  | call_getUniqueLoginsPerDay => "Failed to fetch unique logins per day"
  end.

(** The tables a procedure's source writes to. *)
Definition writes (p : Procedure) : list Table :=
  match p with
  | call_getUsers | call_getOrgs | call_getUniqueLoginsPerDay => []
  | call_createOrg _ => [Orgs]
  | call_createUser _ => [Users; Accounts]
  | call_inviteUser _ => [Verifications]
  | call_removeUser _ => [CommunityMembers; Accounts; Users]
  end.

(** [l'] is [l] with rows appended. *)
Definition grows {A} (l l' : list A) : Prop := exists added, l' = (l ++ added)%list.

(** The next [n] collaborator calls succeed. *)
Definition calls_succeed (env : Env) (w : World) (n : nat) : Prop :=
  forall k, k < n -> env_fails env (k + w_tick w) = false.

(** The users of the store whose email is [e]. *)
Definition users_with_email (e : string) (db : Db) : list users.row :=
  filter (fun u => String.eqb (users.email u) e) (db_users db).

(** ** The dashboard page: [src/app/admin/page.tsx]

    The page is a React component; what is embedded is its logic: which
    view a session gets, when its queries are enabled, the handlers of the
    user-removal flow as transitions of the component's state, and the
    data handed to the login chart. *)

Module page.

(** [useSession().data]: [undefined] while the session loads, [null] when
    nobody is signed in. *)
Inductive SessionData :=
  | session_undefined
  | session_null
  | session_data (user : SessionUser).

(** [session?.user.id] *)
Definition session_user_id (session : SessionData) : option string :=
  match session with
  | session_data u => Some (su_id u)
  | _ => None
  end.

(** [role === 'admin'] *)
Definition role_is_admin (r : option string) : bool :=
  match r with
  | Some s => str_eq s "admin"
  | None => false
  end.

(** The [enabled] flag of the three queries:
    [!!session && session.user.role === 'admin']. *)
Definition queries_enabled (session : SessionData) : bool :=
  match session with
  | session_data u => role_is_admin (su_role u)
  | _ => false
  end.

(** What the component returns. *)
Inductive View :=
  | view_loading
  | view_authentication_required
  | view_access_denied
  | view_dashboard.

(** The chain of early returns that opens the render:
    [!isClient], [session === undefined], [!session],
    [session.user.role !== 'admin']. *)
Definition render (isClient : bool) (session : SessionData) : View :=
  if negb isClient then view_loading
  else match session with
       | session_undefined => view_loading
       | session_null => view_authentication_required
       | session_data u =>
           if role_is_not_admin (su_role u) then view_access_denied
           else view_dashboard
       end.

(** The truth value of a string in a condition: only the empty string is
    false. *)
Definition truthy (s : string) : bool :=
  match s with
  | EmptyString => false
  | String _ _ => true
  end.

(** The state the removal flow uses, with the two effects it can have: the
    error toasts shown and the [removeUserMutation.mutate] calls made
    (oldest first). *)
Record State := {
  userToRemove : option string;
  isRemoveUserDialogOpen : bool;
  toasts : list string;
  removeUser_mutations : list removeUserInput.t
}.

(** [useState<string | null>(null)], [useState(false)]. *)
Definition initial : State :=
  {| userToRemove := None; isRemoveUserDialogOpen := false;
     toasts := []; removeUser_mutations := [] |}.

(** [handleRemoveUser(userId)] *)
Definition handleRemoveUser (session : SessionData) (userId : string) (s : State) : State :=
  if match session_user_id session with
     | Some id => str_eq userId id
     | None => false
     end
  then
    {| userToRemove := userToRemove s;
       isRemoveUserDialogOpen := isRemoveUserDialogOpen s;
       toasts := (toasts s ++ ["You cannot remove yourself from the platform"])%list;
       removeUser_mutations := removeUser_mutations s |}
  else
    {| userToRemove := Some userId;
       isRemoveUserDialogOpen := true;
       toasts := toasts s;
       removeUser_mutations := removeUser_mutations s |}.

(** [confirmRemoveUser()] *)
Definition confirmRemoveUser (s : State) : State :=
  match userToRemove s with
  | Some userId =>
      if truthy userId then
        {| userToRemove := None;
           isRemoveUserDialogOpen := false;
           toasts := toasts s;
           removeUser_mutations :=
             (removeUser_mutations s ++ [ {| removeUserInput.userId := userId |} ])%list |}
      else s
  | None => s
  end.

(** [setIsRemoveUserDialogOpen(open)], the dialog's [onOpenChange]. *)
Definition setIsRemoveUserDialogOpen (open : bool) (s : State) : State :=
  {| userToRemove := userToRemove s;
     isRemoveUserDialogOpen := open;
     toasts := toasts s;
     removeUser_mutations := removeUser_mutations s |}.

(** What the admin can do in the removal flow: press a row's remove
    button, press the dialog's confirm button, open or close the dialog. *)
Inductive Action :=
  | click_remove (userId : string)
  | click_confirm
  | dialog_onOpenChange (open : bool).

Definition dispatch (session : SessionData) (s : State) (a : Action) : State :=
  match a with
  | click_remove userId => handleRemoveUser session userId s
  | click_confirm => confirmRemoveUser s
  | dialog_onOpenChange open => setIsRemoveUserDialogOpen open s
  end.

(** The state after a sequence of actions, from the first render. *)
Definition after (session : SessionData) (actions : list Action) : State :=
  fold_left (dispatch session) actions initial.

(** [[...uniqueLogins].reverse()], the data of the bar chart. *)
Definition chart_data (uniqueLogins : list LoginsRow) : list LoginsRow := rev uniqueLogins.

(** What the login-statistics card shows. *)
Inductive LoginsPanel :=
  | panel_loading
  | panel_chart (bars : list LoginsRow) (table : list LoginsRow)
  | panel_no_data.

(** The card's content: [isLoadingLogins ? ... : uniqueLogins &&
    uniqueLogins.length > 0 ? ... : ...]. *)
Definition logins_panel (isLoadingLogins : bool) (uniqueLogins : option (list LoginsRow))
  : LoginsPanel :=
  if isLoadingLogins then panel_loading
  else match uniqueLogins with
       | Some rows =>
           if Nat.ltb 0 (List.length rows) then panel_chart (chart_data rows) rows
           else panel_no_data
       | None => panel_no_data
       end.

End page.

(** ** Further fixtures *)

Module Demo.

(** The sample world with its login events stored in the opposite order. *)
Definition world_reordered : World :=
  {| w_db :=
       {| db_users := db_users Sample.db;
          db_orgs := db_orgs Sample.db;
          db_accounts := db_accounts Sample.db;
          db_verifications := db_verifications Sample.db;
          db_communityMembers := db_communityMembers Sample.db;
          db_login_events := rev (db_login_events Sample.db) |};
     w_trace := []; w_outbox := []; w_console := []; w_tick := 0 |}.

(** A [createUser] input whose password has seven characters. *)
Definition short_password_user : createUserInput.t :=
  {| createUserInput.name := "A"; createUserInput.email := "a@x.com";
     createUserInput.password := "short12";
     createUserInput.role := role_user; createUserInput.orgId := "o1" |}.

(** The admin of the sample world, as the page sees the session. *)
Definition admin_session_data : page.SessionData := page.session_data Sample.admin.

(** The admin presses remove on their own row, then on Bob's, closes the
    dialog, opens it on Bob again and confirms. *)
Definition clicks : list page.Action :=
  [ page.click_remove "u1"; page.click_remove "u2"; page.dialog_onOpenChange false;
    page.click_remove "u2"; page.click_confirm ].

End Demo.

(** * Theorems *)

(** ** The guard *)

Lemma not_admin_of_non_admin_session ctx :
  non_admin_session ctx -> not_admin ctx = true.
Proof.
  unfold non_admin_session, session_role, not_admin.
  intros [H | H].
  - now rewrite H.
  - destruct (ctx_session_user ctx) as [u|]; [|reflexivity].
    unfold role_is_not_admin.
    destruct (su_role u) as [r|]; [|reflexivity].
    unfold str_eq. destruct (String.eqb_spec r "admin") as [->|]; [|reflexivity].
    now elim H.
Qed.

Lemma non_admin_session_of_not_admin ctx :
  not_admin ctx = true -> non_admin_session ctx.
Proof.
  unfold non_admin_session, session_role, not_admin.
  destruct (ctx_session_user ctx) as [u|]; [|now left].
  unfold role_is_not_admin.
  destruct (su_role u) as [r|]; [|intros _; right; discriminate].
  unfold str_eq. destruct (String.eqb_spec r "admin") as [->|Hne]; [discriminate|].
  intros _. right. intros E. apply Hne. now injection E.
Qed.

Lemma admin_session_passes_guard ctx caller :
  admin_session ctx caller -> not_admin ctx = false.
Proof.
  unfold admin_session, not_admin. intros [-> Hrole].
  now rewrite Hrole.
Qed.

(** ** The input schemas *)

Lemma createOrg_schema_accepts env input :
  createOrg_schema input env = [] <-> valid_createOrg_input input.
Proof.
  unfold createOrg_schema, valid_createOrg_input, zod.object, zod.string_min.
  cbn [flat_map app].
  destruct (Nat.leb_spec 1 (String.length (createOrgInput.name input))); cbn.
  - tauto.
  - split; [discriminate | lia].
Qed.

Lemma createUser_schema_accepts env input :
  createUser_schema input env = [] <-> valid_createUser_input env input.
Proof.
  unfold createUser_schema, valid_createUser_input, zod.object, zod.string_min,
    zod.string_email.
  cbn [flat_map app].
  destruct (Nat.leb_spec 1 (String.length (createUserInput.name input)));
    destruct (zod_email env (createUserInput.email input));
    destruct (Nat.leb_spec 8 (String.length (createUserInput.password input)));
    cbn; split; try discriminate; try tauto; intros (? & ? & ?); first [lia | discriminate].
Qed.

Lemma inviteUser_schema_accepts env input :
  inviteUser_schema input env = [] <-> valid_inviteUser_input env input.
Proof.
  unfold inviteUser_schema, valid_inviteUser_input, zod.object, zod.string_email.
  cbn [flat_map app].
  destruct (zod_email env (inviteUserInput.email input)); cbn; split;
    first [reflexivity | discriminate].
Qed.

Section Parsing.
Context {I A : Type} (schema : I -> Env -> list ZodIssue) (resolver : I -> Context -> M A).

Lemma with_input_accepted input ctx env w :
  schema input env = [] ->
  with_input schema resolver input ctx env w = resolver input ctx env w.
Proof. intros E. unfold with_input. now rewrite E. Qed.

Lemma with_input_rejected input ctx env w :
  schema input env <> [] ->
  with_input schema resolver input ctx env w
  = (Throw (TRPCError BAD_REQUEST (zod_message env (schema input env))), w).
Proof.
  intros E. unfold with_input. destruct (schema input env); [now elim E | reflexivity].
Qed.

End Parsing.

(** On an input its schema accepts, a procedure is its resolver. *)
Lemma createOrg_on_valid input ctx env w :
  valid_createOrg_input input ->
  createOrg input ctx env w = createOrg_mutation input ctx env w.
Proof.
  intros H. apply with_input_accepted. now apply createOrg_schema_accepts.
Qed.

Lemma createUser_on_valid input ctx env w :
  valid_createUser_input env input ->
  createUser input ctx env w = createUser_mutation input ctx env w.
Proof.
  intros H. apply with_input_accepted. now apply createUser_schema_accepts.
Qed.

Lemma inviteUser_on_valid input ctx env w :
  valid_inviteUser_input env input ->
  inviteUser input ctx env w = inviteUser_mutation input ctx env w.
Proof.
  intros H. apply with_input_accepted. now apply inviteUser_schema_accepts.
Qed.

(** The inputs of the fixtures pass their schemas. *)
Lemma Sample_new_user_valid email orgId :
  zod_email Sample.env email = true ->
  valid_createUser_input Sample.env (Sample.new_user email orgId).
Proof. intros H. split; [cbn; lia | split; [exact H | cbn; lia]]. Qed.

(** C1 — a caller without a session, or with a session whose role is not
    [admin], calling any procedure of the router.  When the input passes
    the procedure's schema (as every input of the four procedures whose
    schema refines no field does) the call is answered [UNAUTHORIZED];
    when it does not, the call is answered [BAD_REQUEST], the schema being
    checked before the resolver and its guard run.  Either way the world
    is left exactly as it was: the store is unchanged, no statement was
    sent to it and no collaborator was called. *)
Theorem non_admin_rejected_once_input_parsed :
  forall (p : Procedure) (ctx : Context) (env : Env) (w : World),
    non_admin_session ctx ->
    (valid_input env p ->
     exists message,
       adminRouter p ctx env w = (Throw (TRPCError UNAUTHORIZED message), w))
    /\
    (~ valid_input env p ->
     exists message,
       adminRouter p ctx env w = (Throw (TRPCError BAD_REQUEST message), w)).
Proof.
  intros p ctx env w H.
  apply not_admin_of_non_admin_session in H.
  split.
  - intros Hv.
    destruct p; unfold adminRouter, fmap, bind; cbn [valid_input] in Hv;
      [ unfold getUsers | unfold getOrgs
      | rewrite createOrg_on_valid by exact Hv; unfold createOrg_mutation
      | rewrite createUser_on_valid by exact Hv; unfold createUser_mutation
      | rewrite inviteUser_on_valid by exact Hv; unfold inviteUser_mutation
      | unfold removeUser | unfold getUniqueLoginsPerDay ].
    all: rewrite H; unfold throw; eexists; reflexivity.
  - intros Hv.
    destruct p; cbn [valid_input] in Hv; try (now elim Hv);
      unfold adminRouter, fmap, bind.
    + unfold createOrg. rewrite with_input_rejected; [eexists; reflexivity|].
      now rewrite createOrg_schema_accepts.
    + unfold createUser. rewrite with_input_rejected; [eexists; reflexivity|].
      now rewrite createUser_schema_accepts.
    + unfold inviteUser. rewrite with_input_rejected; [eexists; reflexivity|].
      now rewrite inviteUser_schema_accepts.
Qed.

Lemma non_admin_rejected_once_input_parsed_witness :
  (non_admin_session Sample.member_ctx
   /\ valid_input Sample.env (call_createOrg (Sample.new_org "Initech"))
   /\ ~ valid_input Sample.env (call_inviteUser (Sample.invitation "not-an-email" "o1")))
  /\ (exists message,
        adminRouter (call_createOrg (Sample.new_org "Initech"))
          Sample.member_ctx Sample.env Sample.world
        = (Throw (TRPCError UNAUTHORIZED message), Sample.world))
  /\ (exists message,
        adminRouter (call_inviteUser (Sample.invitation "not-an-email" "o1"))
          Sample.member_ctx Sample.env Sample.world
        = (Throw (TRPCError BAD_REQUEST message), Sample.world)).
Proof.
  assert (H : non_admin_session Sample.member_ctx) by (right; discriminate).
  assert (Hv : valid_input Sample.env (call_createOrg (Sample.new_org "Initech")))
    by (cbv; lia).
  assert (Hn : ~ valid_input Sample.env
                   (call_inviteUser (Sample.invitation "not-an-email" "o1")))
    by (cbv; discriminate).
  split; [repeat split; assumption|]. split.
  - exact (proj1 (non_admin_rejected_once_input_parsed _ _ Sample.env Sample.world H) Hv).
  - exact (proj2 (non_admin_rejected_once_input_parsed _ _ Sample.env Sample.world H) Hn).
Defined.

(** The claim as the specification words it — [UNAUTHORIZED] for every
    call of a non-admin, the guard before any other validation — fails on
    an anonymous [createOrg] with an empty name: the schema rejects the
    input first. *)
Lemma anonymous_createOrg_with_empty_name_is_bad_request :
  non_admin_session Sample.anonymous_ctx
  /\ adminRouter (call_createOrg (Sample.new_org EmptyString)) Sample.anonymous_ctx
       Sample.env Sample.world
     = (Throw (TRPCError BAD_REQUEST "Invalid input: name"), Sample.world)
  /\ forall message,
       adminRouter (call_createOrg (Sample.new_org EmptyString)) Sample.anonymous_ctx
         Sample.env Sample.world
       <> (Throw (TRPCError UNAUTHORIZED message), Sample.world).
Proof.
  split; [now left|]. split; [reflexivity|].
  intros message H. discriminate H.
Qed.

(** ** Running a procedure symbolically *)

Ltac expose :=
  unfold ctx_session_user_id, fmap, findFirst, findMany, insert_values, delete_where,
    nanoid, new_Date, getDate, setDate, hashPassword, sendEmail, console_error,
    process_env_NEXT_PUBLIC_APP_URL, findMany_users_with_organization,
    execute_unique_logins;
  unfold pure_call, fallible_call;
  unfold try_catch, bind, ret, throw.

Ltac crunch :=
  cbn [w_tick w_db w_trace w_outbox w_console tick log_event with_db post print
       rows set_rows row
       db_users db_orgs db_accounts db_verifications db_communityMembers db_login_events
       instanceof_TRPCError first_of hd_error].

(** [run Hh]: execute as far as possible, every collaborator call
    succeeding by [Hh : healthy env]. *)
Ltac run Hh := expose; repeat (progress (crunch; rewrite ?Hh)).

(** ** Lookups by column *)

Section Lookup.
Context {R : Type} (column : R -> string).

Lemma find_eq_None (v : string) (l : list R) :
  (forall r, In r l -> column r <> v) ->
  find (drizzle.eq column v) l = None.
Proof.
  induction l as [|r l IH]; intros H; [reflexivity|].
  cbn. unfold drizzle.eq at 1, str_eq.
  destruct (String.eqb_spec (column r) v) as [E|_].
  - exfalso. apply (H r); [now left | exact E].
  - apply IH. intros r' Hr'. apply H. now right.
Qed.

Lemma find_eq_Some (v : string) (l : list R) :
  (exists r, In r l /\ column r = v) ->
  exists r, find (drizzle.eq column v) l = Some r /\ In r l /\ column r = v.
Proof.
  intros (r0 & Hin & Hcol).
  destruct (find (drizzle.eq column v) l) as [r|] eqn:E.
  - exists r. split; [reflexivity|].
    apply find_some in E. destruct E as [Hr Hv].
    split; [exact Hr|]. now apply String.eqb_eq.
  - exfalso. apply (find_none _ _ E) in Hin.
    unfold drizzle.eq, str_eq in Hin. rewrite Hcol, String.eqb_refl in Hin.
    discriminate.
Qed.

Lemma find_eq_None_inv (v : string) (l : list R) :
  find (drizzle.eq column v) l = None ->
  forall r, In r l -> column r <> v.
Proof.
  intros E r Hin Hcol. apply (find_none _ _ E) in Hin.
  unfold drizzle.eq, str_eq in Hin. rewrite Hcol, String.eqb_refl in Hin.
  discriminate.
Qed.

End Lookup.

Lemma no_org_lookup orgId db :
  ~ org_exists orgId db -> find (drizzle.eq orgs.id orgId) (db_orgs db) = None.
Proof.
  intros H. apply find_eq_None. intros o Hin E. apply H. now exists o.
Qed.

Lemma free_email_lookup e db :
  ~ email_taken e db -> find (drizzle.eq users.email e) (db_users db) = None.
Proof.
  intros H. apply find_eq_None. intros u Hin E. apply H. now exists u.
Qed.

(** ** inviteUser's error reporting *)

(** Whatever is thrown inside [inviteUser]'s [try] block comes out as
    [INTERNAL_SERVER_ERROR]: its [catch] has no
    [if (error instanceof TRPCError) throw error].  So an admin's call
    whose input passed the schema fails with that code only. *)
Lemma inviteUser_admin_throws_only_internal env w input ctx caller e w' :
  admin_session ctx caller ->
  valid_inviteUser_input env input ->
  inviteUser input ctx env w = (Throw e, w') ->
  e = TRPCError INTERNAL_SERVER_ERROR "Failed to send invitation".
Proof.
  intros Ha Hv. rewrite inviteUser_on_valid by exact Hv.
  unfold inviteUser_mutation. rewrite (admin_session_passes_guard _ _ Ha).
  unfold try_catch.
  match goal with |- context [match ?b env w with _ => _ end] => destruct (b env w) as [[a|e0] w1] end.
  - discriminate.
  - unfold bind, console_error, throw. intros E. now inversion E.
Qed.

(** C2 — [inviteUser] called by an admin with an [orgId] that references
    no organization, and called with the email of an existing user (both
    inputs pass the schema): the specification asks for [NOT_FOUND] and
    [CONFLICT]; the code reports both as [INTERNAL_SERVER_ERROR], although
    no collaborator failed. *)
Theorem inviteUser_validation_failures_reported_as_internal :
  fst (inviteUser (Sample.invitation "new@x.com" "missing")
         Sample.admin_ctx Sample.env Sample.world)
  = Throw (TRPCError INTERNAL_SERVER_ERROR "Failed to send invitation")
  /\
  fst (inviteUser (Sample.invitation "bob@x.com" "o1")
         Sample.admin_ctx Sample.env Sample.world)
  = Throw (TRPCError INTERNAL_SERVER_ERROR "Failed to send invitation").
Proof. split; vm_compute; reflexivity. Qed.

(** ** createUser *)

(** C5 — [createUser] called by an admin with an input of the
    specification's signature (non-empty name, valid email, password of 8
    characters or more), no collaborator failing: when
    [orgId] references no organization the call fails with [NOT_FOUND];
    when the organization exists and a user already has exactly this email
    it fails with [CONFLICT]; in both cases the store is unchanged and no
    [INSERT] was sent — only the lookups. *)
Theorem createUser_rejections_leave_store_unchanged :
  forall env w input ctx caller,
    healthy env ->
    admin_session ctx caller ->
    valid_createUser_input env input ->
    (~ org_exists (createUserInput.orgId input) (w_db w) ->
     exists w',
       createUser input ctx env w
       = (Throw (TRPCError NOT_FOUND "Organization not found"), w')
       /\ w_db w' = w_db w
       /\ w_trace w' = (w_trace w ++ [SELECT Orgs])%list)
    /\
    (org_exists (createUserInput.orgId input) (w_db w) ->
     email_taken (createUserInput.email input) (w_db w) ->
     exists w',
       createUser input ctx env w
       = (Throw (TRPCError CONFLICT "A user with this email already exists"), w')
       /\ w_db w' = w_db w
       /\ w_trace w' = (w_trace w ++ [SELECT Orgs; SELECT Users])%list).
Proof.
  intros env w input ctx caller Hh Ha Hv. rewrite createUser_on_valid by exact Hv. split.
  - intros Hno. unfold createUser_mutation. rewrite (admin_session_passes_guard _ _ Ha).
    run Hh. rewrite (no_org_lookup _ _ Hno). crunch.
    eexists. split; [reflexivity|]. split; reflexivity.
  - intros Horg Hmail.
    destruct (find_eq_Some orgs.id _ _ Horg) as (o & Ho & _).
    destruct (find_eq_Some users.email _ _ Hmail) as (u & Hu & _).
    unfold createUser_mutation. rewrite (admin_session_passes_guard _ _ Ha).
    run Hh. rewrite Ho. run Hh. rewrite Hu. crunch.
    eexists. split; [reflexivity|]. split; [reflexivity|].
    crunch. now rewrite <- app_assoc.
Qed.

Lemma createUser_rejections_leave_store_unchanged_witness :
  (healthy Sample.env /\ admin_session Sample.admin_ctx Sample.admin
   /\ valid_createUser_input Sample.env (Sample.new_user "a@x.com" "missing")
   /\ valid_createUser_input Sample.env (Sample.new_user "bob@x.com" "o1")
   /\ ~ org_exists "missing" (w_db Sample.world)
   /\ org_exists "o1" (w_db Sample.world)
   /\ email_taken "bob@x.com" (w_db Sample.world))
  /\
  (exists w',
     createUser (Sample.new_user "a@x.com" "missing")
       Sample.admin_ctx Sample.env Sample.world
     = (Throw (TRPCError NOT_FOUND "Organization not found"), w')
     /\ w_db w' = w_db Sample.world
     /\ w_trace w' = (w_trace Sample.world ++ [SELECT Orgs])%list)
  /\
  (exists w',
     createUser (Sample.new_user "bob@x.com" "o1")
       Sample.admin_ctx Sample.env Sample.world
     = (Throw (TRPCError CONFLICT "A user with this email already exists"), w')
     /\ w_db w' = w_db Sample.world
     /\ w_trace w' = (w_trace Sample.world ++ [SELECT Orgs; SELECT Users])%list).
Proof.
  assert (Hh : healthy Sample.env) by (intro n; reflexivity).
  assert (Ha : admin_session Sample.admin_ctx Sample.admin) by (split; reflexivity).
  assert (Hno : ~ org_exists "missing" (w_db Sample.world)).
  { intros (o & [<-|[]] & E). discriminate E. }
  assert (Horg : org_exists "o1" (w_db Sample.world)).
  { eexists. split; [left; reflexivity | reflexivity]. }
  assert (Hmail : email_taken "bob@x.com" (w_db Sample.world)).
  { exists Sample.bob. split; [right; left; reflexivity | reflexivity]. }
  assert (Hv1 : valid_createUser_input Sample.env (Sample.new_user "a@x.com" "missing"))
    by (apply Sample_new_user_valid; reflexivity).
  assert (Hv2 : valid_createUser_input Sample.env (Sample.new_user "bob@x.com" "o1"))
    by (apply Sample_new_user_valid; reflexivity).
  split; [repeat (split; [assumption|]); assumption|]. split.
  - exact (proj1 (createUser_rejections_leave_store_unchanged Sample.env Sample.world
                    (Sample.new_user "a@x.com" "missing") Sample.admin_ctx Sample.admin
                    Hh Ha Hv1) Hno).
  - exact (proj2 (createUser_rejections_leave_store_unchanged Sample.env Sample.world
                    (Sample.new_user "bob@x.com" "o1") Sample.admin_ctx Sample.admin
                    Hh Ha Hv2) Horg Hmail).
Defined.

(** A collaborator failure inside [createUser] comes out as
    [INTERNAL_SERVER_ERROR]: when the user insert fails (call 5) the store
    is unchanged; when the account insert fails (call 7) the user row stays
    behind, as nothing rolls the first insert back. *)
Example createUser_store_failures :
  (let (r, w') := createUser (Sample.new_user "a@x.com" "o1") Sample.admin_ctx
                    (Sample.env_failing_at 5) Sample.world in
   r = Throw (TRPCError INTERNAL_SERVER_ERROR "Failed to create user")
   /\ w_db w' = w_db Sample.world)
  /\
  (let (r, w') := createUser (Sample.new_user "a@x.com" "o1") Sample.admin_ctx
                    (Sample.env_failing_at 7) Sample.world in
   r = Throw (TRPCError INTERNAL_SERVER_ERROR "Failed to create user")
   /\ List.length (db_users (w_db w')) = 3
   /\ db_accounts (w_db w') = db_accounts (w_db Sample.world)).
Proof. split; vm_compute; repeat split; reflexivity. Qed.

(** C4 — [createUser] called by an admin with an input of the
    specification's signature (non-empty name, valid email, password of 8
    characters or more), the id of an existing
    organization and an email no user has, no collaborator failing: it
    returns the user row it inserted — a fresh id, the given name, email,
    role and organization, [emailVerified = true], both timestamps the
    clock reading of this call — and inserts exactly one account row for
    that user, with provider ["credential"], [accountId] the new user's id
    and the hashed password.  The user row is inserted before the account
    row, and nothing else in the store changes. *)
Theorem createUser_inserts_user_then_credential :
  forall env w input ctx caller,
    healthy env ->
    admin_session ctx caller ->
    valid_createUser_input env input ->
    org_exists (createUserInput.orgId input) (w_db w) ->
    ~ email_taken (createUserInput.email input) (w_db w) ->
    exists (u : users.row) (a : accounts.row) (w' : World),
      createUser input ctx env w = (Return (Some u), w')
      /\ users.id u = env_nanoid env (2 + w_tick w) 21
      /\ users.name u = createUserInput.name input
      /\ users.email u = createUserInput.email input
      /\ users.emailVerified u = true
      /\ users.role u = role_string (createUserInput.role input)
      /\ users.orgId u = createUserInput.orgId input
      /\ users.createdAt u = env_clock env (3 + w_tick w)
      /\ users.updatedAt u = env_clock env (3 + w_tick w)
      /\ accounts.userId a = users.id u
      /\ accounts.providerId a = "credential"
      /\ accounts.accountId a = users.id u
      /\ accounts.password a
         = env_hashPassword env (4 + w_tick w) (createUserInput.password input)
      /\ db_users (w_db w') = (db_users (w_db w) ++ [u])%list
      /\ db_accounts (w_db w') = (db_accounts (w_db w) ++ [a])%list
      /\ db_orgs (w_db w') = db_orgs (w_db w)
      /\ db_verifications (w_db w') = db_verifications (w_db w)
      /\ db_communityMembers (w_db w') = db_communityMembers (w_db w)
      /\ db_login_events (w_db w') = db_login_events (w_db w)
      /\ w_trace w'
         = (w_trace w ++ [SELECT Orgs; SELECT Users; INSERT Users u; INSERT Accounts a])%list.
Proof.
  intros env w input ctx caller Hh Ha Hv Horg Hfree.
  destruct (find_eq_Some orgs.id _ _ Horg) as (o & Ho & _).
  pose proof (free_email_lookup _ _ Hfree) as Hu.
  rewrite createUser_on_valid by exact Hv.
  unfold createUser_mutation. rewrite (admin_session_passes_guard _ _ Ha).
  run Hh. rewrite Ho. run Hh. rewrite Hu. run Hh.
  eexists.
  exists {| accounts.id := env_nanoid env (6 + w_tick w) 21;
            accounts.userId := env_nanoid env (2 + w_tick w) 21;
            accounts.providerId := "credential";
            accounts.accountId := env_nanoid env (2 + w_tick w) 21;
            accounts.password :=
              env_hashPassword env (4 + w_tick w) (createUserInput.password input);
            accounts.createdAt := env_clock env (3 + w_tick w);
            accounts.updatedAt := env_clock env (3 + w_tick w) |}.
  eexists. split; [reflexivity|].
  crunch. cbn [users.id users.name users.email users.emailVerified users.role
               users.orgId users.createdAt users.updatedAt
               accounts.userId accounts.providerId accounts.accountId accounts.password
               Nat.add].
  repeat (split; [reflexivity|]).
  now rewrite <- !app_assoc.
Qed.

Lemma createUser_inserts_user_then_credential_witness :
  (healthy Sample.env /\ admin_session Sample.admin_ctx Sample.admin
   /\ valid_createUser_input Sample.env (Sample.new_user "a@x.com" "o1")
   /\ org_exists "o1" (w_db Sample.world)
   /\ ~ email_taken "a@x.com" (w_db Sample.world))
  /\
  exists (u : users.row) (a : accounts.row) (w' : World),
    createUser (Sample.new_user "a@x.com" "o1") Sample.admin_ctx Sample.env Sample.world
    = (Return (Some u), w')
    /\ users.emailVerified u = true
    /\ accounts.userId a = users.id u
    /\ accounts.providerId a = "credential"
    /\ w_trace w'
       = (w_trace Sample.world
          ++ [SELECT Orgs; SELECT Users; INSERT Users u; INSERT Accounts a])%list.
Proof.
  assert (Hh : healthy Sample.env) by (intro n; reflexivity).
  assert (Ha : admin_session Sample.admin_ctx Sample.admin) by (split; reflexivity).
  assert (Horg : org_exists "o1" (w_db Sample.world)).
  { eexists. split; [left; reflexivity | reflexivity]. }
  assert (Hfree : ~ email_taken "a@x.com" (w_db Sample.world)).
  { intros (u & [<-|[<-|[]]] & E); discriminate E. }
  assert (Hv : valid_createUser_input Sample.env (Sample.new_user "a@x.com" "o1"))
    by (apply Sample_new_user_valid; reflexivity).
  split; [repeat (split; [assumption|]); assumption|].
  destruct (createUser_inserts_user_then_credential Sample.env Sample.world
              (Sample.new_user "a@x.com" "o1") Sample.admin_ctx Sample.admin
              Hh Ha Hv Horg Hfree)
    as (u & a & w' & Hrun & _ & _ & _ & Hver & _ & _ & _ & _ & Huid & Hprov & _ & _ & _ & _ & _ & _ & _ & _ & Hst).
  exists u, a, w'. repeat split; assumption.
Defined.

(** ** createOrg *)

Lemma no_org_named_lookup n db :
  ~ org_named n db -> find (drizzle.eq orgs.name n) (db_orgs db) = None.
Proof.
  intros H. apply find_eq_None. intros o Hin E. apply H. now exists o.
Qed.

Lemma orgs_named_nil n db : ~ org_named n db -> orgs_named n db = [].
Proof.
  unfold org_named, orgs_named. intros H.
  induction (db_orgs db) as [|o l IH]; [reflexivity|].
  cbn. destruct (String.eqb_spec (orgs.name o) n) as [E|_].
  - exfalso. apply H. exists o. split; [now left | exact E].
  - apply IH. intros (o' & Hin & E). apply H. exists o'. split; [now right | exact E].
Qed.

(** C6 — [createOrg] called by an admin with a non-empty name, no
    collaborator failing.  When an
    organization whose stored name equals the given name exactly already
    exists, the call fails with [CONFLICT] and the store is unchanged.
    Otherwise an organization with a fresh identifier and that name is
    appended and returned, nothing else changes, and a second call with the
    same name fails with [CONFLICT], leaving exactly one organization of
    that name. *)
Theorem createOrg_conflict_or_single_insert :
  forall env w input ctx caller,
    healthy env ->
    admin_session ctx caller ->
    valid_createOrg_input input ->
    (org_named (createOrgInput.name input) (w_db w) ->
     exists w',
       createOrg input ctx env w
       = (Throw (TRPCError CONFLICT "An organization with this name already exists"), w')
       /\ w_db w' = w_db w)
    /\
    (~ org_named (createOrgInput.name input) (w_db w) ->
     exists (o : orgs.row) (w' : World),
       createOrg input ctx env w = (Return (Some o), w')
       /\ orgs.id o = env_nanoid env (1 + w_tick w) 21
       /\ orgs.name o = createOrgInput.name input
       /\ db_orgs (w_db w') = (db_orgs (w_db w) ++ [o])%list
       /\ db_users (w_db w') = db_users (w_db w)
       /\ db_accounts (w_db w') = db_accounts (w_db w)
       /\ db_verifications (w_db w') = db_verifications (w_db w)
       /\ db_communityMembers (w_db w') = db_communityMembers (w_db w)
       /\ db_login_events (w_db w') = db_login_events (w_db w)
       /\ exists w'',
            createOrg input ctx env w'
            = (Throw (TRPCError CONFLICT "An organization with this name already exists"),
               w'')
            /\ w_db w'' = w_db w'
            /\ orgs_named (createOrgInput.name input) (w_db w'') = [o]).
Proof.
  intros env w input ctx caller Hh Ha Hv.
  assert (Hconflict : forall w0,
            org_named (createOrgInput.name input) (w_db w0) ->
            exists w',
              createOrg input ctx env w0
              = (Throw (TRPCError CONFLICT "An organization with this name already exists"),
                 w')
              /\ w_db w' = w_db w0).
  { intros w0 Hn. destruct (find_eq_Some orgs.name _ _ Hn) as (o & Ho & _).
    rewrite createOrg_on_valid by exact Hv.
    unfold createOrg_mutation. rewrite (admin_session_passes_guard _ _ Ha).
    run Hh. rewrite Ho. crunch. eexists. split; reflexivity. }
  split; [apply Hconflict|].
  intros Hno.
  pose proof (no_org_named_lookup _ _ Hno) as Hf.
  set (o := {| orgs.id := env_nanoid env (1 + w_tick w) 21;
               orgs.name := createOrgInput.name input |}).
  assert (Hrun : exists w',
             createOrg input ctx env w = (Return (Some o), w')
             /\ w_db w' = set_rows Orgs (db_orgs (w_db w) ++ [o])%list (w_db w)).
  { rewrite createOrg_on_valid by exact Hv.
    unfold createOrg_mutation. rewrite (admin_session_passes_guard _ _ Ha).
    run Hh. rewrite Hf. run Hh. eexists. split; reflexivity. }
  destruct Hrun as (w' & Hrun & Hdb).
  exists o, w'. split; [exact Hrun|].
  repeat (split; [solve [reflexivity | rewrite Hdb; reflexivity]|]).
  assert (Hnamed : org_named (createOrgInput.name input) (w_db w')).
  { exists o. rewrite Hdb. cbn [set_rows db_orgs]. split; [|reflexivity].
    apply in_or_app. right. now left. }
  destruct (Hconflict w' Hnamed) as (w'' & Hrun2 & Hdb2).
  exists w''. split; [exact Hrun2|]. split; [exact Hdb2|].
  rewrite Hdb2, Hdb. unfold orgs_named. cbn [set_rows db_orgs].
  rewrite filter_app.
  change (filter _ (db_orgs (w_db w))) with (orgs_named (createOrgInput.name input) (w_db w)).
  rewrite (orgs_named_nil _ _ Hno).
  unfold o at 1. cbn [filter app orgs.name]. now rewrite String.eqb_refl.
Qed.

Lemma createOrg_conflict_or_single_insert_witness :
  (healthy Sample.env /\ admin_session Sample.admin_ctx Sample.admin
   /\ valid_createOrg_input (Sample.new_org "Acme")
   /\ valid_createOrg_input (Sample.new_org "acme")
   /\ org_named "Acme" (w_db Sample.world)
   /\ ~ org_named "acme" (w_db Sample.world))
  /\
  (exists w',
     createOrg (Sample.new_org "Acme") Sample.admin_ctx Sample.env Sample.world
     = (Throw (TRPCError CONFLICT "An organization with this name already exists"), w')
     /\ w_db w' = w_db Sample.world)
  /\
  (exists (o : orgs.row) (w' : World),
     createOrg (Sample.new_org "acme") Sample.admin_ctx Sample.env Sample.world
     = (Return (Some o), w')
     /\ orgs.name o = "acme"
     /\ exists w'',
          createOrg (Sample.new_org "acme") Sample.admin_ctx Sample.env w'
          = (Throw (TRPCError CONFLICT "An organization with this name already exists"),
             w'')
          /\ orgs_named "acme" (w_db w'') = [o]).
Proof.
  assert (Hh : healthy Sample.env) by (intro n; reflexivity).
  assert (Ha : admin_session Sample.admin_ctx Sample.admin) by (split; reflexivity).
  assert (Hyes : org_named "Acme" (w_db Sample.world)).
  { eexists. split; [left; reflexivity | reflexivity]. }
  assert (Hno : ~ org_named "acme" (w_db Sample.world)).
  { intros (o & [<-|[]] & E). discriminate E. }
  assert (Hv1 : valid_createOrg_input (Sample.new_org "Acme")) by (cbv; lia).
  assert (Hv2 : valid_createOrg_input (Sample.new_org "acme")) by (cbv; lia).
  split; [repeat (split; [assumption|]); assumption|]. split.
  - exact (proj1 (createOrg_conflict_or_single_insert Sample.env Sample.world
                    (Sample.new_org "Acme") Sample.admin_ctx Sample.admin Hh Ha Hv1) Hyes).
  - destruct (proj2 (createOrg_conflict_or_single_insert Sample.env Sample.world
                       (Sample.new_org "acme") Sample.admin_ctx Sample.admin Hh Ha Hv2) Hno)
      as (o & w' & Hrun & _ & Hname & _ & _ & _ & _ & _ & _ & w'' & Hrun2 & _ & Hone).
    exists o, w'. split; [exact Hrun|]. split; [exact Hname|].
    exists w''. split; assumption.
Defined.

(** ** removeUser *)

Lemma in_without {R : Type} (column : R -> string) (v : string) (l : list R) (r : R) :
  In r (without column v l) <-> In r l /\ column r <> v.
Proof.
  unfold without. rewrite filter_In.
  destruct (String.eqb_spec (column r) v) as [E|E]; cbn; intuition congruence.
Qed.

Lemma no_user_lookup userId db :
  ~ user_exists userId db -> find (drizzle.eq users.id userId) (db_users db) = None.
Proof.
  intros H. apply find_eq_None. intros u Hin E. apply H. now exists u.
Qed.

(** C3 — [removeUser] called by an admin, no collaborator failing.  When no
    user has the given id the call fails with [NOT_FOUND]; when the user
    exists and the id is the caller's own it fails with [FORBIDDEN]; in
    both cases the store is unchanged.  Otherwise it sends, in this order,
    the deletion of the user's memberships, of the user's accounts and of
    the user row, returns [{ success: true }], and a [getUsers] that
    follows does not list the removed id. *)
Theorem removeUser_checks_then_deletes_dependents_first :
  forall env w input ctx caller,
    healthy env ->
    admin_session ctx caller ->
    (~ user_exists (removeUserInput.userId input) (w_db w) ->
     exists w',
       removeUser input ctx env w = (Throw (TRPCError NOT_FOUND "User not found"), w')
       /\ w_db w' = w_db w)
    /\
    (user_exists (removeUserInput.userId input) (w_db w) ->
     removeUserInput.userId input = su_id caller ->
     exists w',
       removeUser input ctx env w
       = (Throw (TRPCError FORBIDDEN "You cannot remove yourself"), w')
       /\ w_db w' = w_db w)
    /\
    (user_exists (removeUserInput.userId input) (w_db w) ->
     removeUserInput.userId input <> su_id caller ->
     exists w',
       removeUser input ctx env w = (Return {| remove_success := true |}, w')
       /\ w_trace w'
          = (w_trace w
             ++ [SELECT Users; DELETE CommunityMembers; DELETE Accounts; DELETE Users])%list
       /\ db_communityMembers (w_db w')
          = without communityMembers.userId (removeUserInput.userId input)
              (db_communityMembers (w_db w))
       /\ db_accounts (w_db w')
          = without accounts.userId (removeUserInput.userId input) (db_accounts (w_db w))
       /\ db_users (w_db w')
          = without users.id (removeUserInput.userId input) (db_users (w_db w))
       /\ exists answer w'',
            getUsers ctx env w' = (Return answer, w'')
            /\ ~ In (removeUserInput.userId input) (listed_ids answer)).
Proof.
  intros env w input ctx caller Hh Ha.
  pose proof (admin_session_passes_guard _ _ Ha) as Hguard.
  destruct Ha as [Hcaller _].
  split; [|split].
  - intros Hno. unfold removeUser. rewrite Hguard.
    run Hh. rewrite (no_user_lookup _ _ Hno). crunch.
    eexists. split; reflexivity.
  - intros Hex Hself.
    destruct (find_eq_Some users.id _ _ Hex) as (u & Hu & _ & Hid).
    unfold removeUser. rewrite Hguard.
    run Hh. rewrite Hu. rewrite Hcaller. crunch.
    rewrite Hid, Hself. unfold str_eq. rewrite String.eqb_refl.
    eexists. split; reflexivity.
  - intros Hex Hother.
    destruct (find_eq_Some users.id _ _ Hex) as (u & Hu & _ & Hid).
    assert (Hrun : exists w',
               removeUser input ctx env w = (Return {| remove_success := true |}, w')
               /\ w_trace w'
                  = (w_trace w
                     ++ [SELECT Users; DELETE CommunityMembers; DELETE Accounts;
                         DELETE Users])%list
               /\ db_communityMembers (w_db w')
                  = without communityMembers.userId (removeUserInput.userId input)
                      (db_communityMembers (w_db w))
               /\ db_accounts (w_db w')
                  = without accounts.userId (removeUserInput.userId input)
                      (db_accounts (w_db w))
               /\ db_users (w_db w')
                  = without users.id (removeUserInput.userId input) (db_users (w_db w))).
    { unfold removeUser. rewrite Hguard.
      run Hh. rewrite Hu. rewrite Hcaller. crunch.
      rewrite Hid. unfold str_eq.
      destruct (String.eqb_spec (removeUserInput.userId input) (su_id caller)) as [E|_];
        [contradiction|].
      run Hh. eexists. split; [reflexivity|]. crunch.
      split; [now rewrite <- !app_assoc|].
      repeat split; reflexivity. }
    destruct Hrun as (w' & Hrun & Hst & Hcm & Hacc & Husers).
    exists w'. repeat (split; [assumption|]).
    unfold getUsers. rewrite Hguard. run Hh.
    do 2 eexists. split; [reflexivity|].
    unfold listed_ids. rewrite map_map. cbn [fst].
    rewrite Husers. intros Hin. apply in_map_iff in Hin.
    destruct Hin as (u' & Hid' & Hin'). apply in_without in Hin'.
    now destruct Hin'.
Qed.

Lemma removeUser_checks_then_deletes_dependents_first_witness :
  (healthy Sample.env /\ admin_session Sample.admin_ctx Sample.admin
   /\ ~ user_exists "nobody" (w_db Sample.world)
   /\ user_exists "u1" (w_db Sample.world)
   /\ user_exists "u2" (w_db Sample.world))
  /\
  (exists w',
     removeUser (Sample.removal "nobody") Sample.admin_ctx Sample.env Sample.world
     = (Throw (TRPCError NOT_FOUND "User not found"), w')
     /\ w_db w' = w_db Sample.world)
  /\
  (exists w',
     removeUser (Sample.removal "u1") Sample.admin_ctx Sample.env Sample.world
     = (Throw (TRPCError FORBIDDEN "You cannot remove yourself"), w')
     /\ w_db w' = w_db Sample.world)
  /\
  (exists w',
     removeUser (Sample.removal "u2") Sample.admin_ctx Sample.env Sample.world
     = (Return {| remove_success := true |}, w')
     /\ w_trace w'
        = [SELECT Users; DELETE CommunityMembers; DELETE Accounts; DELETE Users]
     /\ db_users (w_db w') = [Sample.root]
     /\ db_accounts (w_db w') = []).
Proof.
  assert (Hh : healthy Sample.env) by (intro n; reflexivity).
  assert (Ha : admin_session Sample.admin_ctx Sample.admin) by (split; reflexivity).
  assert (Hno : ~ user_exists "nobody" (w_db Sample.world)).
  { intros (u & [<-|[<-|[]]] & E); discriminate E. }
  assert (Hroot : user_exists "u1" (w_db Sample.world)).
  { exists Sample.root. split; [left; reflexivity | reflexivity]. }
  assert (Hbob : user_exists "u2" (w_db Sample.world)).
  { exists Sample.bob. split; [right; left; reflexivity | reflexivity]. }
  split; [repeat split; assumption|].
  split; [|split].
  - exact (proj1 (removeUser_checks_then_deletes_dependents_first Sample.env Sample.world
                    (Sample.removal "nobody") Sample.admin_ctx Sample.admin Hh Ha) Hno).
  - exact (proj1 (proj2 (removeUser_checks_then_deletes_dependents_first Sample.env
                           Sample.world (Sample.removal "u1") Sample.admin_ctx Sample.admin
                           Hh Ha)) Hroot eq_refl).
  - assert (Hother : removeUserInput.userId (Sample.removal "u2") <> su_id Sample.admin)
      by discriminate.
    destruct (proj2 (proj2 (removeUser_checks_then_deletes_dependents_first Sample.env
                              Sample.world (Sample.removal "u2") Sample.admin_ctx
                              Sample.admin Hh Ha)) Hbob Hother)
      as (w' & Hrun & Hst & _ & Hacc & Husers & _).
    exists w'. split; [exact Hrun|]. split; [exact Hst|].
    split; [exact Husers | exact Hacc].
Defined.

(** [removeUser] never touches organizations, verifications or login
    events, and sends no email, whatever its outcome and whatever the
    collaborators do. *)
Lemma removeUser_frame env w input ctx r w' :
  removeUser input ctx env w = (r, w') ->
  db_orgs (w_db w') = db_orgs (w_db w)
  /\ db_verifications (w_db w') = db_verifications (w_db w)
  /\ db_login_events (w_db w') = db_login_events (w_db w)
  /\ w_outbox w' = w_outbox w.
Proof.
  unfold removeUser. destruct (not_admin ctx).
  - unfold throw. intros E. inversion E. repeat split; reflexivity.
  - expose. crunch.
    repeat (crunch;
            match goal with
            | |- context [env_fails env ?n] => destruct (env_fails env n)
            | |- context [find ?p ?l] => destruct (find p l)
            | |- context [ctx_session_user ctx] => destruct (ctx_session_user ctx)
            | |- context [str_eq ?a ?b] => destruct (str_eq a b)
            end);
      crunch; intros E; inversion E; crunch; repeat split; reflexivity.
Qed.

(** C10 — a successful [removeUser] leaves the organization and the
    verification tables exactly as they were (and the login events and the
    outbox too): it only deletes from the membership, account and user
    tables.  In particular every pending invitation addressed to the
    removed user's email is still there. *)
Theorem removeUser_success_keeps_orgs_and_invitations :
  forall env w input ctx out w',
    removeUser input ctx env w = (Return out, w') ->
    db_orgs (w_db w') = db_orgs (w_db w)
    /\ db_verifications (w_db w') = db_verifications (w_db w)
    /\ db_login_events (w_db w') = db_login_events (w_db w)
    /\ (forall u, In u (db_users (w_db w)) ->
                  users.id u = removeUserInput.userId input ->
                  invitations_for (users.email u) (w_db w')
                  = invitations_for (users.email u) (w_db w)).
Proof.
  intros env w input ctx out w' Hrun.
  destruct (removeUser_frame _ _ _ _ _ _ Hrun) as (Ho & Hv & Hl & _).
  repeat (split; [assumption|]).
  intros u _ _. unfold invitations_for. now rewrite Hv.
Qed.

Lemma removeUser_success_keeps_orgs_and_invitations_witness :
  exists w',
    removeUser (Sample.removal "u2") Sample.admin_ctx Sample.env Sample.world
    = (Return {| remove_success := true |}, w')
    /\ db_orgs (w_db w') = db_orgs (w_db Sample.world)
    /\ db_verifications (w_db w') = db_verifications (w_db Sample.world)
    /\ invitations_for "bob@x.com" (w_db w') = [Sample.bob_invitation]
    /\ ~ user_exists "u2" (w_db w').
Proof.
  eexists. split; [vm_compute; reflexivity|].
  pose proof (removeUser_success_keeps_orgs_and_invitations Sample.env Sample.world
                (Sample.removal "u2") Sample.admin_ctx _ _ eq_refl) as (Ho & Hv & _ & Hi).
  split; [exact Ho|]. split; [exact Hv|].
  split.
  - exact (Hi Sample.bob (or_intror (or_introl eq_refl)) eq_refl).
  - intros (u & [<-|[]] & E). discriminate E.
Defined.

(** ** Strings and the JSON payload *)

Lemma append_assoc (a b c : string) : (a ++ b) ++ c = a ++ (b ++ c).
Proof. induction a as [|x a IH]; cbn; [reflexivity | now rewrite IH]. Qed.

Lemma append_inv_head (a x y : string) : a ++ x = a ++ y -> x = y.
Proof. induction a as [|c a IH]; cbn; intros H; [exact H | inversion H; auto]. Qed.

Lemma json_unescape_head_escape (c : ascii) (rest : string) :
  json_unescape_head (json_escape_char c ++ rest) = Some (c, rest).
Proof.
  destruct c as [b0 b1 b2 b3 b4 b5 b6 b7].
  destruct b0, b1, b2, b3, b4, b5, b6, b7; reflexivity.
Qed.

(** Escaped text followed by its closing quote can be read back in one way
    only. *)
Lemma json_escape_closed_inj (s1 s2 r1 r2 : string) :
  json_escape s1 ++ dquote ++ r1 = json_escape s2 ++ dquote ++ r2 ->
  s1 = s2 /\ r1 = r2.
Proof.
  revert s2. induction s1 as [|c1 s1 IH]; intros [|c2 s2] H.
  - cbn in H. now inversion H.
  - exfalso. apply (f_equal json_unescape_head) in H.
    cbn [json_escape] in H. rewrite append_assoc, json_unescape_head_escape in H.
    discriminate H.
  - exfalso. apply (f_equal json_unescape_head) in H.
    cbn [json_escape] in H. rewrite append_assoc, json_unescape_head_escape in H.
    discriminate H.
  - cbn [json_escape] in H. rewrite !append_assoc in H.
    apply (f_equal json_unescape_head) in H.
    rewrite !json_unescape_head_escape in H. inversion H as [[Hc Hrest]].
    destruct (IH _ Hrest) as [-> ->]. now split.
Qed.

Lemma json_quote_inj (s1 s2 r1 r2 : string) :
  json_quote s1 ++ r1 = json_quote s2 ++ r2 -> s1 = s2 /\ r1 = r2.
Proof.
  unfold json_quote. rewrite !append_assoc. intros H.
  apply json_escape_closed_inj.
  unfold dquote at 1 3 in H. cbn [append] in H. now inversion H.
Qed.

(** The payload of an invitation determines the token, the organization
    and the role it was built from. *)
Lemma invitation_payload_inj t1 o1 r1 t2 o2 r2 :
  JSON_stringify [("token", t1); ("orgId", o1); ("role", r1)]
  = JSON_stringify [("token", t2); ("orgId", o2); ("role", r2)] ->
  t1 = t2 /\ o1 = o2 /\ r1 = r2.
Proof.
  unfold JSON_stringify. cbn [json_members]. rewrite !append_assoc. intros H.
  apply append_inv_head, json_quote_inj, proj2 in H.
  apply append_inv_head, json_quote_inj in H. destruct H as [Ht H].
  apply append_inv_head, json_quote_inj, proj2 in H.
  apply append_inv_head, json_quote_inj in H. destruct H as [Ho H].
  apply append_inv_head, json_quote_inj, proj2 in H.
  apply append_inv_head, json_quote_inj in H. destruct H as [Hr _].
  now repeat split.
Qed.

(** The payload of the sample invitation, as the store receives it. *)
Example JSON_stringify_sample :
  JSON_stringify [("token", "tok"); ("orgId", "o1"); ("role", "user")]
  = "{" ++ dquote ++ "token" ++ dquote ++ ":" ++ dquote ++ "tok" ++ dquote ++ ","
    ++ dquote ++ "orgId" ++ dquote ++ ":" ++ dquote ++ "o1" ++ dquote ++ ","
    ++ dquote ++ "role" ++ dquote ++ ":" ++ dquote ++ "user" ++ dquote ++ "}".
Proof. reflexivity. Qed.

(** ** Dates *)

(** 14 November 2023, 22:13:20 UTC. *)
Example DateFromTime_sample : DateFromTime 1700000000000 = 14%Z.
Proof. reflexivity. Qed.

Example day_of_month_leap_day : day_of_month 19782 = 29%Z /\ day_of_month 19783 = 1%Z.
Proof. split; reflexivity. Qed.

(** ** inviteUser *)

Lemma substring_of_here (needle rest : string) : substring_of needle (needle ++ rest).
Proof. exists EmptyString, rest. reflexivity. Qed.

Lemma substring_of_later (needle front hay : string) :
  substring_of needle hay -> substring_of needle (front ++ hay).
Proof.
  intros (before & after & ->). exists (front ++ before), after.
  now rewrite append_assoc.
Qed.

(** [d.setDate(d.getDate() + n)] moves [d] to the same local time of day
    [n] calendar days later. *)
Lemma setDate_getDate_plus (tza : Z -> bool -> Z) (d : Date) (n : Z) :
  Date_setDate tza d (Date_getDate tza d + n) = days_later_local tza n d.
Proof.
  unfold Date_setDate, Date_getDate, days_later_local.
  set (t := LocalTime tza d). f_equal.
  unfold MakeDay_in_month_of, MakeDate, TimeWithinDay, Day.
  pose proof (Z.div_mod t msPerDay) as H.
  assert (Hnz : msPerDay <> 0%Z) by (unfold msPerDay; lia).
  specialize (H Hnz). nia.
Qed.

(** That is [n] times 24 hours later when the zone's offset is the same
    at both ends, and not otherwise. *)
Lemma days_later_local_offsets (tza : Z -> bool -> Z) (n : Z) (d : Date) :
  days_later_local tza n d
  = (d + n * msPerDay
     + (tza d true - tza (LocalTime tza d + n * msPerDay)%Z false))%Z.
Proof. unfold days_later_local, UTC, LocalTime. lia. Qed.

(** Across the change to daylight saving time of March 2024 in New York,
    seven calendar days are seven times 24 hours less one hour. *)
Example days_later_local_new_york :
  days_later_local Sample.new_york_march_2024 7 1709899201000%Z
  = (1709899201000 + 7 * msPerDay - 3600000)%Z.
Proof. reflexivity. Qed.

Lemma invite_html_links_to (orgName inviteUrl : string) :
  substring_of inviteUrl (invite_html orgName inviteUrl).
Proof.
  unfold invite_html.
  do 12 apply substring_of_later.
  apply substring_of_here.
Qed.

Section InviteRun.
Variables (env : Env) (w : World) (input : inviteUserInput.t).

Lemma inviteUser_run ctx caller :
  healthy env ->
  admin_session ctx caller ->
  valid_inviteUser_input env input ->
  org_exists (inviteUserInput.orgId input) (w_db w) ->
  ~ email_taken (inviteUserInput.email input) (w_db w) ->
  exists (o : orgs.row) (w' : World),
    inviteUser input ctx env w
    = (Return {| invite_success := true; invite_email := inviteUserInput.email input |}, w')
    /\ db_verifications (w_db w')
       = (db_verifications (w_db w) ++ [invitation_row env w input])%list
    /\ w_outbox w' = (w_outbox w ++ [invitation_email env w input (orgs.name o)])%list
    /\ w_trace w'
       = (w_trace w
          ++ [SELECT Orgs; SELECT Users; INSERT Verifications (invitation_row env w input);
              SEND (invitation_email env w input (orgs.name o))])%list
    /\ db_users (w_db w') = db_users (w_db w)
    /\ db_orgs (w_db w') = db_orgs (w_db w)
    /\ db_accounts (w_db w') = db_accounts (w_db w)
    /\ db_communityMembers (w_db w') = db_communityMembers (w_db w)
    /\ db_login_events (w_db w') = db_login_events (w_db w).
Proof.
  intros Hh Ha Hv Horg Hfree.
  destruct (find_eq_Some orgs.id _ _ Horg) as (o & Ho & _).
  pose proof (free_email_lookup _ _ Hfree) as Hu.
  exists o. rewrite inviteUser_on_valid by exact Hv.
  unfold inviteUser_mutation. rewrite (admin_session_passes_guard _ _ Ha).
  run Hh. rewrite Ho. run Hh. rewrite Hu. run Hh.
  eexists. split; [reflexivity|]. crunch.
  rewrite setDate_getDate_plus.
  unfold invitation_row, invitation_email. cbn [Nat.add].
  repeat (split; [reflexivity|]).
  split; [now rewrite <- !app_assoc|].
  repeat split; reflexivity.
Qed.

End InviteRun.

(** When the dispatch itself fails (call 7) the call reports
    [INTERNAL_SERVER_ERROR], no email is recorded, and the invitation row,
    inserted before, stays in the store. *)
Example inviteUser_dispatch_failure :
  let (r, w') := inviteUser (Sample.invitation "new@x.com" "o1") Sample.admin_ctx
                   (Sample.env_failing_at 7) Sample.world in
  r = Throw (TRPCError INTERNAL_SERVER_ERROR "Failed to send invitation")
  /\ w_outbox w' = []
  /\ List.length (invitations_for "new@x.com" (w_db w')) = 1.
Proof. vm_compute. repeat split; reflexivity. Qed.

(** C7 — [inviteUser] called by an admin with a valid email, for an
    existing organization and an email no user has, no collaborator
    failing: exactly one verification row is appended, whose [identifier]
    is the target email and whose [value] is the JSON of the 32-character
    token just drawn, the [orgId] and the role.  Its [expiresAt] is the
    clock reading taken for it — the reading that follows the one stored as
    [createdAt] — moved to the same local time of day seven calendar days
    later in the server's zone: seven times 24 hours after that reading
    when the zone's offset from UTC is the same at both ends, and after
    [createdAt] when moreover the clock has not moved between the two
    readings.  After that exactly one email goes out, to that address, its
    body containing [<base>/auth/register?token=<token>&email=<email>] with
    that same token; the call returns [{ success: true, email }]. *)
Theorem inviteUser_persists_invitation_and_sends_link :
  forall env w input ctx caller base,
    healthy env ->
    nanoid_sized env ->
    NEXT_PUBLIC_APP_URL env = Some base ->
    admin_session ctx caller ->
    valid_inviteUser_input env input ->
    org_exists (inviteUserInput.orgId input) (w_db w) ->
    ~ email_taken (inviteUserInput.email input) (w_db w) ->
    exists (token : string) (v : verifications.row) (m : Email) (w' : World),
      inviteUser input ctx env w
      = (Return {| invite_success := true; invite_email := inviteUserInput.email input |}, w')
      /\ token = env_nanoid env (2 + w_tick w) 32
      /\ String.length token = 32
      /\ db_verifications (w_db w') = (db_verifications (w_db w) ++ [v])%list
      /\ verifications.identifier v = inviteUserInput.email input
      /\ verifications.value v
         = JSON_stringify
             [("token", token);
              ("orgId", inviteUserInput.orgId input);
              ("role", role_string (inviteUserInput.role input))]
      /\ (forall token' orgId' role',
             verifications.value v
             = JSON_stringify [("token", token'); ("orgId", orgId'); ("role", role')] ->
             token' = token
             /\ orgId' = inviteUserInput.orgId input
             /\ role' = role_string (inviteUserInput.role input))
      /\ verifications.createdAt v = env_clock env (3 + w_tick w)
      /\ verifications.expiresAt v
         = days_later_local (LocalTZA env) 7 (env_clock env (4 + w_tick w))
      /\ (LocalTZA env (LocalTime (LocalTZA env) (env_clock env (4 + w_tick w))
                        + 7 * msPerDay)%Z false
          = LocalTZA env (env_clock env (4 + w_tick w)) true ->
          verifications.expiresAt v = (env_clock env (4 + w_tick w) + 7 * msPerDay)%Z
          /\ (env_clock env (4 + w_tick w) = env_clock env (3 + w_tick w) ->
              verifications.expiresAt v = (verifications.createdAt v + 7 * msPerDay)%Z))
      /\ w_outbox w' = (w_outbox w ++ [m])%list
      /\ to m = inviteUserInput.email input
      /\ substring_of
           (base ++ "/auth/register?token=" ++ token ++ "&email="
            ++ inviteUserInput.email input)
           (html m)
      /\ w_trace w'
         = (w_trace w ++ [SELECT Orgs; SELECT Users; INSERT Verifications v; SEND m])%list.
Proof.
  intros env w input ctx caller base Hh Hsized Hbase Ha Hvalid Horg Hfree.
  destruct (inviteUser_run env w input ctx caller Hh Ha Hvalid Horg Hfree)
    as (o & w' & Hrun & Hv & Hout & Hst & _).
  exists (env_nanoid env (2 + w_tick w) 32), (invitation_row env w input),
         (invitation_email env w input (orgs.name o)), w'.
  split; [exact Hrun|]. split; [reflexivity|]. split; [apply Hsized|].
  split; [exact Hv|]. do 2 (split; [reflexivity|]).
  split.
  { intros token' orgId' role' E. cbn [invitation_row verifications.value] in E.
    symmetry in E. apply invitation_payload_inj in E.
    destruct E as (-> & -> & ->). repeat split; reflexivity. }
  do 2 (split; [reflexivity|]).
  split.
  { intros Hsame. cbn [invitation_row verifications.expiresAt verifications.createdAt].
    rewrite days_later_local_offsets, Hsame.
    split; [lia | intros E; rewrite E; lia]. }
  split; [exact Hout|]. split; [reflexivity|].
  split; [|exact Hst].
  cbn [invitation_email html]. rewrite Hbase.
  apply invite_html_links_to.
Qed.

Lemma Sample_nanoid_sized : nanoid_sized Sample.env.
Proof.
  intros t n. cbn [Sample.env env_nanoid]. induction n as [|n IH]; cbn; [reflexivity|].
  now rewrite IH.
Qed.

Lemma inviteUser_persists_invitation_and_sends_link_witness :
  (healthy Sample.env /\ nanoid_sized Sample.env
   /\ NEXT_PUBLIC_APP_URL Sample.env = Some "https://app.example"
   /\ admin_session Sample.admin_ctx Sample.admin
   /\ valid_inviteUser_input Sample.env (Sample.invitation "new@x.com" "o1")
   /\ org_exists "o1" (w_db Sample.world)
   /\ ~ email_taken "new@x.com" (w_db Sample.world))
  /\
  exists (token : string) (v : verifications.row) (m : Email) (w' : World),
    inviteUser (Sample.invitation "new@x.com" "o1") Sample.admin_ctx Sample.env Sample.world
    = (Return {| invite_success := true; invite_email := "new@x.com" |}, w')
    /\ String.length token = 32
    /\ db_verifications (w_db w') = [Sample.bob_invitation; v]
    /\ verifications.identifier v = "new@x.com"
    /\ verifications.createdAt v = 1700000000003%Z
    /\ verifications.expiresAt v = (1700000000004 + 604800000)%Z
    /\ w_outbox w' = [m]
    /\ to m = "new@x.com"
    /\ substring_of
         ("https://app.example" ++ "/auth/register?token=" ++ token ++ "&email=" ++ "new@x.com")
         (html m).
Proof.
  assert (Hh : healthy Sample.env) by (intro n; reflexivity).
  assert (Ha : admin_session Sample.admin_ctx Sample.admin) by (split; reflexivity).
  assert (Hvalid : valid_inviteUser_input Sample.env (Sample.invitation "new@x.com" "o1"))
    by reflexivity.
  assert (Horg : org_exists "o1" (w_db Sample.world)).
  { eexists. split; [left; reflexivity | reflexivity]. }
  assert (Hfree : ~ email_taken "new@x.com" (w_db Sample.world)).
  { intros (u & [<-|[<-|[]]] & E); discriminate E. }
  split; [repeat (split; [first [assumption | exact Sample_nanoid_sized | reflexivity]|]);
          assumption|].
  destruct (inviteUser_persists_invitation_and_sends_link Sample.env Sample.world
              (Sample.invitation "new@x.com" "o1") Sample.admin_ctx Sample.admin
              "https://app.example" Hh Sample_nanoid_sized eq_refl Ha Hvalid Horg Hfree)
    as (token & v & m & w' & Hrun & _ & Hlen & Hv & Hident & _ & _ & Hcreated & Hexp & _
        & Hout & Hto & Hlink & _).
  exists token, v, m, w'.
  repeat (split; [assumption|]). exact Hlink.
Defined.

(** The claim as the specification words it — an expiry exactly seven days
    after issuance — fails on two runs.  On a server in New York that
    issues an invitation on 8 March 2024, two days before the clocks go
    forward, the expiry is seven days less one hour after the reading it
    was computed from (here also the creation timestamp).  And on a server
    whose zone keeps its offset but whose clock moves by a millisecond
    between the two readings, the expiry is seven days and a millisecond
    after the creation timestamp. *)
Lemma inviteUser_expiry_not_seven_days_after_issuance :
  (exists v w',
     inviteUser (Sample.invitation "new@x.com" "o1") Sample.admin_ctx Sample.env_new_york
       Sample.world
     = (Return {| invite_success := true; invite_email := "new@x.com" |}, w')
     /\ db_verifications (w_db w') = [Sample.bob_invitation; v]
     /\ verifications.createdAt v = 1709899201000%Z
     /\ verifications.expiresAt v = 1710500401000%Z
     /\ verifications.expiresAt v <> (verifications.createdAt v + 7 * msPerDay)%Z)
  /\
  (exists v w',
     inviteUser (Sample.invitation "new@x.com" "o1") Sample.admin_ctx Sample.env
       Sample.world
     = (Return {| invite_success := true; invite_email := "new@x.com" |}, w')
     /\ db_verifications (w_db w') = [Sample.bob_invitation; v]
     /\ verifications.expiresAt v <> (verifications.createdAt v + 7 * msPerDay)%Z).
Proof.
  split.
  - eexists {| verifications.id := _ |}, _. split; [vm_compute; reflexivity|].
    repeat split; discriminate.
  - eexists {| verifications.id := _ |}, _. split; [vm_compute; reflexivity|].
    repeat split; discriminate.
Qed.

(** C9 — [inviteUser] looks for an existing user only, never for a pending
    invitation: called by an admin with a valid email, for an existing
    organization and an email no user has, no collaborator failing, it
    succeeds whatever the
    verification table already holds, and a second identical call succeeds
    too; each call adds one invitation addressed to the email and sends one
    more message to it, so the records and the dispatches pile up. *)
Theorem inviteUser_repeats_accumulate :
  forall env w input ctx caller,
    healthy env ->
    admin_session ctx caller ->
    valid_inviteUser_input env input ->
    org_exists (inviteUserInput.orgId input) (w_db w) ->
    ~ email_taken (inviteUserInput.email input) (w_db w) ->
    exists w1 w2,
      inviteUser input ctx env w
      = (Return {| invite_success := true; invite_email := inviteUserInput.email input |}, w1)
      /\ inviteUser input ctx env w1
         = (Return {| invite_success := true; invite_email := inviteUserInput.email input |},
            w2)
      /\ List.length (invitations_for (inviteUserInput.email input) (w_db w1))
         = 1 + List.length (invitations_for (inviteUserInput.email input) (w_db w))
      /\ List.length (invitations_for (inviteUserInput.email input) (w_db w2))
         = 2 + List.length (invitations_for (inviteUserInput.email input) (w_db w))
      /\ List.length (emails_to (inviteUserInput.email input) w1)
         = 1 + List.length (emails_to (inviteUserInput.email input) w)
      /\ List.length (emails_to (inviteUserInput.email input) w2)
         = 2 + List.length (emails_to (inviteUserInput.email input) w).
Proof.
  intros env w input ctx caller Hh Ha Hvalid Horg Hfree.
  destruct (inviteUser_run env w input ctx caller Hh Ha Hvalid Horg Hfree)
    as (o1 & w1 & Hrun1 & Hv1 & Hout1 & _ & Hu1 & Ho1 & _).
  assert (Horg1 : org_exists (inviteUserInput.orgId input) (w_db w1)).
  { unfold org_exists. now rewrite Ho1. }
  assert (Hfree1 : ~ email_taken (inviteUserInput.email input) (w_db w1)).
  { unfold email_taken. now rewrite Hu1. }
  destruct (inviteUser_run env w1 input ctx caller Hh Ha Hvalid Horg1 Hfree1)
    as (o2 & w2 & Hrun2 & Hv2 & Hout2 & _).
  exists w1, w2. split; [exact Hrun1|]. split; [exact Hrun2|].
  unfold invitations_for, emails_to.
  rewrite Hv2, Hout2, Hv1, Hout1, !filter_app, !length_app.
  cbn [filter invitation_row invitation_email verifications.identifier to List.length].
  rewrite String.eqb_refl. cbn [List.length]. lia.
Qed.

Lemma inviteUser_repeats_accumulate_witness :
  (healthy Sample.env /\ admin_session Sample.admin_ctx Sample.admin
   /\ valid_inviteUser_input Sample.env (Sample.invitation "new@x.com" "o1")
   /\ org_exists "o1" (w_db Sample.world_with_pending)
   /\ ~ email_taken "new@x.com" (w_db Sample.world_with_pending)
   /\ invitations_for "new@x.com" (w_db Sample.world_with_pending)
      = [Sample.pending_invitation])
  /\
  exists w1 w2,
    inviteUser (Sample.invitation "new@x.com" "o1") Sample.admin_ctx Sample.env
      Sample.world_with_pending
    = (Return {| invite_success := true; invite_email := "new@x.com" |}, w1)
    /\ inviteUser (Sample.invitation "new@x.com" "o1") Sample.admin_ctx Sample.env w1
       = (Return {| invite_success := true; invite_email := "new@x.com" |}, w2)
    /\ List.length (invitations_for "new@x.com" (w_db w2)) = 3
    /\ List.length (emails_to "new@x.com" w2) = 2.
Proof.
  assert (Hh : healthy Sample.env) by (intro n; reflexivity).
  assert (Ha : admin_session Sample.admin_ctx Sample.admin) by (split; reflexivity).
  assert (Horg : org_exists "o1" (w_db Sample.world_with_pending)).
  { eexists. split; [left; reflexivity | reflexivity]. }
  assert (Hfree : ~ email_taken "new@x.com" (w_db Sample.world_with_pending)).
  { intros (u & [<-|[<-|[]]] & E); discriminate E. }
  assert (Hvalid : valid_inviteUser_input Sample.env (Sample.invitation "new@x.com" "o1"))
    by reflexivity.
  split; [repeat (split; [first [assumption | reflexivity]|]); reflexivity|].
  destruct (inviteUser_repeats_accumulate Sample.env Sample.world_with_pending
              (Sample.invitation "new@x.com" "o1") Sample.admin_ctx Sample.admin
              Hh Ha Hvalid Horg Hfree)
    as (w1 & w2 & Hrun1 & Hrun2 & _ & Hv & _ & Hm).
  exists w1, w2. repeat (split; [assumption|]). exact Hm.
Defined.

(** ** getUniqueLoginsPerDay *)

Lemma DateDesc_leb_trans : Transitive (fun a b => is_true (DateDesc.leb a b)).
Proof.
  intros a b c. unfold DateDesc.leb, is_true. rewrite !Z.leb_le. lia.
Qed.

Lemma select_per_group_dates events :
  map date (select_per_group events) = group_keys events.
Proof.
  unfold select_per_group. rewrite map_map. cbn [date]. apply map_id.
Qed.

Lemma ordered_report_dates_NoDup events :
  NoDup (map date (ORDER_BY_date_DESC (select_per_group events))).
Proof.
  unfold ORDER_BY_date_DESC.
  eapply Permutation_NoDup.
  - apply Permutation_map. apply DateDescSort.Permuted_sort.
  - rewrite select_per_group_dates. unfold group_keys. apply NoDup_nodup.
Qed.

(** A list sorted by [>=] on its keys whose keys are pairwise distinct is
    sorted by [>]. *)
Lemma descending_and_distinct_is_strict (rs : list LoginsRow) :
  StronglySorted (fun a b => is_true (DateDesc.leb a b)) rs ->
  NoDup (map date rs) ->
  strictly_descending (map date rs).
Proof.
  unfold strictly_descending.
  induction rs as [|r rs IH]; intros Hs Hn; cbn; [constructor|].
  apply StronglySorted_inv in Hs. destruct Hs as [Hs Hall].
  cbn in Hn. apply NoDup_cons_iff in Hn. destruct Hn as [Hnotin Hn].
  constructor; [now apply IH|].
  rewrite Forall_forall in Hall |- *.
  intros d Hd. apply in_map_iff in Hd. destruct Hd as (r' & <- & Hr').
  specialize (Hall r' Hr'). unfold DateDesc.leb, is_true in Hall.
  apply Z.leb_le in Hall.
  assert (date r' <> date r).
  { intros E. apply Hnotin. rewrite <- E. now apply in_map. }
  lia.
Qed.

Lemma strictly_descending_firstn n (l : list Z) :
  strictly_descending l -> strictly_descending (firstn n l).
Proof.
  unfold strictly_descending. revert l.
  induction n as [|n IH]; intros l Hs; [constructor|].
  destruct l as [|x l]; [constructor|].
  apply StronglySorted_inv in Hs. destruct Hs as [Hs Hall].
  cbn. constructor; [now apply IH|].
  rewrite Forall_forall in Hall |- *.
  intros y Hy. apply Hall. rewrite <- (firstn_skipn n l).
  apply in_or_app. now left.
Qed.

Lemma In_firstn {A} n (l : list A) x : In x (firstn n l) -> In x l.
Proof.
  intros H. rewrite <- (firstn_skipn n l). apply in_or_app. now left.
Qed.

Lemma COUNT_DISTINCT_per_group d events :
  distinct_users_on d events
    (COUNT_DISTINCT (map login_events.user_id (group_of d events))).
Proof.
  exists (nodup string_dec (map login_events.user_id (group_of d events))).
  split; [apply NoDup_nodup|]. split; [|reflexivity].
  intros u. rewrite nodup_In, in_map_iff. unfold group_of.
  split.
  - intros (e & Hu & He). apply filter_In in He. destruct He as [He Hd].
    exists e. repeat split; [assumption.. | now apply Z.eqb_eq].
  - intros (e & He & Hu & Hd). exists e. split; [exact Hu|].
    apply filter_In. split; [exact He | now apply Z.eqb_eq].
Qed.

(** What the store answers to the report statement. *)
Lemma unique_logins_rows_spec events :
  List.length (unique_logins_rows events) <= 30
  /\ strictly_descending (map date (unique_logins_rows events))
  /\ (forall r, In r (unique_logins_rows events) ->
                distinct_users_on (date r) events (unique_logins r)).
Proof.
  unfold unique_logins_rows, LIMIT. split; [apply firstn_le_length|]. split.
  - rewrite <- firstn_map. apply strictly_descending_firstn.
    apply descending_and_distinct_is_strict.
    + apply DateDescSort.StronglySorted_sort, DateDesc_leb_trans.
    + apply ordered_report_dates_NoDup.
  - intros r Hr. apply In_firstn in Hr.
    unfold ORDER_BY_date_DESC in Hr.
    apply (Permutation_in _ (Permutation_sym (DateDescSort.Permuted_sort _))) in Hr.
    unfold select_per_group in Hr. apply in_map_iff in Hr.
    destruct Hr as (d & <- & _). cbn [date unique_logins].
    apply COUNT_DISTINCT_per_group.
Qed.

(** C8 — [getUniqueLoginsPerDay] called by an admin, the store answering:
    it returns at most 30 rows, their dates strictly descending, each
    row's count being the number of distinct user identifiers with at
    least one login event on that date; the store is not modified. *)
Theorem getUniqueLoginsPerDay_report :
  forall env w ctx caller,
    healthy env ->
    admin_session ctx caller ->
    exists (report : list LoginsRow) (w' : World),
      getUniqueLoginsPerDay ctx env w = (Return report, w')
      /\ w_db w' = w_db w
      /\ List.length report <= 30
      /\ strictly_descending (map date report)
      /\ (forall r, In r report ->
                    distinct_users_on (date r) (db_login_events (w_db w)) (unique_logins r)).
Proof.
  intros env w ctx caller Hh Ha.
  exists (unique_logins_rows (db_login_events (w_db w))).
  unfold getUniqueLoginsPerDay. rewrite (admin_session_passes_guard _ _ Ha).
  run Hh. eexists. split; [reflexivity|]. split; [reflexivity|].
  apply unique_logins_rows_spec.
Qed.

Lemma getUniqueLoginsPerDay_report_witness :
  (healthy Sample.env /\ admin_session Sample.admin_ctx Sample.admin)
  /\
  exists (report : list LoginsRow) (w' : World),
    getUniqueLoginsPerDay Sample.admin_ctx Sample.env Sample.world = (Return report, w')
    /\ List.length report <= 30
    /\ strictly_descending (map date report)
    /\ (forall r, In r report ->
                  distinct_users_on (date r) (db_login_events (w_db Sample.world))
                    (unique_logins r)).
Proof.
  assert (Hh : healthy Sample.env) by (intro n; reflexivity).
  assert (Ha : admin_session Sample.admin_ctx Sample.admin) by (split; reflexivity).
  split; [split; assumption|].
  destruct (getUniqueLoginsPerDay_report Sample.env Sample.world Sample.admin_ctx
              Sample.admin Hh Ha)
    as (report & w' & Hrun & _ & Hlen & Hdesc & Hcount).
  exists report, w'. repeat (split; [assumption|]). exact Hcount.
Defined.

(** The report on the sample log: three days, newest first. *)
Example unique_logins_rows_sample :
  unique_logins_rows (db_login_events Sample.db)
  = [ {| date := 10; unique_logins := 1 |};
      {| date := 1; unique_logins := 2 |};
      {| date := 0; unique_logins := 1 |} ].
Proof. vm_compute. reflexivity. Qed.

(** * Beyond the specification's claims *)

(** ** Exploring a procedure under any collaborator behaviour *)

(** [explore env]: execute a procedure, splitting on what the schema
    finds, on every collaborator call that may fail and on every lookup. *)
Ltac explore env :=
  expose;
  repeat (crunch;
    match goal with
    | |- context [createOrg_schema ?i env] =>
        let F := fresh "Hparse" in destruct (createOrg_schema i env) eqn:F
    | |- context [createUser_schema ?i env] =>
        let F := fresh "Hparse" in destruct (createUser_schema i env) eqn:F
    | |- context [inviteUser_schema ?i env] =>
        let F := fresh "Hparse" in destruct (inviteUser_schema i env) eqn:F
    | |- context [env_fails env ?n] =>
        let F := fresh "Hfail" in destruct (env_fails env n) eqn:F
    | |- context [find ?p ?l] =>
        let F := fresh "Hfind" in destruct (find p l) eqn:F
    | |- context [ctx_session_user ?c] =>
        let F := fresh "Hsess" in destruct (ctx_session_user c) eqn:F
    | |- context [str_eq ?a ?b] =>
        let F := fresh "Hcmp" in destruct (str_eq a b) eqn:F
    end);
  crunch.

(** [run_faults]: execute with the failures the context fixes. *)
Ltac run_faults :=
  expose;
  repeat (progress (crunch;
                    repeat match goal with
                           | H : env_fails _ _ = _ |- _ => rewrite H
                           end)).

(** [ticks Hok n]: the first [n] instances of [Hok : calls_succeed env w _]. *)
Ltac ticks Hok n :=
  let rec go k :=
    lazymatch k with
    | O => idtac
    | S ?k' =>
        let F := fresh "Hok" in
        assert (F := Hok k' ltac:(lia)); cbn [Nat.add] in F; go k'
    end in
  go n.

Ltac enter_procedure :=
  unfold adminRouter;
  first [ progress unfold getUsers | progress unfold getOrgs
        | progress unfold createOrg; unfold with_input, createOrg_mutation
        | progress unfold createUser; unfold with_input, createUser_mutation
        | progress unfold inviteUser; unfold with_input, inviteUser_mutation
        | progress unfold removeUser | progress unfold getUniqueLoginsPerDay ].

(** [enter_valid Hv]: the same for a call whose input is valid by [Hv]; the
    procedure is replaced by its resolver. *)
Ltac enter_valid Hv :=
  unfold adminRouter, fmap, bind; cbn [valid_input] in Hv;
  first [ progress unfold getUsers | progress unfold getOrgs
        | rewrite createOrg_on_valid by exact Hv; unfold createOrg_mutation
        | rewrite createUser_on_valid by exact Hv; unfold createUser_mutation
        | rewrite inviteUser_on_valid by exact Hv; unfold inviteUser_mutation
        | progress unfold removeUser | progress unfold getUniqueLoginsPerDay ].

Ltac db_simpl :=
  unfold add_org, add_user, add_account, add_verification, drop_members, drop_accounts,
    drop_user in *;
  cbn [set_rows db_users db_orgs db_accounts db_verifications db_communityMembers
       db_login_events] in *.

Section LookupFacts.
Context {R : Type} (column : R -> string).

Lemma find_eq_Some_inv (v : string) (l : list R) (r : R) :
  find (drizzle.eq column v) l = Some r -> In r l /\ column r = v.
Proof.
  intros E. apply find_some in E. destruct E as [Hin Hv].
  split; [exact Hin | now apply String.eqb_eq].
Qed.

Lemma find_eq_None_not_exists (v : string) (l : list R) :
  find (drizzle.eq column v) l = None -> ~ exists r, In r l /\ column r = v.
Proof.
  intros E (r & Hin & Hv). exact (find_eq_None_inv column v l E r Hin Hv).
Qed.

End LookupFacts.

Ltac unfind :=
  repeat match goal with
         | H : find (drizzle.eq _ _) _ = Some _ |- _ =>
             apply find_eq_Some_inv in H; destruct H
         | H : find (drizzle.eq _ _) _ = None |- _ =>
             apply find_eq_None_not_exists in H
         end.

Ltac uncmp :=
  repeat match goal with
         | H : str_eq _ _ = true |- _ => unfold str_eq in H; apply String.eqb_eq in H
         | H : str_eq _ _ = false |- _ => unfold str_eq in H; apply String.eqb_neq in H
         end.

Ltac leaf :=
  unfind; uncmp; unfold org_exists, email_taken, user_exists, org_named in *;
  repeat split; intros;
  try discriminate;
  repeat match goal with
         | H : Return _ = Return _ |- _ => inversion H; subst; clear H
         | H : Throw _ = Throw _ |- _ => inversion H; subst; clear H
         | H : Some _ = Some _ |- _ => inversion H; subst; clear H
         end;
  try solve [eauto 8 | congruence].

(** Facts about the fixtures. *)
Lemma Sample_healthy : healthy Sample.env.
Proof. intro n. reflexivity. Qed.

Lemma Sample_admin : admin_session Sample.admin_ctx Sample.admin.
Proof. split; reflexivity. Qed.

Lemma Sample_org : org_exists "o1" (w_db Sample.world).
Proof. eexists. split; [left; reflexivity | reflexivity]. Qed.

Lemma Sample_new_user : valid_createUser_input Sample.env (Sample.new_user "a@x.com" "o1").
Proof. apply Sample_new_user_valid. reflexivity. Qed.

Lemma Sample_invitation :
  valid_inviteUser_input Sample.env (Sample.invitation "a@x.com" "o1").
Proof. reflexivity. Qed.

Lemma Sample_free_email : ~ email_taken "a@x.com" (w_db Sample.world).
Proof. intros (u & [<-|[<-|[]]] & E); discriminate E. Qed.

Lemma Sample_bob_exists : user_exists "u2" (w_db Sample.world).
Proof. exists Sample.bob. split; [right; left; reflexivity | reflexivity]. Qed.

(** ** Failures *)

(** X1 — whatever the caller and whatever the collaborators do, a failure
    of a router procedure is a [TRPCError] whose code is one the procedure
    can fail with; a [BAD_REQUEST] means the input did not pass the
    procedure's schema, and an [INTERNAL_SERVER_ERROR] carries the
    procedure's fixed message: the error raised by a collaborator never
    reaches the caller. *)
Theorem adminRouter_failures_are_typed :
  forall p ctx env w e w',
    adminRouter p ctx env w = (Throw e, w') ->
    exists code message,
      e = TRPCError code message
      /\ In code (failure_codes p)
      /\ (code = BAD_REQUEST -> ~ valid_input env p)
      /\ (code = INTERNAL_SERVER_ERROR -> message = internal_message p).
Proof.
  intros p ctx env w e w'.
  destruct p; enter_procedure.
  all: destruct (not_admin ctx) eqn:Hg.
  all: explore env; intros E; inversion E; subst; clear E.
  all: do 2 eexists; split; [reflexivity|]; split; [cbn; tauto|]; split.
  all: first [ discriminate | reflexivity | intros _ Hv; cbn [valid_input] in Hv ].
  all: first [ apply (proj2 (createOrg_schema_accepts env _)) in Hv
             | apply (proj2 (createUser_schema_accepts env _)) in Hv
             | apply (proj2 (inviteUser_schema_accepts env _)) in Hv ];
       congruence.
Qed.

Lemma adminRouter_failures_are_typed_witness :
  fst (adminRouter (call_createUser (Sample.new_user "a@x.com" "o1")) Sample.admin_ctx
         (Sample.env_failing_at 4) Sample.world)
  = Throw (TRPCError INTERNAL_SERVER_ERROR "Failed to create user")
  /\ exists code message,
       TRPCError INTERNAL_SERVER_ERROR "Failed to create user" = TRPCError code message
       /\ In code (failure_codes (call_createUser (Sample.new_user "a@x.com" "o1")))
       /\ (code = BAD_REQUEST ->
           ~ valid_input (Sample.env_failing_at 4)
               (call_createUser (Sample.new_user "a@x.com" "o1")))
       /\ (code = INTERNAL_SERVER_ERROR ->
           message = internal_message (call_createUser (Sample.new_user "a@x.com" "o1"))).
Proof.
  split; [vm_compute; reflexivity|].
  eapply (adminRouter_failures_are_typed
            (call_createUser (Sample.new_user "a@x.com" "o1")) Sample.admin_ctx
            (Sample.env_failing_at 4) Sample.world).
  vm_compute. reflexivity.
Defined.

Lemma guard_passed_never_unauthorized p ctx env w message w' :
  not_admin ctx = false ->
  adminRouter p ctx env w <> (Throw (TRPCError UNAUTHORIZED message), w').
Proof.
  intros Hg.
  destruct p; enter_procedure.
  all: rewrite Hg.
  all: explore env; intros E; inversion E.
Qed.

(** X2 — an admin is never answered [UNAUTHORIZED], by any procedure,
    whatever the collaborators do. *)
Theorem admin_never_unauthorized :
  forall p ctx caller env w message w',
    admin_session ctx caller ->
    adminRouter p ctx env w <> (Throw (TRPCError UNAUTHORIZED message), w').
Proof.
  intros p ctx caller env w message w' Ha.
  apply guard_passed_never_unauthorized. exact (admin_session_passes_guard _ _ Ha).
Qed.

Lemma admin_never_unauthorized_witness :
  admin_session Sample.admin_ctx Sample.admin
  /\ adminRouter (call_removeUser (Sample.removal "u1")) Sample.admin_ctx
       (Sample.env_failing_at 0) Sample.world
     <> (Throw (TRPCError UNAUTHORIZED "Only admins can remove users"), Sample.world).
Proof.
  split; [exact Sample_admin|].
  exact (admin_never_unauthorized (call_removeUser (Sample.removal "u1")) Sample.admin_ctx
           Sample.admin (Sample.env_failing_at 0) Sample.world _ _ Sample_admin).
Defined.

(** X3 — a failure other than [INTERNAL_SERVER_ERROR] (so [BAD_REQUEST],
    [UNAUTHORIZED], [NOT_FOUND], [CONFLICT] or [FORBIDDEN]) has written
    nothing and sent nothing, whatever the collaborators do. *)
Theorem typed_rejections_never_write :
  forall p ctx env w code message w',
    adminRouter p ctx env w = (Throw (TRPCError code message), w') ->
    code <> INTERNAL_SERVER_ERROR ->
    w_db w' = w_db w /\ w_outbox w' = w_outbox w.
Proof.
  intros p ctx env w code message w'.
  destruct p; enter_procedure.
  all: destruct (not_admin ctx) eqn:Hg.
  all: explore env; intros E Hne; inversion E; subst; clear E; crunch.
  all: first [ now split | now elim Hne ].
Qed.

Lemma typed_rejections_never_write_witness :
  exists w',
    adminRouter (call_removeUser (Sample.removal "u1")) Sample.admin_ctx Sample.env
      Sample.world
    = (Throw (TRPCError FORBIDDEN "You cannot remove yourself"), w')
    /\ FORBIDDEN <> INTERNAL_SERVER_ERROR
    /\ w_db w' = w_db Sample.world /\ w_outbox w' = w_outbox Sample.world.
Proof.
  eexists. split; [vm_compute; reflexivity|].
  assert (Hne : FORBIDDEN <> INTERNAL_SERVER_ERROR) by discriminate.
  split; [exact Hne|].
  exact (typed_rejections_never_write (call_removeUser (Sample.removal "u1"))
           Sample.admin_ctx Sample.env Sample.world FORBIDDEN _ _ eq_refl Hne).
Defined.

(** X4 — when the store does not answer the first statement of an admin's
    call whose input passed the schema, every procedure reports
    [INTERNAL_SERVER_ERROR] with its fixed message, logs one line to the
    console, and has written and sent nothing. *)
Theorem store_outage_reported_as_internal :
  forall p ctx caller env w,
    admin_session ctx caller ->
    valid_input env p ->
    env_fails env (w_tick w) = true ->
    exists w' line,
      adminRouter p ctx env w
      = (Throw (TRPCError INTERNAL_SERVER_ERROR (internal_message p)), w')
      /\ w_db w' = w_db w
      /\ w_outbox w' = w_outbox w
      /\ w_console w' = (w_console w ++ [line])%list.
Proof.
  intros p ctx caller env w Ha Hv Hdown.
  pose proof (admin_session_passes_guard _ _ Ha) as Hg.
  destruct p; enter_valid Hv; rewrite Hg; run_faults.
  all: do 2 eexists; split; [reflexivity|]; repeat split; reflexivity.
Qed.

Lemma store_outage_reported_as_internal_witness :
  (admin_session Sample.admin_ctx Sample.admin
   /\ valid_input (Sample.env_failing_at 0)
        (call_createUser (Sample.new_user "a@x.com" "o1"))
   /\ env_fails (Sample.env_failing_at 0) (w_tick Sample.world) = true)
  /\ exists w' line,
       adminRouter (call_createUser (Sample.new_user "a@x.com" "o1")) Sample.admin_ctx
         (Sample.env_failing_at 0) Sample.world
       = (Throw (TRPCError INTERNAL_SERVER_ERROR "Failed to create user"), w')
       /\ w_db w' = w_db Sample.world
       /\ w_outbox w' = w_outbox Sample.world
       /\ w_console w' = (w_console Sample.world ++ [line])%list.
Proof.
  split; [split; [exact Sample_admin | split; [exact Sample_new_user | reflexivity]]|].
  exact (store_outage_reported_as_internal
           (call_createUser (Sample.new_user "a@x.com" "o1")) Sample.admin_ctx Sample.admin
           (Sample.env_failing_at 0) Sample.world Sample_admin Sample_new_user eq_refl).
Defined.

(** X30 — a call is answered [BAD_REQUEST] exactly when its input does not
    pass the procedure's schema, whoever the caller is, an admin included:
    on such an input the answer carries zod's message for the issues found
    and the world is left exactly as it was (the resolver has not run);
    on an input that passes, no outcome is a [BAD_REQUEST], whatever the
    collaborators do. *)
Theorem bad_request_exactly_on_invalid_input :
  forall p ctx env w,
    (~ valid_input env p ->
     exists issues,
       issues <> []
       /\ adminRouter p ctx env w
          = (Throw (TRPCError BAD_REQUEST (zod_message env issues)), w))
    /\ (valid_input env p ->
        forall message w',
          adminRouter p ctx env w <> (Throw (TRPCError BAD_REQUEST message), w')).
Proof.
  intros p ctx env w. split.
  - intros Hv.
    destruct p; cbn [valid_input] in Hv; try (now elim Hv);
      unfold adminRouter, fmap, bind.
    + unfold createOrg. rewrite with_input_rejected.
      * eexists. split; [|reflexivity]. now rewrite createOrg_schema_accepts.
      * now rewrite createOrg_schema_accepts.
    + unfold createUser. rewrite with_input_rejected.
      * eexists. split; [|reflexivity]. now rewrite createUser_schema_accepts.
      * now rewrite createUser_schema_accepts.
    + unfold inviteUser. rewrite with_input_rejected.
      * eexists. split; [|reflexivity]. now rewrite inviteUser_schema_accepts.
      * now rewrite inviteUser_schema_accepts.
  - intros Hv message w'.
    destruct p; enter_valid Hv.
    all: destruct (not_admin ctx) eqn:Hg.
    all: explore env; intros E; inversion E.
Qed.

Lemma bad_request_exactly_on_invalid_input_witness :
  (~ valid_input Sample.env (call_createUser Demo.short_password_user)
   /\ valid_input Sample.env (call_createUser (Sample.new_user "a@x.com" "o1")))
  /\ (exists issues,
        issues <> []
        /\ adminRouter (call_createUser Demo.short_password_user) Sample.admin_ctx
             Sample.env Sample.world
           = (Throw (TRPCError BAD_REQUEST (zod_message Sample.env issues)), Sample.world))
  /\ (forall message w',
        adminRouter (call_createUser (Sample.new_user "a@x.com" "o1")) Sample.admin_ctx
          Sample.env Sample.world
        <> (Throw (TRPCError BAD_REQUEST message), w')).
Proof.
  assert (Hn : ~ valid_input Sample.env (call_createUser Demo.short_password_user)).
  { intros (_ & _ & H). cbn in H. lia. }
  split; [split; [exact Hn | exact Sample_new_user]|]. split.
  - exact (proj1 (bad_request_exactly_on_invalid_input
                    (call_createUser Demo.short_password_user) Sample.admin_ctx
                    Sample.env Sample.world) Hn).
  - exact (proj2 (bad_request_exactly_on_invalid_input
                    (call_createUser (Sample.new_user "a@x.com" "o1")) Sample.admin_ctx
                    Sample.env Sample.world) Sample_new_user).
Defined.

(** ** What a call can touch *)

Lemma grows_refl {A} (l : list A) : grows l l.
Proof. exists []. now rewrite app_nil_r. Qed.

Lemma grows_snoc {A} (l : list A) (x : A) : grows l (l ++ [x]).
Proof. now exists [x]. Qed.

(** X5 — whatever its outcome, a call leaves every table it does not write
    to exactly as it was: the queries change no table, [createOrg] only
    [orgs], [createUser] only [users] and [accounts], [inviteUser] only
    [verifications], [removeUser] only the membership, account and user
    tables; no call changes the login events, and only [inviteUser] sends
    email. *)
Theorem adminRouter_frame :
  forall p ctx env w r w',
    adminRouter p ctx env w = (r, w') ->
    (forall t, ~ In t (writes p) -> rows t (w_db w') = rows t (w_db w))
    /\ db_login_events (w_db w') = db_login_events (w_db w)
    /\ ((forall input, p <> call_inviteUser input) -> w_outbox w' = w_outbox w).
Proof.
  intros p ctx env w r w'.
  destruct p; enter_procedure.
  all: destruct (not_admin ctx) eqn:Hg.
  all: explore env; intros E; inversion E; subst; clear E; crunch.
  all: split; [|split; [reflexivity|]].
  all: try (intros t Ht; destruct t; cbn [rows db_users db_orgs db_accounts db_verifications
                                          db_communityMembers];
            first [ reflexivity | exfalso; apply Ht; cbn; tauto ]).
  all: try reflexivity.
  all: intros Hp; exfalso; eapply Hp; reflexivity.
Qed.

Lemma adminRouter_frame_witness :
  exists r w',
    adminRouter (call_createUser (Sample.new_user "a@x.com" "o1")) Sample.admin_ctx
      Sample.env Sample.world = (r, w')
    /\ ~ In Orgs (writes (call_createUser (Sample.new_user "a@x.com" "o1")))
    /\ rows Orgs (w_db w') = rows Orgs (w_db Sample.world)
    /\ db_login_events (w_db w') = db_login_events (w_db Sample.world)
    /\ w_outbox w' = w_outbox Sample.world.
Proof.
  do 2 eexists. split; [vm_compute; reflexivity|].
  assert (Hnot : ~ In Orgs (writes (call_createUser (Sample.new_user "a@x.com" "o1")))).
  { intros [H|[H|[]]]; discriminate H. }
  split; [exact Hnot|].
  destruct (adminRouter_frame (call_createUser (Sample.new_user "a@x.com" "o1"))
              Sample.admin_ctx Sample.env Sample.world _ _ eq_refl) as (Ht & Hl & Ho).
  split; [exact (Ht Orgs Hnot)|]. split; [exact Hl|].
  apply Ho. intros input H. discriminate H.
Defined.

(** X6 — only [removeUser] deletes: after any other call, whatever its
    outcome, every table is the table before with rows appended. *)
Theorem only_removeUser_deletes :
  forall p ctx env w r w',
    adminRouter p ctx env w = (r, w') ->
    (forall input, p <> call_removeUser input) ->
    forall t, grows (rows t (w_db w)) (rows t (w_db w')).
Proof.
  intros p ctx env w r w'.
  destruct p; enter_procedure.
  all: destruct (not_admin ctx) eqn:Hg.
  all: explore env; intros E Hp t; inversion E; subst; clear E; crunch.
  all: try (exfalso; eapply Hp; reflexivity).
  all: destruct t; cbn [rows db_users db_orgs db_accounts db_verifications
                        db_communityMembers];
       first [ apply grows_refl | apply grows_snoc ].
Qed.

Lemma only_removeUser_deletes_witness :
  exists r w',
    adminRouter (call_inviteUser (Sample.invitation "new@x.com" "o1")) Sample.admin_ctx
      (Sample.env_failing_at 7) Sample.world = (r, w')
    /\ (forall input,
          call_inviteUser (Sample.invitation "new@x.com" "o1") <> call_removeUser input)
    /\ forall t, grows (rows t (w_db Sample.world)) (rows t (w_db w')).
Proof.
  do 2 eexists. split; [vm_compute; reflexivity|].
  assert (Hp : forall input,
             call_inviteUser (Sample.invitation "new@x.com" "o1") <> call_removeUser input)
    by (intros input H; discriminate H).
  split; [exact Hp|].
  exact (only_removeUser_deletes (call_inviteUser (Sample.invitation "new@x.com" "o1"))
           Sample.admin_ctx (Sample.env_failing_at 7) Sample.world _ _ eq_refl Hp).
Defined.

(** ** What an outcome tells

    The claims say which outcome a situation gives when the collaborators
    answer; the theorems below go the other way and hold whatever the
    collaborators do. *)

(** X7 — [createOrg]: a [CONFLICT] means an organization of exactly this
    name is in the store; a returned value means none was, and it is the
    organization of this name that was appended. *)
Theorem createOrg_outcome_sound :
  forall input ctx env w r w',
    createOrg input ctx env w = (r, w') ->
    (forall message, r = Throw (TRPCError CONFLICT message) ->
       org_named (createOrgInput.name input) (w_db w))
    /\ (forall answer, r = Return answer ->
          ~ org_named (createOrgInput.name input) (w_db w)
          /\ exists o, answer = Some o
                       /\ orgs.name o = createOrgInput.name input
                       /\ w_db w' = add_org o (w_db w)).
Proof.
  intros input ctx env w r w'. unfold createOrg, with_input, createOrg_mutation.
  destruct (not_admin ctx) eqn:Hg.
  all: explore env; intros E; inversion E; subst; clear E; crunch; leaf.
Qed.

Lemma createOrg_outcome_sound_witness :
  exists w',
    createOrg (Sample.new_org "Acme") Sample.admin_ctx Sample.env Sample.world
    = (Throw (TRPCError CONFLICT "An organization with this name already exists"), w')
    /\ org_named "Acme" (w_db Sample.world).
Proof.
  eexists. split; [vm_compute; reflexivity|].
  exact (proj1 (createOrg_outcome_sound (Sample.new_org "Acme") Sample.admin_ctx
                  Sample.env Sample.world _ _ eq_refl) _ eq_refl).
Defined.

(** X8 — [createUser]: [NOT_FOUND] means no organization has the given
    id; [CONFLICT] means the organization exists and a user has the email;
    a returned value means the organization existed, the email was free,
    and the store gained exactly the returned user, carrying that email
    and organization, and one account of that user. *)
Theorem createUser_outcome_sound :
  forall input ctx env w r w',
    createUser input ctx env w = (r, w') ->
    (forall message, r = Throw (TRPCError NOT_FOUND message) ->
       ~ org_exists (createUserInput.orgId input) (w_db w))
    /\ (forall message, r = Throw (TRPCError CONFLICT message) ->
          org_exists (createUserInput.orgId input) (w_db w)
          /\ email_taken (createUserInput.email input) (w_db w))
    /\ (forall answer, r = Return answer ->
          org_exists (createUserInput.orgId input) (w_db w)
          /\ ~ email_taken (createUserInput.email input) (w_db w)
          /\ exists u a, answer = Some u
                         /\ users.email u = createUserInput.email input
                         /\ users.orgId u = createUserInput.orgId input
                         /\ accounts.userId a = users.id u
                         /\ w_db w' = add_account a (add_user u (w_db w))).
Proof.
  intros input ctx env w r w'. unfold createUser, with_input, createUser_mutation.
  destruct (not_admin ctx) eqn:Hg.
  all: explore env; intros E; inversion E; subst; clear E; crunch; leaf.
  do 2 eexists. split; [reflexivity|]. cbn. repeat split; reflexivity.
Qed.

Lemma createUser_outcome_sound_witness :
  exists answer w',
    createUser (Sample.new_user "a@x.com" "o1") Sample.admin_ctx Sample.env Sample.world
    = (Return answer, w')
    /\ org_exists "o1" (w_db Sample.world)
    /\ ~ email_taken "a@x.com" (w_db Sample.world)
    /\ exists u a, answer = Some u
                   /\ users.email u = "a@x.com"
                   /\ users.orgId u = "o1"
                   /\ accounts.userId a = users.id u
                   /\ w_db w' = add_account a (add_user u (w_db Sample.world)).
Proof.
  do 2 eexists. split; [vm_compute; reflexivity|].
  exact (proj2 (proj2 (createUser_outcome_sound (Sample.new_user "a@x.com" "o1")
                         Sample.admin_ctx Sample.env Sample.world _ _ eq_refl))
           _ eq_refl).
Defined.

(** X9 — [inviteUser]: a returned value means the organization existed
    and no user had the email, the answer names the invited email, and the
    call added exactly one verification addressed to it and sent exactly
    one message to it. *)
Theorem inviteUser_outcome_sound :
  forall input ctx env w r w',
    inviteUser input ctx env w = (r, w') ->
    forall answer, r = Return answer ->
      org_exists (inviteUserInput.orgId input) (w_db w)
      /\ ~ email_taken (inviteUserInput.email input) (w_db w)
      /\ invite_email answer = inviteUserInput.email input
      /\ exists v m,
           verifications.identifier v = inviteUserInput.email input
           /\ to m = inviteUserInput.email input
           /\ w_db w' = add_verification v (w_db w)
           /\ w_outbox w' = (w_outbox w ++ [m])%list.
Proof.
  intros input ctx env w r w'. unfold inviteUser, with_input, inviteUser_mutation.
  destruct (not_admin ctx) eqn:Hg.
  all: explore env; intros E; inversion E; subst; clear E; crunch; leaf.
  do 2 eexists. split; [|split; [|split; [reflexivity|reflexivity]]]; reflexivity.
Qed.

Lemma inviteUser_outcome_sound_witness :
  exists answer w',
    inviteUser (Sample.invitation "new@x.com" "o1") Sample.admin_ctx Sample.env Sample.world
    = (Return answer, w')
    /\ org_exists "o1" (w_db Sample.world)
    /\ ~ email_taken "new@x.com" (w_db Sample.world)
    /\ invite_email answer = "new@x.com"
    /\ exists v m,
         verifications.identifier v = "new@x.com"
         /\ to m = "new@x.com"
         /\ w_db w' = add_verification v (w_db Sample.world)
         /\ w_outbox w' = (w_outbox Sample.world ++ [m])%list.
Proof.
  do 2 eexists. split; [vm_compute; reflexivity|].
  exact (inviteUser_outcome_sound (Sample.invitation "new@x.com" "o1") Sample.admin_ctx
           Sample.env Sample.world _ _ eq_refl _ eq_refl).
Defined.

Lemma removeUser_forbidden_only_for_self input ctx env w message w' :
  removeUser input ctx env w = (Throw (TRPCError FORBIDDEN message), w') ->
  exists caller, ctx_session_user ctx = Some caller
                 /\ su_id caller = removeUserInput.userId input.
Proof.
  unfold removeUser.
  destruct (not_admin ctx) eqn:Hg.
  all: explore env; intros E; inversion E; subst; clear E; unfind; uncmp.
  eexists. split; [reflexivity | congruence].
Qed.

(** X10 — [removeUser]: [NOT_FOUND] means no user has the id;
    [FORBIDDEN] means the user exists and the id is the caller's own; a
    returned value means the user existed, was not the caller, and the
    store lost exactly that user's memberships, accounts and user row. *)
Theorem removeUser_outcome_sound :
  forall input ctx env w r w',
    removeUser input ctx env w = (r, w') ->
    (forall message, r = Throw (TRPCError NOT_FOUND message) ->
       ~ user_exists (removeUserInput.userId input) (w_db w))
    /\ (forall message, r = Throw (TRPCError FORBIDDEN message) ->
          user_exists (removeUserInput.userId input) (w_db w)
          /\ exists caller, ctx_session_user ctx = Some caller
                            /\ su_id caller = removeUserInput.userId input)
    /\ (forall answer, r = Return answer ->
          user_exists (removeUserInput.userId input) (w_db w)
          /\ (forall caller, ctx_session_user ctx = Some caller ->
                             su_id caller <> removeUserInput.userId input)
          /\ w_db w'
             = drop_user (removeUserInput.userId input)
                 (drop_accounts (removeUserInput.userId input)
                    (drop_members (removeUserInput.userId input) (w_db w)))).
Proof.
  intros input ctx env w r w'. unfold removeUser.
  destruct (not_admin ctx) eqn:Hg.
  all: explore env; intros E; inversion E; subst; clear E; crunch; leaf.
  eexists. split; [reflexivity | congruence].
Qed.

Lemma removeUser_outcome_sound_witness :
  exists w',
    removeUser (Sample.removal "u1") Sample.admin_ctx Sample.env Sample.world
    = (Throw (TRPCError FORBIDDEN "You cannot remove yourself"), w')
    /\ user_exists "u1" (w_db Sample.world)
    /\ exists caller, ctx_session_user Sample.admin_ctx = Some caller
                      /\ su_id caller = "u1".
Proof.
  eexists. split; [vm_compute; reflexivity|].
  exact (proj1 (proj2 (removeUser_outcome_sound (Sample.removal "u1") Sample.admin_ctx
                         Sample.env Sample.world _ _ eq_refl)) _ eq_refl).
Defined.

(** ** Calls interrupted by a failing collaborator *)

(** X11 — [createUser], on an input that passed the schema, whose second
    insert fails: the call reports [INTERNAL_SERVER_ERROR], yet the user
    row inserted before stays in the store, without any account. *)
Theorem createUser_account_failure_leaves_user :
  forall env w input ctx caller,
    admin_session ctx caller ->
    valid_createUser_input env input ->
    org_exists (createUserInput.orgId input) (w_db w) ->
    ~ email_taken (createUserInput.email input) (w_db w) ->
    calls_succeed env w 7 ->
    env_fails env (7 + w_tick w) = true ->
    exists u w',
      createUser input ctx env w
      = (Throw (TRPCError INTERNAL_SERVER_ERROR "Failed to create user"), w')
      /\ users.email u = createUserInput.email input
      /\ db_users (w_db w') = (db_users (w_db w) ++ [u])%list
      /\ db_accounts (w_db w') = db_accounts (w_db w).
Proof.
  intros env w input ctx caller Ha Hv Horg Hfree Hok Hfail.
  ticks Hok 7. cbn [Nat.add] in Hfail.
  destruct (find_eq_Some orgs.id _ _ Horg) as (o & Ho & _).
  pose proof (free_email_lookup _ _ Hfree) as Hu.
  rewrite createUser_on_valid by exact Hv.
  unfold createUser_mutation. rewrite (admin_session_passes_guard _ _ Ha).
  run_faults. rewrite Ho. run_faults. rewrite Hu. run_faults.
  eexists {| users.id := _ |}. eexists. split; [reflexivity|].
  repeat split; reflexivity.
Qed.

Lemma Sample_seven_calls_then_failure :
  calls_succeed (Sample.env_failing_at 7) Sample.world 7
  /\ env_fails (Sample.env_failing_at 7) (7 + w_tick Sample.world) = true.
Proof.
  split; [|reflexivity].
  intros k Hk. cbn. rewrite Nat.add_0_r. apply Nat.eqb_neq. lia.
Qed.

Lemma createUser_account_failure_leaves_user_witness :
  (admin_session Sample.admin_ctx Sample.admin
   /\ valid_createUser_input (Sample.env_failing_at 7) (Sample.new_user "a@x.com" "o1")
   /\ org_exists "o1" (w_db Sample.world)
   /\ ~ email_taken "a@x.com" (w_db Sample.world)
   /\ calls_succeed (Sample.env_failing_at 7) Sample.world 7
   /\ env_fails (Sample.env_failing_at 7) (7 + w_tick Sample.world) = true)
  /\ exists u w',
       createUser (Sample.new_user "a@x.com" "o1") Sample.admin_ctx
         (Sample.env_failing_at 7) Sample.world
       = (Throw (TRPCError INTERNAL_SERVER_ERROR "Failed to create user"), w')
       /\ users.email u = "a@x.com"
       /\ db_users (w_db w') = (db_users (w_db Sample.world) ++ [u])%list
       /\ db_accounts (w_db w') = db_accounts (w_db Sample.world).
Proof.
  destruct Sample_seven_calls_then_failure as [Hok Hfail].
  split; [repeat (split; [first [exact Sample_admin | exact Sample_new_user
                                       | exact Sample_org | exact Sample_free_email
                                       | exact Hok]|]); exact Hfail|].
  exact (createUser_account_failure_leaves_user (Sample.env_failing_at 7) Sample.world
           (Sample.new_user "a@x.com" "o1") Sample.admin_ctx Sample.admin
           Sample_admin Sample_new_user Sample_org Sample_free_email Hok Hfail).
Defined.

(** X12 — [inviteUser], on an input that passed the schema, whose email
    dispatch fails: the call reports [INTERNAL_SERVER_ERROR] and no message
    is recorded, yet the invitation inserted before stays in the store. *)
Theorem inviteUser_dispatch_failure_keeps_invitation :
  forall env w input ctx caller,
    admin_session ctx caller ->
    valid_inviteUser_input env input ->
    org_exists (inviteUserInput.orgId input) (w_db w) ->
    ~ email_taken (inviteUserInput.email input) (w_db w) ->
    calls_succeed env w 7 ->
    env_fails env (7 + w_tick w) = true ->
    exists v w',
      inviteUser input ctx env w
      = (Throw (TRPCError INTERNAL_SERVER_ERROR "Failed to send invitation"), w')
      /\ verifications.identifier v = inviteUserInput.email input
      /\ db_verifications (w_db w') = (db_verifications (w_db w) ++ [v])%list
      /\ w_outbox w' = w_outbox w.
Proof.
  intros env w input ctx caller Ha Hv Horg Hfree Hok Hfail.
  ticks Hok 7. cbn [Nat.add] in Hfail.
  destruct (find_eq_Some orgs.id _ _ Horg) as (o & Ho & _).
  pose proof (free_email_lookup _ _ Hfree) as Hu.
  rewrite inviteUser_on_valid by exact Hv.
  unfold inviteUser_mutation. rewrite (admin_session_passes_guard _ _ Ha).
  run_faults. rewrite Ho. run_faults. rewrite Hu. run_faults.
  eexists {| verifications.id := _ |}. eexists. split; [reflexivity|].
  repeat split; reflexivity.
Qed.

Lemma inviteUser_dispatch_failure_keeps_invitation_witness :
  (admin_session Sample.admin_ctx Sample.admin
   /\ valid_inviteUser_input (Sample.env_failing_at 7) (Sample.invitation "a@x.com" "o1")
   /\ org_exists "o1" (w_db Sample.world)
   /\ ~ email_taken "a@x.com" (w_db Sample.world)
   /\ calls_succeed (Sample.env_failing_at 7) Sample.world 7
   /\ env_fails (Sample.env_failing_at 7) (7 + w_tick Sample.world) = true)
  /\ exists v w',
       inviteUser (Sample.invitation "a@x.com" "o1") Sample.admin_ctx
         (Sample.env_failing_at 7) Sample.world
       = (Throw (TRPCError INTERNAL_SERVER_ERROR "Failed to send invitation"), w')
       /\ verifications.identifier v = "a@x.com"
       /\ db_verifications (w_db w') = (db_verifications (w_db Sample.world) ++ [v])%list
       /\ w_outbox w' = w_outbox Sample.world.
Proof.
  destruct Sample_seven_calls_then_failure as [Hok Hfail].
  split; [repeat (split; [first [exact Sample_admin | exact Sample_invitation
                                       | exact Sample_org | exact Sample_free_email
                                       | exact Hok]|]); exact Hfail|].
  exact (inviteUser_dispatch_failure_keeps_invitation (Sample.env_failing_at 7)
           Sample.world (Sample.invitation "a@x.com" "o1") Sample.admin_ctx Sample.admin
           Sample_admin Sample_invitation Sample_org Sample_free_email Hok Hfail).
Defined.

(** X13 — [removeUser] whose last delete fails: the call reports
    [INTERNAL_SERVER_ERROR]; the user's memberships and accounts are gone
    and the user row is still there. *)
Theorem removeUser_interrupted_leaves_user_without_dependents :
  forall env w input ctx caller,
    admin_session ctx caller ->
    user_exists (removeUserInput.userId input) (w_db w) ->
    removeUserInput.userId input <> su_id caller ->
    calls_succeed env w 3 ->
    env_fails env (3 + w_tick w) = true ->
    exists w',
      removeUser input ctx env w
      = (Throw (TRPCError INTERNAL_SERVER_ERROR "Failed to remove user"), w')
      /\ w_db w'
         = drop_accounts (removeUserInput.userId input)
             (drop_members (removeUserInput.userId input) (w_db w))
      /\ user_exists (removeUserInput.userId input) (w_db w').
Proof.
  intros env w input ctx caller Ha Hex Hother Hok Hfail.
  ticks Hok 3. cbn [Nat.add] in Hfail.
  destruct (find_eq_Some users.id _ _ Hex) as (u & Hu & _ & Hid).
  pose proof (admin_session_passes_guard _ _ Ha) as Hg. destruct Ha as [Hcaller _].
  assert (Hrun : exists w',
             removeUser input ctx env w
             = (Throw (TRPCError INTERNAL_SERVER_ERROR "Failed to remove user"), w')
             /\ w_db w'
                = drop_accounts (removeUserInput.userId input)
                    (drop_members (removeUserInput.userId input) (w_db w))).
  { unfold removeUser. rewrite Hg.
    run_faults. rewrite Hu. rewrite Hcaller. crunch. rewrite Hid. unfold str_eq.
    destruct (String.eqb_spec (removeUserInput.userId input) (su_id caller)) as [E|_];
      [contradiction|].
    run_faults. eexists. split; reflexivity. }
  destruct Hrun as (w' & Hrun & Hdb). exists w'. split; [exact Hrun|]. split; [exact Hdb|].
  rewrite Hdb. exact Hex.
Qed.

Lemma removeUser_interrupted_leaves_user_without_dependents_witness :
  (admin_session Sample.admin_ctx Sample.admin
   /\ user_exists "u2" (w_db Sample.world)
   /\ "u2" <> su_id Sample.admin
   /\ calls_succeed (Sample.env_failing_at 3) Sample.world 3
   /\ env_fails (Sample.env_failing_at 3) (3 + w_tick Sample.world) = true)
  /\ exists w',
       removeUser (Sample.removal "u2") Sample.admin_ctx (Sample.env_failing_at 3)
         Sample.world
       = (Throw (TRPCError INTERNAL_SERVER_ERROR "Failed to remove user"), w')
       /\ db_accounts (w_db w') = []
       /\ user_exists "u2" (w_db w').
Proof.
  assert (Hother : "u2" <> su_id Sample.admin) by discriminate.
  assert (Hok : calls_succeed (Sample.env_failing_at 3) Sample.world 3).
  { intros k Hk. cbn. rewrite Nat.add_0_r. apply Nat.eqb_neq. lia. }
  assert (Hfail : env_fails (Sample.env_failing_at 3) (3 + w_tick Sample.world) = true)
    by reflexivity.
  split; [repeat split; first [exact Sample_admin | exact Sample_bob_exists
                               | exact Hother | exact Hok | exact Hfail]|].
  destruct (removeUser_interrupted_leaves_user_without_dependents
              (Sample.env_failing_at 3) Sample.world (Sample.removal "u2")
              Sample.admin_ctx Sample.admin Sample_admin Sample_bob_exists Hother Hok Hfail)
    as (w' & Hrun & Hdb & Hstill).
  exists w'. split; [exact Hrun|]. split; [|exact Hstill].
  rewrite Hdb. reflexivity.
Defined.

(** ** Calls in sequence *)

Lemma createOrg_healthy_run env w input ctx caller :
  healthy env ->
  admin_session ctx caller ->
  valid_createOrg_input input ->
  ~ org_named (createOrgInput.name input) (w_db w) ->
  exists o w',
    createOrg input ctx env w = (Return (Some o), w')
    /\ orgs.id o = env_nanoid env (1 + w_tick w) 21
    /\ orgs.name o = createOrgInput.name input
    /\ w_db w' = add_org o (w_db w).
Proof.
  intros Hh Ha Hv Hno.
  pose proof (no_org_named_lookup _ _ Hno) as Hf.
  rewrite createOrg_on_valid by exact Hv.
  unfold createOrg_mutation. rewrite (admin_session_passes_guard _ _ Ha).
  run Hh. rewrite Hf. run Hh.
  eexists {| orgs.id := _ |}, _. split; [reflexivity|]. repeat split; reflexivity.
Qed.

Lemma createUser_healthy_run env w input ctx caller :
  healthy env ->
  admin_session ctx caller ->
  valid_createUser_input env input ->
  org_exists (createUserInput.orgId input) (w_db w) ->
  ~ email_taken (createUserInput.email input) (w_db w) ->
  exists u a w',
    createUser input ctx env w = (Return (Some u), w')
    /\ users.id u = env_nanoid env (2 + w_tick w) 21
    /\ users.email u = createUserInput.email input
    /\ users.orgId u = createUserInput.orgId input
    /\ accounts.userId a = users.id u
    /\ w_db w' = add_account a (add_user u (w_db w)).
Proof.
  intros Hh Ha Hv Horg Hfree.
  destruct (find_eq_Some orgs.id _ _ Horg) as (o & Ho & _).
  pose proof (free_email_lookup _ _ Hfree) as Hu.
  rewrite createUser_on_valid by exact Hv.
  unfold createUser_mutation. rewrite (admin_session_passes_guard _ _ Ha).
  run Hh. rewrite Ho. run Hh. rewrite Hu. run Hh.
  eexists {| users.id := _ |}, {| accounts.id := _ |}, _.
  split; [reflexivity|]. repeat split; reflexivity.
Qed.

Lemma createUser_conflict_run env w input ctx caller :
  healthy env ->
  admin_session ctx caller ->
  valid_createUser_input env input ->
  org_exists (createUserInput.orgId input) (w_db w) ->
  email_taken (createUserInput.email input) (w_db w) ->
  exists w',
    createUser input ctx env w
    = (Throw (TRPCError CONFLICT "A user with this email already exists"), w')
    /\ w_db w' = w_db w.
Proof.
  intros Hh Ha Hv Horg Hmail.
  destruct (find_eq_Some orgs.id _ _ Horg) as (o & Ho & _).
  destruct (find_eq_Some users.email _ _ Hmail) as (u & Hu & _).
  rewrite createUser_on_valid by exact Hv.
  unfold createUser_mutation. rewrite (admin_session_passes_guard _ _ Ha).
  run Hh. rewrite Ho. run Hh. rewrite Hu. crunch.
  eexists. split; reflexivity.
Qed.

Lemma removeUser_healthy_run env w input ctx caller :
  healthy env ->
  admin_session ctx caller ->
  user_exists (removeUserInput.userId input) (w_db w) ->
  removeUserInput.userId input <> su_id caller ->
  exists w',
    removeUser input ctx env w = (Return {| remove_success := true |}, w')
    /\ w_db w'
       = drop_user (removeUserInput.userId input)
           (drop_accounts (removeUserInput.userId input)
              (drop_members (removeUserInput.userId input) (w_db w))).
Proof.
  intros Hh Ha Hex Hother.
  destruct (find_eq_Some users.id _ _ Hex) as (u & Hu & _ & Hid).
  pose proof (admin_session_passes_guard _ _ Ha) as Hg. destruct Ha as [Hcaller _].
  unfold removeUser. rewrite Hg.
  run Hh. rewrite Hu. rewrite Hcaller. crunch. rewrite Hid. unfold str_eq.
  destruct (String.eqb_spec (removeUserInput.userId input) (su_id caller)) as [E|_];
    [contradiction|].
  run Hh. eexists. split; reflexivity.
Qed.

Lemma removeUser_not_found_run env w input ctx caller :
  healthy env ->
  admin_session ctx caller ->
  ~ user_exists (removeUserInput.userId input) (w_db w) ->
  exists w',
    removeUser input ctx env w = (Throw (TRPCError NOT_FOUND "User not found"), w')
    /\ w_db w' = w_db w.
Proof.
  intros Hh Ha Hno. unfold removeUser. rewrite (admin_session_passes_guard _ _ Ha).
  run Hh. rewrite (no_user_lookup _ _ Hno). crunch.
  eexists. split; reflexivity.
Qed.

Lemma users_with_email_nil e db : ~ email_taken e db -> users_with_email e db = [].
Proof.
  unfold email_taken, users_with_email. intros H.
  induction (db_users db) as [|u l IH]; [reflexivity|].
  cbn. destruct (String.eqb_spec (users.email u) e) as [E|_].
  - exfalso. apply H. exists u. split; [now left | exact E].
  - apply IH. intros (u' & Hin & E). apply H. exists u'. split; [now right | exact E].
Qed.

Lemma without_none {R} (column : R -> string) (v : string) (l : list R) :
  (forall r, In r l -> column r <> v) -> without column v l = l.
Proof.
  unfold without. induction l as [|r l IH]; intros H; [reflexivity|].
  cbn. destruct (String.eqb_spec (column r) v) as [E|_].
  - exfalso. apply (H r); [now left | exact E].
  - cbn. f_equal. apply IH. intros r' Hr'. apply H. now right.
Qed.

Lemma without_snoc_same {R} (column : R -> string) (v : string) (l : list R) (x : R) :
  column x = v -> without column v (l ++ [x]) = without column v l.
Proof.
  intros E. unfold without. rewrite filter_app. cbn.
  rewrite E, String.eqb_refl. cbn. apply app_nil_r.
Qed.

Lemma find_over_app {A} (p : A -> bool) (l l' : list A) :
  find p (l ++ l') = match find p l with Some x => Some x | None => find p l' end.
Proof.
  induction l as [|a l IH]; cbn; [reflexivity|]. destruct (p a); [reflexivity | exact IH].
Qed.

(** X14 — after [createUser] succeeded, a second [createUser] with the
    same email (whatever its other fields, as long as they pass the schema,
    for any existing organization) fails with [CONFLICT] and changes
    nothing: the store holds exactly one user of that email, the one the
    first call returned. *)
Theorem createUser_same_email_twice :
  forall env w input again ctx caller,
    healthy env ->
    admin_session ctx caller ->
    valid_createUser_input env input ->
    valid_createUser_input env again ->
    org_exists (createUserInput.orgId input) (w_db w) ->
    ~ email_taken (createUserInput.email input) (w_db w) ->
    createUserInput.email again = createUserInput.email input ->
    org_exists (createUserInput.orgId again) (w_db w) ->
    exists u w1 w2,
      createUser input ctx env w = (Return (Some u), w1)
      /\ createUser again ctx env w1
         = (Throw (TRPCError CONFLICT "A user with this email already exists"), w2)
      /\ w_db w2 = w_db w1
      /\ users_with_email (createUserInput.email input) (w_db w2) = [u].
Proof.
  intros env w input again ctx caller Hh Ha Hv Hv2 Horg Hfree Hsame Horg2.
  destruct (createUser_healthy_run env w input ctx caller Hh Ha Hv Horg Hfree)
    as (u & a & w1 & Hrun1 & _ & Hmail & _ & _ & Hdb1).
  assert (Horg1 : org_exists (createUserInput.orgId again) (w_db w1)).
  { rewrite Hdb1. exact Horg2. }
  assert (Htaken : email_taken (createUserInput.email again) (w_db w1)).
  { exists u. rewrite Hdb1. db_simpl. split; [|congruence].
    apply in_or_app. right. now left. }
  destruct (createUser_conflict_run env w1 again ctx caller Hh Ha Hv2 Horg1 Htaken)
    as (w2 & Hrun2 & Hdb2).
  exists u, w1, w2. repeat (split; [assumption|]).
  rewrite Hdb2, Hdb1. unfold users_with_email. db_simpl.
  rewrite filter_app.
  change (filter _ (db_users (w_db w)))
    with (users_with_email (createUserInput.email input) (w_db w)).
  rewrite (users_with_email_nil _ _ Hfree). cbn [filter app].
  rewrite Hmail, String.eqb_refl. reflexivity.
Qed.

Lemma createUser_same_email_twice_witness :
  (healthy Sample.env /\ admin_session Sample.admin_ctx Sample.admin
   /\ valid_createUser_input Sample.env (Sample.new_user "a@x.com" "o1")
   /\ org_exists "o1" (w_db Sample.world)
   /\ ~ email_taken "a@x.com" (w_db Sample.world))
  /\ exists u w1 w2,
       createUser (Sample.new_user "a@x.com" "o1") Sample.admin_ctx Sample.env Sample.world
       = (Return (Some u), w1)
       /\ createUser (Sample.new_user "a@x.com" "o1") Sample.admin_ctx Sample.env w1
          = (Throw (TRPCError CONFLICT "A user with this email already exists"), w2)
       /\ w_db w2 = w_db w1
       /\ users_with_email "a@x.com" (w_db w2) = [u].
Proof.
  split; [repeat (split; [first [exact Sample_healthy | exact Sample_admin
                                       | exact Sample_new_user | exact Sample_org]|]);
          exact Sample_free_email|].
  exact (createUser_same_email_twice Sample.env Sample.world
           (Sample.new_user "a@x.com" "o1") (Sample.new_user "a@x.com" "o1")
           Sample.admin_ctx Sample.admin Sample_healthy Sample_admin Sample_new_user
           Sample_new_user Sample_org Sample_free_email eq_refl Sample_org).
Defined.

(** X15 — an address that belongs to a user is never invited: whatever
    the caller and the collaborators, [inviteUser] for such an email fails,
    adds no verification and sends no message. *)
Theorem existing_user_is_never_invited :
  forall input ctx env w r w',
    inviteUser input ctx env w = (r, w') ->
    email_taken (inviteUserInput.email input) (w_db w) ->
    (exists e, r = Throw e)
    /\ w_db w' = w_db w
    /\ w_outbox w' = w_outbox w.
Proof.
  intros input ctx env w r w'. unfold inviteUser, with_input, inviteUser_mutation.
  destruct (not_admin ctx) eqn:Hg.
  all: explore env; intros E Htaken; inversion E; subst; clear E; crunch; unfind.
  all: try solve [repeat split; eauto].
  all: contradiction.
Qed.

Lemma existing_user_is_never_invited_witness :
  exists r w',
    inviteUser (Sample.invitation "bob@x.com" "o1") Sample.admin_ctx Sample.env
      Sample.world = (r, w')
    /\ email_taken "bob@x.com" (w_db Sample.world)
    /\ (exists e, r = Throw e)
    /\ w_db w' = w_db Sample.world
    /\ w_outbox w' = w_outbox Sample.world.
Proof.
  do 2 eexists. split; [vm_compute; reflexivity|].
  assert (Htaken : email_taken "bob@x.com" (w_db Sample.world)).
  { exists Sample.bob. split; [right; left; reflexivity | reflexivity]. }
  split; [exact Htaken|].
  exact (existing_user_is_never_invited (Sample.invitation "bob@x.com" "o1")
           Sample.admin_ctx Sample.env Sample.world _ _ eq_refl Htaken).
Defined.

(** X16 — removing a user twice: the first [removeUser] succeeds, the
    second, for the same id, fails with [NOT_FOUND] and changes nothing. *)
Theorem removeUser_twice :
  forall env w input ctx caller,
    healthy env ->
    admin_session ctx caller ->
    user_exists (removeUserInput.userId input) (w_db w) ->
    removeUserInput.userId input <> su_id caller ->
    exists w1 w2,
      removeUser input ctx env w = (Return {| remove_success := true |}, w1)
      /\ removeUser input ctx env w1
         = (Throw (TRPCError NOT_FOUND "User not found"), w2)
      /\ w_db w2 = w_db w1.
Proof.
  intros env w input ctx caller Hh Ha Hex Hother.
  destruct (removeUser_healthy_run env w input ctx caller Hh Ha Hex Hother)
    as (w1 & Hrun1 & Hdb1).
  assert (Hgone : ~ user_exists (removeUserInput.userId input) (w_db w1)).
  { rewrite Hdb1. intros (u & Hin & E). db_simpl. apply in_without in Hin. tauto. }
  destruct (removeUser_not_found_run env w1 input ctx caller Hh Ha Hgone)
    as (w2 & Hrun2 & Hdb2).
  exists w1, w2. repeat split; assumption.
Qed.

Lemma removeUser_twice_witness :
  (healthy Sample.env /\ admin_session Sample.admin_ctx Sample.admin
   /\ user_exists "u2" (w_db Sample.world)
   /\ "u2" <> su_id Sample.admin)
  /\ exists w1 w2,
       removeUser (Sample.removal "u2") Sample.admin_ctx Sample.env Sample.world
       = (Return {| remove_success := true |}, w1)
       /\ removeUser (Sample.removal "u2") Sample.admin_ctx Sample.env w1
          = (Throw (TRPCError NOT_FOUND "User not found"), w2)
       /\ w_db w2 = w_db w1.
Proof.
  assert (Hother : "u2" <> su_id Sample.admin) by discriminate.
  split; [repeat split; first [exact Sample_healthy | exact Sample_admin
                               | exact Sample_bob_exists | exact Hother]|].
  exact (removeUser_twice Sample.env Sample.world (Sample.removal "u2") Sample.admin_ctx
           Sample.admin Sample_healthy Sample_admin Sample_bob_exists Hother).
Defined.

(** X17 — creating a user (with an input that passes the schema) and then
    removing it gives the store back as it was, table for table, provided
    the identifier drawn for the new user was not in use (by a user, an
    account or a membership) and is not the caller's. *)
Theorem createUser_then_removeUser_restores_store :
  forall env w input ctx caller,
    healthy env ->
    admin_session ctx caller ->
    valid_createUser_input env input ->
    org_exists (createUserInput.orgId input) (w_db w) ->
    ~ email_taken (createUserInput.email input) (w_db w) ->
    ~ user_exists (env_nanoid env (2 + w_tick w) 21) (w_db w) ->
    (forall a, In a (db_accounts (w_db w)) ->
               accounts.userId a <> env_nanoid env (2 + w_tick w) 21) ->
    (forall m, In m (db_communityMembers (w_db w)) ->
               communityMembers.userId m <> env_nanoid env (2 + w_tick w) 21) ->
    env_nanoid env (2 + w_tick w) 21 <> su_id caller ->
    exists u w1 w2,
      createUser input ctx env w = (Return (Some u), w1)
      /\ users.id u = env_nanoid env (2 + w_tick w) 21
      /\ removeUser {| removeUserInput.userId := env_nanoid env (2 + w_tick w) 21 |}
           ctx env w1
         = (Return {| remove_success := true |}, w2)
      /\ w_db w2 = w_db w.
Proof.
  intros env w input ctx caller Hh Ha Hv Horg Hfree.
  set (newId := env_nanoid env (2 + w_tick w) 21).
  intros Hfresh Hacc Hmem Hother.
  destruct (createUser_healthy_run env w input ctx caller Hh Ha Hv Horg Hfree)
    as (u & a & w1 & Hrun1 & Hid & _ & _ & Huid & Hdb1).
  fold newId in Hid.
  assert (Hex : user_exists newId (w_db w1)).
  { exists u. rewrite Hdb1. db_simpl. split; [|exact Hid].
    apply in_or_app. right. now left. }
  destruct (removeUser_healthy_run env w1 {| removeUserInput.userId := newId |} ctx caller
              Hh Ha Hex Hother) as (w2 & Hrun2 & Hdb2).
  exists u, w1, w2. repeat (split; [assumption|]).
  rewrite Hdb2, Hdb1. cbn [removeUserInput.userId]. db_simpl.
  rewrite (without_none communityMembers.userId newId _ Hmem).
  rewrite (without_snoc_same accounts.userId newId _ a) by congruence.
  rewrite (without_none accounts.userId newId _ Hacc).
  rewrite (without_snoc_same users.id newId _ u) by exact Hid.
  rewrite (without_none users.id newId).
  - destruct (w_db w); reflexivity.
  - intros u' Hin E. apply Hfresh. now exists u'.
Qed.

Lemma createUser_then_removeUser_restores_store_witness :
  (healthy Sample.env /\ admin_session Sample.admin_ctx Sample.admin
   /\ valid_createUser_input Sample.env (Sample.new_user "a@x.com" "o1")
   /\ org_exists "o1" (w_db Sample.world)
   /\ ~ email_taken "a@x.com" (w_db Sample.world)
   /\ ~ user_exists (env_nanoid Sample.env 2 21) (w_db Sample.world))
  /\ exists u w1 w2,
       createUser (Sample.new_user "a@x.com" "o1") Sample.admin_ctx Sample.env Sample.world
       = (Return (Some u), w1)
       /\ users.id u = env_nanoid Sample.env 2 21
       /\ removeUser {| removeUserInput.userId := env_nanoid Sample.env 2 21 |}
            Sample.admin_ctx Sample.env w1
          = (Return {| remove_success := true |}, w2)
       /\ w_db w2 = w_db Sample.world.
Proof.
  assert (Hfresh : ~ user_exists (env_nanoid Sample.env 2 21) (w_db Sample.world)).
  { intros (u & [<-|[<-|[]]] & E); discriminate E. }
  split; [repeat (split; [first [exact Sample_healthy | exact Sample_admin
                                       | exact Sample_new_user | exact Sample_org
                                       | exact Sample_free_email]|]);
          exact Hfresh|].
  apply (createUser_then_removeUser_restores_store Sample.env Sample.world
           (Sample.new_user "a@x.com" "o1") Sample.admin_ctx Sample.admin
           Sample_healthy Sample_admin Sample_new_user Sample_org Sample_free_email
           Hfresh).
  - intros a [<-|[]]. discriminate.
  - intros m [<-|[<-|[]]]; discriminate.
  - discriminate.
Defined.

(** ** Listing *)

(** X18 — [getUsers] for an admin, the store answering: the answer lists
    the users of the store, in the store's order; a user listed with an
    organization has that organization's id as its [orgId], and the
    organization is in the store; a user listed without one references no
    organization of the store.  The store is not modified. *)
Theorem getUsers_joins_each_user_with_its_org :
  forall env w ctx caller,
    healthy env ->
    admin_session ctx caller ->
    exists answer w',
      getUsers ctx env w = (Return answer, w')
      /\ w_db w' = w_db w
      /\ map fst answer = db_users (w_db w)
      /\ (forall u o, In (u, Some o) answer ->
            In o (db_orgs (w_db w)) /\ orgs.id o = users.orgId u)
      /\ (forall u, In (u, None) answer -> ~ org_exists (users.orgId u) (w_db w)).
Proof.
  intros env w ctx caller Hh Ha.
  unfold getUsers. rewrite (admin_session_passes_guard _ _ Ha). run Hh.
  do 2 eexists. split; [reflexivity|]. split; [reflexivity|].
  split; [rewrite map_map; cbn [fst]; apply map_id|].
  split.
  - intros u o Hin. apply in_map_iff in Hin. destruct Hin as (u' & E & _).
    inversion E; subst. now apply find_eq_Some_inv.
  - intros u Hin. apply in_map_iff in Hin. destruct Hin as (u' & E & _).
    inversion E; subst. now apply find_eq_None_not_exists.
Qed.

Lemma getUsers_joins_each_user_with_its_org_witness :
  (healthy Sample.env /\ admin_session Sample.admin_ctx Sample.admin)
  /\ exists answer w',
       getUsers Sample.admin_ctx Sample.env Sample.world = (Return answer, w')
       /\ map fst answer = [Sample.root; Sample.bob]
       /\ (forall u o, In (u, Some o) answer ->
             In o (db_orgs (w_db Sample.world)) /\ orgs.id o = users.orgId u).
Proof.
  split; [split; [exact Sample_healthy | exact Sample_admin]|].
  destruct (getUsers_joins_each_user_with_its_org Sample.env Sample.world Sample.admin_ctx
              Sample.admin Sample_healthy Sample_admin)
    as (answer & w' & Hrun & _ & Hfst & Hsome & _).
  exists answer, w'. split; [exact Hrun|]. split; [exact Hfst | exact Hsome].
Defined.

(** X19 — an organization just created is usable at once: [getOrgs] lists
    it after the organizations already there, [createUser] accepts its id,
    and [getUsers] then lists the new user joined with it (both inputs
    passing their schemas, and the id drawn for the organization not being
    in use). *)
Theorem created_org_is_listed_and_accepts_users :
  forall env w orgInput userInput ctx caller,
    healthy env ->
    admin_session ctx caller ->
    valid_createOrg_input orgInput ->
    valid_createUser_input env userInput ->
    ~ org_named (createOrgInput.name orgInput) (w_db w) ->
    ~ org_exists (env_nanoid env (1 + w_tick w) 21) (w_db w) ->
    ~ email_taken (createUserInput.email userInput) (w_db w) ->
    createUserInput.orgId userInput = env_nanoid env (1 + w_tick w) 21 ->
    exists o u w1 w1' w2 answer w3,
      createOrg orgInput ctx env w = (Return (Some o), w1)
      /\ getOrgs ctx env w1 = (Return (db_orgs (w_db w) ++ [o])%list, w1')
      /\ createUser userInput ctx env w1 = (Return (Some u), w2)
      /\ getUsers ctx env w2 = (Return answer, w3)
      /\ In (u, Some o) answer.
Proof.
  intros env w orgInput userInput ctx caller Hh Ha Hvo Hvu Hno Hfreshid Hfree Horgid.
  pose proof (admin_session_passes_guard _ _ Ha) as Hg.
  destruct (createOrg_healthy_run env w orgInput ctx caller Hh Ha Hvo Hno)
    as (o & w1 & Hrun1 & Hoid & _ & Hdb1).
  assert (Horg : org_exists (createUserInput.orgId userInput) (w_db w1)).
  { exists o. rewrite Hdb1. db_simpl. split; [|congruence].
    apply in_or_app. right. now left. }
  assert (Hfree1 : ~ email_taken (createUserInput.email userInput) (w_db w1)).
  { rewrite Hdb1. exact Hfree. }
  destruct (createUser_healthy_run env w1 userInput ctx caller Hh Ha Hvu Horg Hfree1)
    as (u & a & w2 & Hrun2 & _ & _ & Huorg & _ & Hdb2).
  assert (Hlist : exists w1', getOrgs ctx env w1
                              = (Return (db_orgs (w_db w) ++ [o])%list, w1')).
  { unfold getOrgs. rewrite Hg. run Hh. rewrite Hdb1. eexists. reflexivity. }
  destruct Hlist as (w1' & Hlist).
  exists o, u, w1, w1', w2.
  unfold getUsers. rewrite Hg. run Hh.
  do 2 eexists. repeat (split; [first [assumption | reflexivity]|]).
  apply in_map_iff. exists u. rewrite Hdb2, Hdb1. db_simpl. split.
  - f_equal. rewrite Huorg, Horgid.
    rewrite find_over_app.
    rewrite (find_eq_None orgs.id).
    + cbn. unfold drizzle.eq at 1, str_eq. rewrite Hoid, String.eqb_refl. reflexivity.
    + intros o' Hin E. apply Hfreshid. now exists o'.
  - apply in_or_app. right. now left.
Qed.

Lemma created_org_is_listed_and_accepts_users_witness :
  (healthy Sample.env /\ admin_session Sample.admin_ctx Sample.admin
   /\ valid_createOrg_input (Sample.new_org "Initech")
   /\ valid_createUser_input Sample.env
        (Sample.new_user "a@x.com" (env_nanoid Sample.env 1 21))
   /\ ~ org_named "Initech" (w_db Sample.world)
   /\ ~ org_exists (env_nanoid Sample.env 1 21) (w_db Sample.world)
   /\ ~ email_taken "a@x.com" (w_db Sample.world))
  /\ exists o u w1 w1' w2 answer w3,
       createOrg (Sample.new_org "Initech") Sample.admin_ctx Sample.env Sample.world
       = (Return (Some o), w1)
       /\ getOrgs Sample.admin_ctx Sample.env w1
          = (Return (db_orgs (w_db Sample.world) ++ [o])%list, w1')
       /\ createUser (Sample.new_user "a@x.com" (env_nanoid Sample.env 1 21))
            Sample.admin_ctx Sample.env w1
          = (Return (Some u), w2)
       /\ getUsers Sample.admin_ctx Sample.env w2 = (Return answer, w3)
       /\ In (u, Some o) answer.
Proof.
  assert (Hno : ~ org_named "Initech" (w_db Sample.world)).
  { intros (o & [<-|[]] & E). discriminate E. }
  assert (Hfreshid : ~ org_exists (env_nanoid Sample.env 1 21) (w_db Sample.world)).
  { intros (o & [<-|[]] & E). discriminate E. }
  assert (Hvo : valid_createOrg_input (Sample.new_org "Initech")) by (cbv; lia).
  assert (Hvu : valid_createUser_input Sample.env
                  (Sample.new_user "a@x.com" (env_nanoid Sample.env 1 21)))
    by (apply Sample_new_user_valid; reflexivity).
  split; [repeat (split; [first [exact Sample_healthy | exact Sample_admin | exact Hvo
                                       | exact Hvu | exact Hno | exact Hfreshid]|]);
          exact Sample_free_email|].
  exact (created_org_is_listed_and_accepts_users Sample.env Sample.world
           (Sample.new_org "Initech")
           (Sample.new_user "a@x.com" (env_nanoid Sample.env 1 21))
           Sample.admin_ctx Sample.admin Sample_healthy Sample_admin Hvo Hvu Hno Hfreshid
           Sample_free_email eq_refl).
Defined.

(** ** Consistency of the store *)

(** One call, whatever the procedure, the caller and the collaborators,
    changes the store in one of the ways of [DbEffect]. *)
Lemma adminRouter_effect p ctx env w r w' :
  adminRouter p ctx env w = (r, w') -> DbEffect (w_db w) (w_db w').
Proof.
  destruct p; enter_procedure.
  all: destruct (not_admin ctx) eqn:Hg.
  all: explore env; intros E; inversion E; subst; clear E; crunch; unfind.
  all: try apply effect_none.
  - apply (effect_add_org _ {| orgs.id := _; orgs.name := _ |}). exact Hfind.
  - apply (effect_add_user _ {| users.id := _ |}); [eexists; eauto | exact Hfind0].
  - apply (effect_add_user_account _ {| users.id := _ |} {| accounts.id := _ |});
      [eexists; eauto | exact Hfind0 | reflexivity].
  - apply (effect_add_verification _ {| verifications.id := _ |}).
  - apply (effect_add_verification _ {| verifications.id := _ |}).
  - apply effect_drop_members.
  - apply effect_drop_members_accounts.
  - apply effect_drop_user.
Qed.

(** X22 — no call ever leaves a user pointing to a missing organization:
    when every user's [orgId] is the id of an organization before a call,
    it is so after it. *)
Theorem users_keep_their_orgs :
  forall p ctx env w r w',
    adminRouter p ctx env w = (r, w') ->
    users_have_orgs (w_db w) ->
    users_have_orgs (w_db w').
Proof.
  intros p ctx env w r w' Hrun. apply adminRouter_effect in Hrun.
  unfold users_have_orgs, org_exists.
  destruct Hrun; db_simpl; intros Hinv; try exact Hinv.
  - intros u Hu. destruct (Hinv u Hu) as (o' & Hin & E). exists o'. split; [|exact E].
    apply in_or_app. now left.
  - intros u' Hu'. apply in_app_or in Hu'. destruct Hu' as [Hu'|[<-|[]]]; auto.
  - intros u' Hu'. apply in_app_or in Hu'. destruct Hu' as [Hu'|[<-|[]]]; auto.
  - intros u Hu. apply in_without in Hu. destruct Hu as [Hu _]. auto.
Qed.

Lemma Sample_users_have_orgs : users_have_orgs (w_db Sample.world).
Proof.
  intros u [<-|[<-|[]]]; eexists; (split; [left; reflexivity | reflexivity]).
Qed.

Lemma users_keep_their_orgs_witness :
  users_have_orgs (w_db Sample.world)
  /\ users_have_orgs
       (w_db (snd (adminRouter (call_createUser (Sample.new_user "a@x.com" "o1"))
                     Sample.admin_ctx Sample.env Sample.world))).
Proof.
  split; [exact Sample_users_have_orgs|].
  exact (users_keep_their_orgs (call_createUser (Sample.new_user "a@x.com" "o1"))
           Sample.admin_ctx Sample.env Sample.world _ _ (surjective_pairing _)
           Sample_users_have_orgs).
Defined.

(** X23 — no call ever orphans a dependent row, even one that fails
    midway: when every account and every membership belongs to a user of
    the store before a call, it is so after it.  This is what inserting
    the user before its account, and deleting memberships and accounts
    before the user, achieves. *)
Theorem no_orphans_preserved :
  forall p ctx env w r w',
    adminRouter p ctx env w = (r, w') ->
    no_orphans (w_db w) ->
    no_orphans (w_db w').
Proof.
  intros p ctx env w r w' Hrun. apply adminRouter_effect in Hrun.
  unfold no_orphans, user_exists.
  destruct Hrun; db_simpl; intros [Ha Hm]; try (split; assumption).
  - split.
    + intros a Hin. destruct (Ha a Hin) as (u' & Hu' & E). exists u'. split; [|exact E].
      apply in_or_app. now left.
    + intros m Hin. destruct (Hm m Hin) as (u' & Hu' & E). exists u'. split; [|exact E].
      apply in_or_app. now left.
  - split.
    + intros a' Hin. apply in_app_or in Hin. destruct Hin as [Hin|[<-|[]]].
      * destruct (Ha a' Hin) as (u' & Hu' & E). exists u'. split; [|exact E].
        apply in_or_app. now left.
      * exists u. split; [apply in_or_app; right; now left | now symmetry].
    + intros m Hin. destruct (Hm m Hin) as (u' & Hu' & E). exists u'. split; [|exact E].
      apply in_or_app. now left.
  - split; [exact Ha|]. intros m Hin. apply in_without in Hin. destruct Hin as [Hin _]. auto.
  - split.
    + intros a Hin. apply in_without in Hin. destruct Hin as [Hin _]. auto.
    + intros m Hin. apply in_without in Hin. destruct Hin as [Hin _]. auto.
  - split.
    + intros a Hin. apply in_without in Hin. destruct Hin as [Hin Hne].
      destruct (Ha a Hin) as (u' & Hu' & E). exists u'. split; [|exact E].
      apply in_without. split; [exact Hu' | congruence].
    + intros m Hin. apply in_without in Hin. destruct Hin as [Hin Hne].
      destruct (Hm m Hin) as (u' & Hu' & E). exists u'. split; [|exact E].
      apply in_without. split; [exact Hu' | congruence].
Qed.

Lemma Sample_no_orphans : no_orphans (w_db Sample.world).
Proof.
  split.
  - intros a [<-|[]]. exact Sample_bob_exists.
  - intros m [<-|[<-|[]]].
    + exact Sample_bob_exists.
    + exists Sample.root. split; [left; reflexivity | reflexivity].
Qed.

Lemma no_orphans_preserved_witness :
  no_orphans (w_db Sample.world)
  /\ no_orphans
       (w_db (snd (adminRouter (call_removeUser (Sample.removal "u2")) Sample.admin_ctx
                     (Sample.env_failing_at 3) Sample.world)))
  /\ db_accounts
       (w_db (snd (adminRouter (call_removeUser (Sample.removal "u2")) Sample.admin_ctx
                     (Sample.env_failing_at 3) Sample.world))) = [].
Proof.
  split; [exact Sample_no_orphans|]. split; [|reflexivity].
  exact (no_orphans_preserved (call_removeUser (Sample.removal "u2")) Sample.admin_ctx
           (Sample.env_failing_at 3) Sample.world _ _ (surjective_pairing _)
           Sample_no_orphans).
Defined.

Lemma non_empty_of_length (s : string) : 1 <= String.length s -> s <> EmptyString.
Proof. intros H ->. cbn in H. lia. Qed.

Ltac old_or_new :=
  repeat match goal with
         | H : In _ (_ ++ [_])%list |- _ =>
             apply in_app_or in H; destruct H as [H|[<-|[]]]
         | H : In _ (filter _ _) |- _ => apply filter_In in H; destruct H as [H _]
         end.

(** X31 — whatever a call stores has passed the schema: after any call,
    whatever its outcome, an organization of the store was there before
    or has a non-empty name; a user was there before or has a non-empty
    name, an email zod's pattern accepts and [emailVerified = true]; a
    verification was there before or is addressed to an email the pattern
    accepts. *)
Theorem stored_rows_passed_the_schema :
  forall p ctx env w r w',
    adminRouter p ctx env w = (r, w') ->
    (forall o, In o (db_orgs (w_db w')) ->
       In o (db_orgs (w_db w)) \/ orgs.name o <> EmptyString)
    /\ (forall u, In u (db_users (w_db w')) ->
          In u (db_users (w_db w))
          \/ (users.name u <> EmptyString
              /\ zod_email env (users.email u) = true
              /\ users.emailVerified u = true))
    /\ (forall v, In v (db_verifications (w_db w')) ->
          In v (db_verifications (w_db w))
          \/ zod_email env (verifications.identifier v) = true).
Proof.
  intros p ctx env w r w'.
  destruct p; enter_procedure.
  all: destruct (not_admin ctx) eqn:Hg.
  all: explore env; intros E; inversion E; subst; clear E; crunch.
  all: repeat match goal with
              | H : createOrg_schema _ _ = [] |- _ => apply createOrg_schema_accepts in H
              | H : createUser_schema _ _ = [] |- _ =>
                  apply createUser_schema_accepts in H; destruct H as (? & ? & ?)
              | H : inviteUser_schema _ _ = [] |- _ => apply inviteUser_schema_accepts in H
              end.
  all: repeat split; intros x Hin; old_or_new; try (now left).
  all: right; cbn; auto using non_empty_of_length.
Qed.

Lemma stored_rows_passed_the_schema_witness :
  exists r w' u,
    adminRouter (call_createUser (Sample.new_user "a@x.com" "o1")) Sample.admin_ctx
      Sample.env Sample.world = (r, w')
    /\ db_users (w_db w') = [Sample.root; Sample.bob; u]
    /\ users.name u <> EmptyString
    /\ zod_email Sample.env (users.email u) = true
    /\ users.emailVerified u = true.
Proof.
  eexists _, _, {| users.id := _ |}. split; [vm_compute; reflexivity|].
  split; [reflexivity|].
  destruct (stored_rows_passed_the_schema
              (call_createUser (Sample.new_user "a@x.com" "o1")) Sample.admin_ctx
              Sample.env Sample.world _ _ eq_refl) as (_ & Hu & _).
  destruct (Hu _ (or_intror (or_intror (or_introl eq_refl)))) as [[H|[H|[]]]|H];
    [discriminate H | discriminate H | exact H].
Defined.

(** ** The login report *)

Lemma StronglySorted_app_cross {A} (R : A -> A -> Prop) (l1 l2 : list A) :
  StronglySorted R (l1 ++ l2) -> forall x y, In x l1 -> In y l2 -> R x y.
Proof.
  induction l1 as [|a l1 IH]; cbn; intros Hs x y Hx Hy; [contradiction|].
  apply StronglySorted_inv in Hs. destruct Hs as [Hs Hall].
  destruct Hx as [<-|Hx].
  - rewrite Forall_forall in Hall. apply Hall. apply in_or_app. now right.
  - now apply IH.
Qed.

Lemma ordered_report_strict events :
  strictly_descending (map date (ORDER_BY_date_DESC (select_per_group events))).
Proof.
  apply descending_and_distinct_is_strict.
  - apply DateDescSort.StronglySorted_sort, DateDesc_leb_trans.
  - apply ordered_report_dates_NoDup.
Qed.

(** The rows of the ordered report: one per date of the log. *)
Lemma ordered_report_In events r :
  In r (ORDER_BY_date_DESC (select_per_group events)) <->
  exists d, In d (map (fun e => DATE (login_events.created_at e)) events)
            /\ r = {| date := d;
                      unique_logins :=
                        COUNT_DISTINCT (map login_events.user_id (group_of d events)) |}.
Proof.
  unfold ORDER_BY_date_DESC. split.
  - intros Hr.
    apply (Permutation_in _ (Permutation_sym (DateDescSort.Permuted_sort _))) in Hr.
    unfold select_per_group in Hr. apply in_map_iff in Hr.
    destruct Hr as (d & <- & Hd). exists d. split; [|reflexivity].
    unfold group_keys in Hd. now apply nodup_In in Hd.
  - intros (d & Hd & ->).
    apply (Permutation_in _ (DateDescSort.Permuted_sort _)).
    unfold select_per_group. apply in_map_iff. exists d. split; [reflexivity|].
    unfold group_keys. now apply nodup_In.
Qed.

Lemma unique_logins_rows_recent events :
  (forall r, In r (unique_logins_rows events) ->
     1 <= unique_logins r
     /\ exists e, In e events /\ DATE (login_events.created_at e) = date r)
  /\ (forall e, In e events ->
        In (DATE (login_events.created_at e)) (map date (unique_logins_rows events))
        \/ (List.length (unique_logins_rows events) = 30
            /\ forall r, In r (unique_logins_rows events) ->
                         (DATE (login_events.created_at e) < date r)%Z)).
Proof.
  unfold unique_logins_rows, LIMIT. split.
  - intros r Hr. apply In_firstn in Hr. apply ordered_report_In in Hr.
    destruct Hr as (d & Hd & ->). cbn [date unique_logins].
    apply in_map_iff in Hd. destruct Hd as (e & Hde & He).
    split; [|now exists e].
    unfold COUNT_DISTINCT.
    assert (Hin : In (login_events.user_id e)
                    (nodup string_dec (map login_events.user_id (group_of d events)))).
    { apply nodup_In, in_map. unfold group_of. apply filter_In.
      split; [exact He | now apply Z.eqb_eq]. }
    set (ids := nodup string_dec _) in *.
    destruct ids; [contradiction Hin | cbn; lia].
  - intros e He.
    set (sorted := ORDER_BY_date_DESC (select_per_group events)).
    assert (Hin : In (DATE (login_events.created_at e)) (map date sorted)).
    { apply in_map_iff.
      exists {| date := DATE (login_events.created_at e);
                unique_logins :=
                  COUNT_DISTINCT
                    (map login_events.user_id
                       (group_of (DATE (login_events.created_at e)) events)) |}.
      split; [reflexivity|]. apply ordered_report_In.
      exists (DATE (login_events.created_at e)). split; [|reflexivity].
      apply (in_map (fun e => DATE (login_events.created_at e))), He. }
    pose proof (ordered_report_strict events) as Hs. fold sorted in Hs.
    rewrite <- (firstn_skipn 30 sorted) in Hin, Hs. rewrite map_app in Hin, Hs.
    apply in_app_or in Hin. destruct Hin as [Hin|Hin]; [now left|right].
    split.
    + rewrite length_firstn. apply Nat.min_l.
      destruct (Nat.le_gt_cases 30 (List.length sorted)) as [Hle|Hlt]; [exact Hle|].
      rewrite skipn_all2 in Hin by lia. contradiction.
    + intros r Hr.
      pose proof (StronglySorted_app_cross _ _ _ Hs (date r)
                    (DATE (login_events.created_at e)) (in_map date _ _ Hr) Hin).
      lia.
Qed.

(** X24 — the report holds the most recent days that have logins and
    nothing else: every reported day has at least one login event and a
    count of at least one; and a day with a login event that is not
    reported is older than every reported day, which only happens when the
    report is full (30 rows). *)
Theorem report_covers_the_most_recent_days :
  forall env w ctx caller,
    healthy env ->
    admin_session ctx caller ->
    exists (report : list LoginsRow) (w' : World),
      getUniqueLoginsPerDay ctx env w = (Return report, w')
      /\ (forall r, In r report ->
            1 <= unique_logins r
            /\ exists e, In e (db_login_events (w_db w))
                         /\ DATE (login_events.created_at e) = date r)
      /\ (forall e, In e (db_login_events (w_db w)) ->
            In (DATE (login_events.created_at e)) (map date report)
            \/ (List.length report = 30
                /\ forall r, In r report -> (DATE (login_events.created_at e) < date r)%Z)).
Proof.
  intros env w ctx caller Hh Ha.
  exists (unique_logins_rows (db_login_events (w_db w))).
  unfold getUniqueLoginsPerDay. rewrite (admin_session_passes_guard _ _ Ha).
  run Hh. eexists. split; [reflexivity|].
  apply unique_logins_rows_recent.
Qed.

Lemma report_covers_the_most_recent_days_witness :
  (healthy Sample.env /\ admin_session Sample.admin_ctx Sample.admin)
  /\ exists (report : list LoginsRow) (w' : World),
       getUniqueLoginsPerDay Sample.admin_ctx Sample.env Sample.world = (Return report, w')
       /\ (forall r, In r report -> 1 <= unique_logins r)
       /\ (forall e, In e (db_login_events (w_db Sample.world)) ->
             In (DATE (login_events.created_at e)) (map date report)
             \/ List.length report = 30).
Proof.
  split; [split; [exact Sample_healthy | exact Sample_admin]|].
  destruct (report_covers_the_most_recent_days Sample.env Sample.world Sample.admin_ctx
              Sample.admin Sample_healthy Sample_admin)
    as (report & w' & Hrun & Hcount & Hrecent).
  exists report, w'. split; [exact Hrun|]. split.
  - intros r Hr. exact (proj1 (Hcount r Hr)).
  - intros e He. destruct (Hrecent e He) as [Hin|[Hfull _]]; [now left | now right].
Defined.

Lemma Permutation_filter_same {A} (p : A -> bool) (l l' : list A) :
  Permutation l l' -> Permutation (filter p l) (filter p l').
Proof.
  induction 1 as [|x l l' _ IH|x y l|l l' l'' _ IH1 _ IH2]; cbn.
  - constructor.
  - destruct (p x); [now constructor | exact IH].
  - destruct (p x), (p y); try apply Permutation_refl; apply perm_swap.
  - now transitivity (filter p l').
Qed.

Lemma COUNT_DISTINCT_Permutation (l l' : list string) :
  Permutation l l' -> COUNT_DISTINCT l = COUNT_DISTINCT l'.
Proof.
  intros Hp. unfold COUNT_DISTINCT. apply Permutation_length.
  apply NoDup_Permutation; try apply NoDup_nodup.
  intros x. rewrite !nodup_In. split; apply Permutation_in; [exact Hp | now symmetry].
Qed.

(** Two strictly descending lists with the same elements are equal. *)
Lemma strictly_descending_unique (l l' : list Z) :
  strictly_descending l -> strictly_descending l' -> Permutation l l' -> l = l'.
Proof.
  unfold strictly_descending. revert l'.
  induction l as [|a l IH]; intros l' Hs Hs' Hp.
  - now apply Permutation_nil in Hp.
  - destruct l' as [|a' l']; [apply Permutation_sym, Permutation_nil in Hp; discriminate|].
    apply StronglySorted_inv in Hs. destruct Hs as [Hs Hall].
    apply StronglySorted_inv in Hs'. destruct Hs' as [Hs' Hall'].
    rewrite Forall_forall in Hall, Hall'.
    assert (a = a').
    { assert (Ha : In a (a' :: l')) by (apply (Permutation_in _ Hp); now left).
      assert (Ha' : In a' (a :: l))
        by (apply (Permutation_in _ (Permutation_sym Hp)); now left).
      destruct Ha as [E|Ha]; [now symmetry|].
      destruct Ha' as [E|Ha']; [exact E|].
      specialize (Hall _ Ha'). specialize (Hall' _ Ha). lia. }
    subst a'. f_equal. apply IH; try assumption.
    now apply Permutation_cons_inv in Hp.
Qed.

Lemma ordered_report_rebuild events :
  ORDER_BY_date_DESC (select_per_group events)
  = map (fun d => {| date := d;
                     unique_logins :=
                       COUNT_DISTINCT (map login_events.user_id (group_of d events)) |})
        (map date (ORDER_BY_date_DESC (select_per_group events))).
Proof.
  rewrite map_map. rewrite <- (map_id (ORDER_BY_date_DESC _)) at 1.
  apply map_ext_in. intros r Hr. apply ordered_report_In in Hr.
  destruct Hr as (d & _ & ->). reflexivity.
Qed.

Lemma unique_logins_rows_Permutation events events' :
  Permutation events events' -> unique_logins_rows events = unique_logins_rows events'.
Proof.
  intros Hp. unfold unique_logins_rows. f_equal.
  rewrite (ordered_report_rebuild events), (ordered_report_rebuild events').
  assert (Hdates : map date (ORDER_BY_date_DESC (select_per_group events))
                   = map date (ORDER_BY_date_DESC (select_per_group events'))).
  { apply strictly_descending_unique; try apply ordered_report_strict.
    apply NoDup_Permutation; try apply ordered_report_dates_NoDup.
    intros d. rewrite !in_map_iff.
    assert (Hiff : forall ev ev', Permutation ev ev' ->
                     (exists r, date r = d /\ In r (ORDER_BY_date_DESC (select_per_group ev)))
                     -> exists r, date r = d
                                  /\ In r (ORDER_BY_date_DESC (select_per_group ev'))).
    { intros ev ev' Hpp (r & Hd & Hr). apply ordered_report_In in Hr.
      destruct Hr as (d' & Hd' & ->). cbn in Hd. subst d'.
      eexists. split; [|apply ordered_report_In; exists d; split; [|reflexivity]].
      - reflexivity.
      - apply (Permutation_in _ (Permutation_map _ Hpp)), Hd'. }
    split; apply Hiff; [exact Hp | now symmetry]. }
  rewrite Hdates. apply map_ext. intros d. f_equal.
  apply COUNT_DISTINCT_Permutation, Permutation_map, Permutation_filter_same, Hp.
Qed.

(** X25 — the report depends on which login events the log holds, not on
    the order the store keeps them in: two stores whose logs are
    permutations of each other give the same report. *)
Theorem report_ignores_storage_order :
  forall env w1 w2 ctx caller,
    healthy env ->
    admin_session ctx caller ->
    Permutation (db_login_events (w_db w1)) (db_login_events (w_db w2)) ->
    exists report w1' w2',
      getUniqueLoginsPerDay ctx env w1 = (Return report, w1')
      /\ getUniqueLoginsPerDay ctx env w2 = (Return report, w2').
Proof.
  intros env w1 w2 ctx caller Hh Ha Hp.
  exists (unique_logins_rows (db_login_events (w_db w1))).
  unfold getUniqueLoginsPerDay. rewrite (admin_session_passes_guard _ _ Ha).
  run Hh. do 2 eexists. split; [reflexivity|].
  now rewrite (unique_logins_rows_Permutation _ _ Hp).
Qed.

Lemma report_ignores_storage_order_witness :
  (healthy Sample.env /\ admin_session Sample.admin_ctx Sample.admin
   /\ Permutation (db_login_events (w_db Sample.world))
        (db_login_events (w_db Demo.world_reordered)))
  /\ exists report w1' w2',
       getUniqueLoginsPerDay Sample.admin_ctx Sample.env Sample.world
       = (Return report, w1')
       /\ getUniqueLoginsPerDay Sample.admin_ctx Sample.env Demo.world_reordered
          = (Return report, w2').
Proof.
  assert (Hp : Permutation (db_login_events (w_db Sample.world))
                 (db_login_events (w_db Demo.world_reordered)))
    by apply Permutation_rev.
  split; [repeat split; first [exact Sample_healthy | exact Sample_admin | exact Hp]|].
  exact (report_ignores_storage_order Sample.env Sample.world Demo.world_reordered
           Sample.admin_ctx Sample.admin Sample_healthy Sample_admin Hp).
Defined.

(** ** The dashboard page *)

(** What holds of the removal flow after any sequence of actions: the
    user pending removal, and every removal requested, is a user whose
    remove button was pressed and is not the signed-in user. *)
Lemma page_removal_invariant session actions :
  (forall u, page.userToRemove (page.after session actions) = Some u ->
             page.session_user_id session <> Some u
             /\ In (page.click_remove u) actions)
  /\ (forall m, In m (page.removeUser_mutations (page.after session actions)) ->
                page.session_user_id session <> Some (removeUserInput.userId m)
                /\ removeUserInput.userId m <> EmptyString
                /\ In (page.click_remove (removeUserInput.userId m)) actions).
Proof.
  unfold page.after.
  induction actions as [|a actions IH] using rev_ind.
  - cbn. split; [discriminate | contradiction].
  - rewrite fold_left_app. cbn [fold_left].
    set (s := fold_left (page.dispatch session) actions page.initial) in *.
    destruct IH as [IHu IHm].
    assert (Hmore : forall x, In x actions -> In x (actions ++ [a])%list)
      by (intros; apply in_or_app; now left).
    destruct a as [userId| |open]; cbn [page.dispatch].
    + unfold page.handleRemoveUser.
      destruct (page.session_user_id session) as [id|] eqn:Hid.
      * unfold str_eq. destruct (String.eqb_spec userId id) as [->|Hne];
          cbn [page.userToRemove page.removeUser_mutations].
        -- split.
           ++ intros u Hu. destruct (IHu u Hu). auto.
           ++ intros m Hm. destruct (IHm m Hm) as (? & ? & ?). auto.
        -- split.
           ++ intros u Hu. inversion Hu; subst. split; [congruence|].
              apply in_or_app. right. now left.
           ++ intros m Hm. destruct (IHm m Hm) as (? & ? & ?). auto.
      * cbn [page.userToRemove page.removeUser_mutations]. split.
        -- intros u Hu. inversion Hu; subst. split; [discriminate|].
           apply in_or_app. right. now left.
        -- intros m Hm. destruct (IHm m Hm) as (? & ? & ?). auto.
    + unfold page.confirmRemoveUser.
      destruct (page.userToRemove s) as [u|] eqn:Hu.
      * destruct (page.truthy u) eqn:Ht; cbn [page.userToRemove page.removeUser_mutations].
        -- split; [discriminate|].
           intros m Hm. apply in_app_or in Hm. destruct Hm as [Hm|[<-|[]]].
           ++ destruct (IHm m Hm) as (? & ? & ?). auto.
           ++ cbn [removeUserInput.userId]. destruct (IHu u eq_refl) as [Hself Hclick].
              repeat split; [exact Hself | | auto].
              intros ->. discriminate Ht.
        -- split.
           ++ rewrite Hu. intros u' Hu'. destruct (IHu u' Hu'). auto.
           ++ intros m Hm. destruct (IHm m Hm) as (? & ? & ?). auto.
      * split.
        -- rewrite Hu. discriminate.
        -- intros m Hm. destruct (IHm m Hm) as (? & ? & ?). auto.
    + cbn [page.setIsRemoveUserDialogOpen page.userToRemove page.removeUser_mutations].
      split.
      * intros u Hu. destruct (IHu u Hu). auto.
      * intros m Hm. destruct (IHm m Hm) as (? & ? & ?). auto.
Qed.

Lemma Demo_clicks_request_bob :
  page.removeUser_mutations (page.after Demo.admin_session_data Demo.clicks)
  = [Sample.removal "u2"].
Proof. reflexivity. Qed.

(** X26 — whatever the admin does in the removal flow (pressing remove
    buttons, confirming, opening and closing the dialog, in any order),
    every removal the page requests is for a user whose remove button was
    pressed, is never for the signed-in user, and never has an empty
    id. *)
Theorem dashboard_never_requests_self_removal :
  forall session actions m,
    In m (page.removeUser_mutations (page.after session actions)) ->
    page.session_user_id session <> Some (removeUserInput.userId m)
    /\ removeUserInput.userId m <> EmptyString
    /\ In (page.click_remove (removeUserInput.userId m)) actions.
Proof.
  intros session actions m. apply page_removal_invariant.
Qed.

Lemma dashboard_never_requests_self_removal_witness :
  In (Sample.removal "u2")
     (page.removeUser_mutations (page.after Demo.admin_session_data Demo.clicks))
  /\ page.session_user_id Demo.admin_session_data <> Some "u2"
  /\ "u2" <> EmptyString
  /\ In (page.click_remove "u2") Demo.clicks.
Proof.
  assert (Hin : In (Sample.removal "u2")
                  (page.removeUser_mutations
                     (page.after Demo.admin_session_data Demo.clicks))).
  { rewrite Demo_clicks_request_bob. now left. }
  split; [exact Hin|].
  exact (dashboard_never_requests_self_removal Demo.admin_session_data Demo.clicks
           (Sample.removal "u2") Hin).
Defined.

(** X27 — a removal requested from the dashboard is never answered
    [FORBIDDEN]: when the server resolves the caller to the user the page
    is signed in as, [removeUser] on any request the page makes cannot
    fail with [FORBIDDEN], whatever the store holds and the collaborators
    do. *)
Theorem dashboard_removal_is_never_forbidden :
  forall session actions m ctx caller env w message w',
    In m (page.removeUser_mutations (page.after session actions)) ->
    ctx_session_user ctx = Some caller ->
    page.session_user_id session = Some (su_id caller) ->
    removeUser m ctx env w <> (Throw (TRPCError FORBIDDEN message), w').
Proof.
  intros session actions m ctx caller env w message w' Hm Hctx Hsame Hrun.
  apply removeUser_forbidden_only_for_self in Hrun.
  destruct Hrun as (caller' & Hctx' & Hid).
  rewrite Hctx in Hctx'. inversion Hctx'; subst caller'.
  destruct (proj2 (page_removal_invariant session actions) m Hm) as (Hself & _).
  apply Hself. now rewrite Hsame, Hid.
Qed.

Lemma dashboard_removal_is_never_forbidden_witness :
  (In (Sample.removal "u2")
      (page.removeUser_mutations (page.after Demo.admin_session_data Demo.clicks))
   /\ ctx_session_user Sample.admin_ctx = Some Sample.admin
   /\ page.session_user_id Demo.admin_session_data = Some (su_id Sample.admin))
  /\ removeUser (Sample.removal "u2") Sample.admin_ctx Sample.env Sample.world
     <> (Throw (TRPCError FORBIDDEN "You cannot remove yourself"), Sample.world).
Proof.
  assert (Hin : In (Sample.removal "u2")
                  (page.removeUser_mutations
                     (page.after Demo.admin_session_data Demo.clicks))).
  { rewrite Demo_clicks_request_bob. now left. }
  split; [repeat split; [exact Hin]|].
  exact (dashboard_removal_is_never_forbidden Demo.admin_session_data Demo.clicks
           (Sample.removal "u2") Sample.admin_ctx Sample.admin Sample.env Sample.world
           _ _ Hin eq_refl eq_refl).
Defined.

Lemma StronglySorted_snoc {A} (R : A -> A -> Prop) (l : list A) (a : A) :
  StronglySorted R l -> Forall (fun y => R y a) l -> StronglySorted R (l ++ [a]).
Proof.
  induction 1 as [|x l Hs IH Hall]; intros Hlast; cbn.
  - repeat constructor.
  - apply Forall_cons_iff in Hlast. destruct Hlast as [Hx Hlast].
    constructor; [now apply IH|].
    apply Forall_app. split; [exact Hall | repeat constructor; exact Hx].
Qed.

Lemma strictly_descending_rev (l : list Z) :
  strictly_descending l -> StronglySorted Z.lt (rev l).
Proof.
  unfold strictly_descending.
  induction 1 as [|a l Hs IH Hall]; cbn; [constructor|].
  apply StronglySorted_snoc; [exact IH|].
  rewrite Forall_forall in Hall |- *. intros y Hy. apply in_rev in Hy.
  specialize (Hall y Hy). lia.
Qed.

(** X28 — the login card, fed with the server's report: with an empty
    log it shows "no data"; otherwise it shows a chart whose bars are the
    rows of the report in strictly ascending date order (oldest first),
    beside a table that keeps the report's own order (newest first). *)
Theorem dashboard_chart_runs_oldest_first :
  forall env w ctx caller,
    healthy env ->
    admin_session ctx caller ->
    exists (report : list LoginsRow) (w' : World),
      getUniqueLoginsPerDay ctx env w = (Return report, w')
      /\ (db_login_events (w_db w) = [] ->
          page.logins_panel false (Some report) = page.panel_no_data)
      /\ (db_login_events (w_db w) <> [] ->
          exists bars,
            page.logins_panel false (Some report) = page.panel_chart bars report
            /\ StronglySorted Z.lt (map date bars)
            /\ List.length bars = List.length report
            /\ (forall r, In r bars <-> In r report)).
Proof.
  intros env w ctx caller Hh Ha.
  exists (unique_logins_rows (db_login_events (w_db w))).
  unfold getUniqueLoginsPerDay. rewrite (admin_session_passes_guard _ _ Ha).
  run Hh. eexists. split; [reflexivity|]. split.
  - intros ->. reflexivity.
  - intros Hne.
    set (report := unique_logins_rows (db_login_events (w_db w))).
    assert (Hpos : Nat.ltb 0 (List.length report) = true).
    { apply Nat.ltb_lt. destruct (db_login_events (w_db w)) as [|e events] eqn:E;
        [contradiction|].
      destruct (proj2 (unique_logins_rows_recent (e :: events)) e (or_introl eq_refl))
        as [Hin|[Hfull _]]; fold report in Hin || fold report in Hfull.
      - destruct report; [contradiction Hin | cbn; lia].
      - lia. }
    exists (page.chart_data report). unfold page.logins_panel. rewrite Hpos.
    split; [reflexivity|]. unfold page.chart_data. split.
    + rewrite map_rev. apply strictly_descending_rev.
      apply (proj1 (proj2 (unique_logins_rows_spec _))).
    + split; [apply length_rev|]. intros r. symmetry. apply in_rev.
Qed.

Lemma dashboard_chart_runs_oldest_first_witness :
  (healthy Sample.env /\ admin_session Sample.admin_ctx Sample.admin
   /\ db_login_events (w_db Sample.world) <> [])
  /\ exists (report : list LoginsRow) (w' : World) bars,
       getUniqueLoginsPerDay Sample.admin_ctx Sample.env Sample.world = (Return report, w')
       /\ page.logins_panel false (Some report) = page.panel_chart bars report
       /\ StronglySorted Z.lt (map date bars)
       /\ List.length bars = List.length report.
Proof.
  assert (Hne : db_login_events (w_db Sample.world) <> []) by discriminate.
  split; [repeat split; first [exact Sample_healthy | exact Sample_admin | exact Hne]|].
  destruct (dashboard_chart_runs_oldest_first Sample.env Sample.world Sample.admin_ctx
              Sample.admin Sample_healthy Sample_admin)
    as (report & w' & Hrun & _ & Hchart).
  destruct (Hchart Hne) as (bars & Hpanel & Hsorted & Hlen & _).
  exists report, w', bars. repeat split; assumption.
Defined.

(** X29 — the page's checks agree with the server's guard: for a signed-in
    user, the page shows the dashboard exactly when the guard lets that
    user through, it enables its queries exactly then too, and in that case
    no procedure answers [UNAUTHORIZED]. *)
Theorem dashboard_guard_agrees_with_server :
  forall user ctx,
    ctx_session_user ctx = Some user ->
    (page.render true (page.session_data user) = page.view_dashboard <->
     not_admin ctx = false)
    /\ (page.queries_enabled (page.session_data user) = true <-> not_admin ctx = false)
    /\ (page.queries_enabled (page.session_data user) = true ->
        forall p env w message w',
          adminRouter p ctx env w <> (Throw (TRPCError UNAUTHORIZED message), w')).
Proof.
  intros user ctx Hctx.
  assert (Hq : page.queries_enabled (page.session_data user) = true <->
               not_admin ctx = false).
  { unfold page.queries_enabled, page.role_is_admin, not_admin, role_is_not_admin.
    rewrite Hctx. destruct (su_role user) as [r|]; [|split; discriminate].
    destruct (str_eq r "admin"); cbn; split; congruence. }
  split; [|split; [exact Hq|]].
  - unfold page.render, not_admin. rewrite Hctx. cbn [negb].
    destruct (role_is_not_admin (su_role user)); split; congruence.
  - intros Hen p env w message w'.
    apply guard_passed_never_unauthorized. now apply Hq.
Qed.

Lemma dashboard_guard_agrees_with_server_witness :
  ctx_session_user Sample.admin_ctx = Some Sample.admin
  /\ page.render true (page.session_data Sample.admin) = page.view_dashboard
  /\ page.queries_enabled (page.session_data Sample.admin) = true
  /\ not_admin Sample.admin_ctx = false.
Proof.
  split; [reflexivity|].
  destruct (dashboard_guard_agrees_with_server Sample.admin Sample.admin_ctx eq_refl)
    as (Hview & Hq & _).
  split; [apply Hview; reflexivity|]. split; [apply Hq; reflexivity | reflexivity].
Defined.
